(** * sqltyper: statement nullability and row-count inference (src/infer.ts)

    A shallow embedding of the inference pipeline of [src/infer.ts] and the
    properties of it that the specification states.

    Conventions of the embedding

    - [TaskEither e a] of fp-ts is an asynchronous computation of an
      [Either e a].  The only asynchronous collaborator is the schema client,
      which is read-only during a run, so a task is identified with the
      [Either] it resolves to and the schema client with a function.
    - JavaScript truthiness is written out where the source relies on it:
      the empty string and [null] are falsy ([as || table.table],
      [nonNull.tableName ? .. : ..]), every array and object is truthy
      ([paramNullability ? .. : ..]) and a length is truthy when non-zero.
    - [as], [where], [from] and the variant [Parameter] are spelled [as_],
      [where_], [from_] and [Parameter_]. *)

From Stdlib Require Import List String Ascii Bool ZArith Lia Arith.
From Stdlib Require Import DecimalString Permutation.
Import ListNotations.
Local Open Scope string_scope.
Local Open Scope list_scope.

Set Implicit Arguments.

(* ------------------------------------------------------------------ *)
(** ** fp-ts: Either, Option and the array combinators used by infer.ts *)

Inductive Either (E A : Type) : Type :=
| Left (e : E)
| Right (a : A).

Arguments Left {E A} e.
Arguments Right {E A} a.

(** A task is run to completion; see the conventions above. *)
Definition TaskEither (E A : Type) : Type := Either E A.

Module EitherM.

Definition map {E A B} (f : A -> B) (ma : Either E A) : Either E B :=
  match ma with
  | Left e => Left e
  | Right a => Right (f a)
  end.

Definition chain {E A B} (f : A -> Either E B) (ma : Either E A)
  : Either E B :=
  match ma with
  | Left e => Left e
  | Right a => f a
  end.

(** [ap(fab, fa)]: the error of the function side is reported first. *)
Definition ap {E A B} (mab : Either E (A -> B)) (ma : Either E A)
  : Either E B :=
  match mab with
  | Left e => Left e
  | Right f => match ma with
               | Left e => Left e
               | Right a => Right (f a)
               end
  end.

Definition orElse {E E' A} (f : E -> Either E' A) (ma : Either E A)
  : Either E' A :=
  match ma with
  | Left e => f e
  | Right a => Right a
  end.

Definition fromPredicate {E A} (p : A -> bool) (onFalse : A -> E) (a : A)
  : Either E A :=
  if p a then Right a else Left (onFalse a).

Definition fromNullable {E A} (e : E) (a : option A) : Either E A :=
  match a with
  | Some x => Right x
  | None => Left e
  end.

Definition isLeft {E A} (ma : Either E A) : bool :=
  match ma with
  | Left _ => true
  | Right _ => false
  end.

End EitherM.

Notation "x <- c1 ;; c2" := (EitherM.chain (fun x => c2) c1)
  (at level 61, c1 at next level, right associativity).

(** Modelled from the spec: [fp-utils.ts] is not among the sources.
    [sequenceAE] and [sequenceATE] are the array [sequence] of fp-ts at the
    [Either] and [TaskEither] applicatives, the "Result-returning
    composition" of section 9: all results in order, or the leftmost
    error. *)
Fixpoint sequenceAE {E A} (l : list (Either E A)) : Either E (list A) :=
  match l with
  | [] => Right []
  | x :: rest =>
      match x with
      | Left e => Left e
      | Right a => EitherM.map (cons a) (sequenceAE rest)
      end
  end.

Definition sequenceATE {E A} (l : list (TaskEither E A))
  : TaskEither E (list A) := sequenceAE l.

(** [Array.filterMap(identity)] *)
Fixpoint filterMap_identity {A} (l : list (option A)) : list A :=
  match l with
  | [] => []
  | Some a :: rest => a :: filterMap_identity rest
  | None :: rest => filterMap_identity rest
  end.

(** [R.zipWith] and [R.zip] truncate to the shorter list. *)
Definition zipWith {A B C} (f : A -> B -> C) (la : list A) (lb : list B)
  : list C :=
  List.map (fun ab => f (fst ab) (snd ab)) (List.combine la lb).

(** [a || b] on a nullable string: [null] and the empty string are falsy. *)
Definition truthy (a : option string) : bool :=
  match a with
  | Some s => negb (s =? "")
  | None => false
  end.

Definition orString (a : option string) (b : string) : string :=
  match a with
  | Some s => if s =? "" then b else s
  | None => b
  end.

(** *** JavaScript numbers

    A JavaScript number is an IEEE 754 double.  The numbers of this file are
    integers ([Z]); an integer is a double when it has at most 53
    significant bits.  The result of an arithmetic operation is the exact
    result rounded to the nearest double, to the one with the even
    significand on a tie: [roundToDouble] does this for an integer result.
    Below 2^53 in absolute value every integer is a double and nothing is
    rounded.  The values that are not finite do not occur and are not
    modelled. *)
Definition roundToDouble (z : Z) : Z :=
  let a := Z.abs z in
  if (a <? 2 ^ 53)%Z
  then z
  else
    let ulp := (2 ^ (Z.log2 a - 52))%Z in
    let q := (a / ulp)%Z in
    let r := (a mod ulp)%Z in
    let q' :=
      if (2 * r <? ulp)%Z then q
      else if (ulp <? 2 * r)%Z then (q + 1)%Z
      else if Z.even q then q
      else (q + 1)%Z in
    (Z.sgn z * (q' * ulp))%Z.

(** [a - b] on numbers. *)
Definition numberSub (a b : Z) : Z := roundToDouble (a - b).

(** Decimal rendering of a length inside a template string. *)
Definition showNat (n : nat) : string :=
  NilEmpty.string_of_uint (Nat.to_uint n).

Definition dquote : string := String (ascii_of_nat 34) "".
Definition newline : string := String (ascii_of_nat 10) "".

(* ------------------------------------------------------------------ *)
(** ** Data model *)

(** [FieldNullability] (infer.ts, lines 17-27) *)
Inductive FieldNullability : Type :=
| Any (nullable : bool)
| Array (nullable : bool) (elemNullable : bool).

Definition any (nullable : bool) : FieldNullability := Any nullable.

Definition array (nullable elemNullable : bool) : FieldNullability :=
  Array nullable elemNullable.

(** The [.nullable] field, present in both variants. *)
Definition nullable (n : FieldNullability) : bool :=
  match n with
  | Any b => b
  | Array b _ => b
  end.

(** [{ ...n, nullable: b }] *)
Definition withNullable (n : FieldNullability) (b : bool) : FieldNullability :=
  match n with
  | Any _ => Any b
  | Array _ e => Array b e
  end.

Record SourceColumn : Type := mkSourceColumn {
  sc_tableAlias : string;
  sc_columnName : string;
  sc_nullability : FieldNullability;
  sc_hidden : bool
}.

Record VirtualField : Type := mkVirtualField {
  vf_name : string;
  vf_nullability : FieldNullability
}.

Definition virtualField (name : string) (nullability : FieldNullability)
  : VirtualField := mkVirtualField name nullability.

Record VirtualTable : Type := mkVirtualTable {
  vt_name : string;
  vt_columns : list VirtualField
}.

(** Modelled from the spec: [types.ts] is not among the sources.  A value type
    carries the oid of the column and, for an array type, the nullability of
    its elements; [ValueType_array] is the constructor [ValueType.array] that
    [applyColumnNullability] calls and [vt_oid] the field [type.oid]. *)
Inductive ValueType : Type :=
| ValueType_any (oid : Z)
| ValueType_array (oid : Z) (elemNullable : bool).

Definition vt_oid (t : ValueType) : Z :=
  match t with
  | ValueType_any oid => oid
  | ValueType_array oid _ => oid
  end.

(** Modelled from the spec: the row-count estimates of section 3. *)
Inductive StatementRowCount : Type := zero | one | zeroOrOne | many.

(** Modelled from the spec: a column of [StatementDescription] (section 3),
    [{ name, type, nullable }]; [types.ts] is not among the sources. *)
Record ColumnDescription : Type := mkColumnDescription {
  cd_name : string;
  cd_type : ValueType;
  cd_nullable : bool
}.

(** Modelled from the spec: a parameter of [StatementDescription]
    (section 3); index 0 of the list is [$1]. *)
Record ParamDescription : Type := mkParamDescription {
  pd_type : ValueType;
  pd_nullable : bool
}.

(** Modelled from the spec: [StatementDescription] (section 3), the input
    and the output of every pass. *)
Record StatementDescription : Type := mkStatementDescription {
  sql : string;
  columns : list ColumnDescription;
  params : list ParamDescription;
  rowCount : StatementRowCount
}.

(** Modelled from the spec: the schema contract [Column] (section 3);
    [schema.ts] is not among the sources. *)
Record Column : Type := mkColumn {
  column_name : string;
  column_type : ValueType;
  column_nullable : bool;
  column_hidden : bool
}.

(** Modelled from the spec: the schema contract [Table] (section 3). *)
Record Table : Type := mkTable {
  table_schema : string;
  table_name : string;
  table_columns : list Column
}.

(** Modelled from the spec: the schema client of section 4.5, a lookup by
    optional schema and table name that may fail. *)
Record SchemaClient : Type := mkSchemaClient {
  getTable : option string -> string -> TaskEither string Table
}.

(** Modelled from the spec: the null-safety categories of [const-utils.ts]
    (section 4.2.2); the tables themselves are parameters of the analysis. *)
Inductive NullSafety : Type := safe | unsafe | alwaysNull | neverNull.

Definition NullSafety_eqb (a b : NullSafety) : bool :=
  match a, b with
  | safe, safe | unsafe, unsafe
  | alwaysNull, alwaysNull | neverNull, neverNull => true
  | _, _ => false
  end.

(* ------------------------------------------------------------------ *)
(** ** The AST

    The module [./ast] that infer.ts imports is not among the sources.  (The
    type declarations that follow the functions in infer.ts, lines
    1023-1244, are those of an earlier and smaller AST with a single
    statement kind; the functions of the file do not refer to them, but
    [TableRef] and [JoinType] agree with them.) *)

(** Modelled from the spec: a table reference, [{ schema, table }] with an
    optional schema, as the handlers of infer.ts read it. *)
Record TableRef : Type := mkTableRef {
  tr_schema : option string;
  tr_table : string
}.

(** Modelled from the spec: the join types of a qualified join
    (section 4.1). *)
Inductive JoinType : Type := INNER | LEFT | RIGHT | FULL.

(** Modelled from the spec: the expressions, select-list items, table
    expressions and the four statement kinds of section 4.1.  The fields are
    the ones the [walk] handlers of infer.ts destructure ([ctes], [body],
    [limit], [table], [as], [columns], [values], [updates], [from],
    [where], [returning], ...); a [null] field is an [option].  [walk]
    dispatches on the variant and [walkSome] does so with a default for the
    variants left out, which is a [match] with a final wildcard. *)
Inductive Expression : Type :=
| ColumnRef (column : string)
| TableColumnRef (table : string) (column : string)
| Constant (valueText : string)
| Parameter_ (index : Z)
| UnaryOp (op : string) (operand : Expression)
| BinaryOp (lhs : Expression) (op : string) (rhs : Expression)
| FunctionCall (funcName : string) (argList : list Expression)
| ExistsOp (subquery : AST)
| InOp (lhs : Expression) (subquery : AST)
| ArraySubQuery (subquery : AST)
| TypeCast (lhs : Expression) (targetType : string)

with SelectListItem : Type :=
| AllFields
| AllTableFields (tableName : string)
| SelectListExpression (expression : Expression) (as_ : option string)

with TableExpression : Type :=
| TableExpr (table : TableRef) (as_ : option string)
| SubQuery (query : AST) (as_ : string)
| CrossJoin (left_ right_ : TableExpression)
| QualifiedJoin (left_ : TableExpression) (joinType : JoinType)
    (right_ : TableExpression) (on_ : Expression)

with WithQuery : Type :=
| mkWithQuery (as_ : string) (query : AST)

with SelectBody : Type :=
| mkSelectBody (selectList : list SelectListItem)
    (from_ : option TableExpression) (where_ : option Expression)

with Limit : Type :=
| mkLimit (count : option Expression) (offset : option Expression)

with Values : Type :=
| DefaultValues
| ExprValues (valuesList : list (list (option Expression)))

with UpdateAssignment : Type :=
| mkUpdateAssignment (columnName : string) (value : option Expression)

with AST : Type :=
| Select (ctes : list WithQuery) (body : SelectBody) (limit : option Limit)
| Insert (table : TableRef) (as_ : option string) (columns_ : list string)
    (values : Values) (returning : list SelectListItem)
| Update (ctes : list WithQuery) (table : TableRef) (as_ : option string)
    (updates : list UpdateAssignment) (from_ : option TableExpression)
    (where_ : option Expression) (returning : list SelectListItem)
| Delete (table : TableRef) (as_ : option string)
    (where_ : option Expression) (returning : list SelectListItem).

Definition wq_as (w : WithQuery) : string :=
  match w with mkWithQuery a _ => a end.

Definition wq_query (w : WithQuery) : AST :=
  match w with mkWithQuery _ q => q end.

Definition ua_columnName (u : UpdateAssignment) : string :=
  match u with mkUpdateAssignment c _ => c end.

Definition ua_value (u : UpdateAssignment) : option Expression :=
  match u with mkUpdateAssignment _ v => v end.

Definition body_selectList (b : SelectBody) : list SelectListItem :=
  match b with mkSelectBody l _ _ => l end.

Definition body_from (b : SelectBody) : option TableExpression :=
  match b with mkSelectBody _ f _ => f end.

Definition body_where (b : SelectBody) : option Expression :=
  match b with mkSelectBody _ _ w => w end.

Definition limit_count (l : Limit) : option Expression :=
  match l with mkLimit c _ => c end.

(** [===] between a string and a nullable string. *)
Definition strictEq (s : string) (o : option string) : bool :=
  match o with
  | Some t => s =? t
  | None => false
  end.

(* ------------------------------------------------------------------ *)
(** ** Scans of a WHERE clause and of source columns *)

Record NonNullableColumn : Type := mkNonNullableColumn {
  nn_tableName : option string;
  nn_columnName : string
}.

(** infer.ts, lines 325-334.  In [c ? a : true && b] the conjunction binds
    tighter than the conditional, so the expression reads
    [c ? a : (true && b)]. *)
Definition isColumnNonNullable (nonNullableColumns : list NonNullableColumn)
  (sourceColumn : SourceColumn) : bool :=
  existsb
    (fun nonNull =>
       if truthy (nn_tableName nonNull)
       then strictEq (sc_tableAlias sourceColumn) (nn_tableName nonNull)
       else true && (sc_columnName sourceColumn =? nn_columnName nonNull))
    nonNullableColumns.

(** The [walkSome] of lines 343-352: column references only. *)
Definition nonNullableColumnOf (expr : Expression) : option NonNullableColumn :=
  match expr with
  | ColumnRef column => Some (mkNonNullableColumn None column)
  | TableColumnRef table column =>
      Some (mkNonNullableColumn (Some table) column)
  | _ => None
  end.

(** infer.ts, lines 336-362 *)
Definition applyExpressionNonNullability
  (nonNullableExpressions : list Expression)
  (sourceColumns : list SourceColumn) : list SourceColumn :=
  let nonNullableColumns :=
    filterMap_identity (List.map nonNullableColumnOf nonNullableExpressions) in
  List.map
    (fun sourceColumn =>
       mkSourceColumn
         (sc_tableAlias sourceColumn)
         (sc_columnName sourceColumn)
         (if isColumnNonNullable nonNullableColumns sourceColumn
          then any false
          else sc_nullability sourceColumn)
         (sc_hidden sourceColumn))
    sourceColumns.

(** A source column forced to [any(false)], as in lines 356-361. *)
Definition forcedNonNullable (sourceColumn : SourceColumn) : SourceColumn :=
  mkSourceColumn (sc_tableAlias sourceColumn) (sc_columnName sourceColumn)
    (any false) (sc_hidden sourceColumn).

(** infer.ts, lines 364-369 *)
Definition inferExpressionName (expression : Expression) : string :=
  match expression with
  | ColumnRef column => column
  | TableColumnRef _ column => column
  | _ => "?column?"
  end.

Definition anyTE (nullable : bool) : TaskEither string FieldNullability :=
  Right (any nullable).

Definition arrayTE (nullable elemNullable : bool)
  : TaskEither string FieldNullability :=
  Right (array nullable elemNullable).

(** infer.ts, lines 960-964 *)
Definition isConstantExprOf (expectedValue : string) (expr : Expression)
  : bool :=
  match expr with
  | Constant valueText => valueText =? expectedValue
  | _ => false
  end.

(** infer.ts, lines 966-973 *)
Definition findNonHiddenSourceColumns (sourceColumns : list SourceColumn)
  : Either string (list SourceColumn) :=
  EitherM.fromPredicate
    (fun result => (0 <? List.length result)%nat)
    (fun _ => "No columns")
    (List.filter (fun col => negb (sc_hidden col)) sourceColumns).

(** infer.ts, lines 975-990 *)
Definition findNonHiddenSourceTableColumns (tableName : string)
  (sourceColumns : list SourceColumn) : Either string (list SourceColumn) :=
  EitherM.chain
    (fun result =>
       if (0 <? List.length result)%nat
       then Right result
       else Left ("No visible columns for table " ++ tableName)%string)
    (EitherM.map
       (fun sourceColumns =>
          List.filter (fun col => sc_tableAlias col =? tableName) sourceColumns)
       (findNonHiddenSourceColumns sourceColumns)).

(** infer.ts, lines 992-1004 *)
Definition findSourceTableColumn (tableName columnName : string)
  (sourceColumns : list SourceColumn) : Either string SourceColumn :=
  EitherM.fromNullable
    ("Unknown column " ++ tableName ++ "." ++ columnName)%string
    (List.find
       (fun source =>
          (sc_tableAlias source =? tableName)
          && (sc_columnName source =? columnName))
       sourceColumns).

(** infer.ts, lines 1006-1014 *)
Definition findSourceColumn (columnName : string)
  (sourceColumns : list SourceColumn) : Either string SourceColumn :=
  EitherM.fromNullable
    ("Unknown column " ++ columnName)%string
    (List.find (fun col => sc_columnName col =? columnName) sourceColumns).

(** infer.ts, lines 1016-1021 *)
Definition findTableColumn (columnName : string) (table : Table)
  : Either string Column :=
  EitherM.fromNullable
    ("Unknown column " ++ columnName)%string
    (List.find (fun column => column_name column =? columnName)
       (table_columns table)).

(** infer.ts, lines 941-948 *)
Definition setSourceColumnsAsNullable (sourceColumns : list SourceColumn)
  : list SourceColumn :=
  List.map
    (fun col =>
       mkSourceColumn (sc_tableAlias col) (sc_columnName col)
         (withNullable (sc_nullability col) true) (sc_hidden col))
    sourceColumns.

(** infer.ts, lines 950-958 *)
Definition combineSourceColumns
  (sourceColumns : list (TaskEither string (list SourceColumn)))
  : TaskEither string (list SourceColumn) :=
  EitherM.map (@List.concat SourceColumn) (sequenceATE sourceColumns).

(** infer.ts, lines 833-841 *)
Definition combineVirtualTables (outsideCTEs : list VirtualTable)
  (ctes : TaskEither string (list VirtualTable))
  : TaskEither string (list VirtualTable) :=
  EitherM.map (fun virtualTables => outsideCTEs ++ virtualTables) ctes.

(* ------------------------------------------------------------------ *)
(** ** The analysis, relative to a schema client and the null-safety tables

    [operatorNullSafety] and [functionNullSafety] are the lookups of
    [const-utils.ts], [Expression_equals] is [ast.Expression.equals] and
    [parse] the parser of [parser.ts]; none of them is among the sources, so
    the analysis is stated for arbitrary ones. *)

Section Infer.

Variable client : SchemaClient.
Variable operatorNullSafety : string -> NullSafety.
Variable functionNullSafety : string -> NullSafety.
Variable Expression_equals : Expression -> Expression -> bool.

(** *** WHERE-based NULL elimination (infer.ts, lines 571-603)

    The source function takes [Expression | null]; the recursion runs on
    the expression and [getNonNullExpressionsFromWhere] adds the [null]
    case. *)
Fixpoint getNonNullExpressionsFromWhereRec (where_ : Expression)
  : list Expression :=
  match where_ with
  | BinaryOp lhs op rhs =>
      if op =? "AND"
      then getNonNullExpressionsFromWhereRec lhs
             ++ getNonNullExpressionsFromWhereRec rhs
      else if NullSafety_eqb (operatorNullSafety op) safe
      then [lhs; rhs]
      else []
  | UnaryOp op operand =>
      if (op =? "IS NOT NULL") || (op =? "NOTNULL")
      then [operand]
      else []
  | FunctionCall funcName argList =>
      if NullSafety_eqb (functionNullSafety funcName) safe
      then argList
      else []
  | _ => []
  end.

Definition getNonNullExpressionsFromWhere (where_ : option Expression)
  : list Expression :=
  match where_ with
  | None => []
  | Some e => getNonNullExpressionsFromWhereRec e
  end.

(** *** Source columns of a table (infer.ts, lines 843-875) *)
Definition getSourceColumnsForTable (ctes : list VirtualTable)
  (table : TableRef) (as_ : option string)
  : TaskEither string (list SourceColumn) :=
  let result :=
    match tr_schema table with
    | None =>
        (* Try to find a matching CTE *)
        List.find (fun virtualTable => vt_name virtualTable =? tr_table table)
          ctes
    | Some _ => None
    end in
  match result with
  | Some result =>
      Right
        (List.map
           (fun col =>
              mkSourceColumn (orString as_ (tr_table table)) (vf_name col)
                (vf_nullability col) false)
           (vt_columns result))
  | None =>
      (* No matching CTE, try to find a database table *)
      EitherM.map
        (fun table =>
           List.map
             (fun col =>
                mkSourceColumn (orString as_ (table_name table))
                  (column_name col) (any (column_nullable col))
                  (column_hidden col))
             (table_columns table))
        (getTable client (tr_schema table) (tr_table table))
  end.

(** *** The helpers that call back into the recursion

    [getOutputColumns], [getSourceColumnsForTableExpr] and
    [inferExpressionNullability] are mutually recursive through these
    helpers.  Each helper is first written against the function it calls
    back ([_open]) and is given its source name once the recursion is
    closed. *)
Section Open.

Variable getOutputColumns :
  list VirtualTable -> AST -> TaskEither string (list VirtualField).
Variable inferExpressionNullability :
  list VirtualTable -> list SourceColumn -> list Expression ->
  Expression -> TaskEither string FieldNullability.

(** infer.ts, lines 812-831: the loop over [withQueries] with the array
    [virtualTables] it pushes to. *)
Fixpoint getVirtualTablesForWithQueries_loop
  (virtualTables : list VirtualTable) (withQueries : list WithQuery)
  : TaskEither string (list VirtualTable) :=
  match withQueries with
  | [] => Right virtualTables
  | withQuery :: rest =>
      (* "Virtual tables" from previous WITH queries are available *)
      let virtualTable :=
        EitherM.map
          (fun columns => mkVirtualTable (wq_as withQuery) columns)
          (getOutputColumns virtualTables (wq_query withQuery)) in
      match virtualTable with
      | Left e => Left e
      | Right vt =>
          getVirtualTablesForWithQueries_loop (virtualTables ++ [vt]) rest
      end
  end.

Definition getVirtualTablesForWithQueries_open
  (withQueries : list WithQuery) : TaskEither string (list VirtualTable) :=
  getVirtualTablesForWithQueries_loop [] withQueries.

(** infer.ts, lines 922-939 *)
Definition getSourceColumnsForSubQuery_open
  (outsideCTEs : list VirtualTable) (subquery : AST) (as_ : string)
  : TaskEither string (list SourceColumn) :=
  EitherM.map
    (fun columns =>
       List.map
         (fun column =>
            mkSourceColumn as_ (vf_name column) (vf_nullability column)
              false)
         columns)
    (getOutputColumns outsideCTEs subquery).

(** infer.ts, lines 260-321 *)
Definition inferSelectListItemOutput_open
  (outsideCTEs : list VirtualTable) (sourceColumns : list SourceColumn)
  (nonNullExpressions : list Expression) (selectListItem : SelectListItem)
  : TaskEither string (list VirtualField) :=
  match selectListItem with
  | AllFields =>
      (* hidden columns aren't selected by SELECT * *)
      EitherM.map
        (fun columns =>
           List.map
             (fun column =>
                mkVirtualField (sc_columnName column)
                  (sc_nullability column))
             columns)
        (EitherM.map
           (fun columns =>
              applyExpressionNonNullability nonNullExpressions columns)
           (findNonHiddenSourceColumns sourceColumns))
  | AllTableFields tableName =>
      EitherM.map
        (fun columns =>
           List.map
             (fun column =>
                mkVirtualField (sc_columnName column)
                  (sc_nullability column))
             columns)
        (EitherM.map
           (fun columns =>
              applyExpressionNonNullability nonNullExpressions columns)
           (findNonHiddenSourceTableColumns tableName sourceColumns))
  | SelectListExpression expression as_ =>
      EitherM.map
        (fun exprNullability =>
           [virtualField (orString as_ (inferExpressionName expression))
              exprNullability])
        (inferExpressionNullability outsideCTEs sourceColumns
           nonNullExpressions expression)
  end.

(** infer.ts, lines 233-258 *)
Definition inferSelectListOutput_open
  (outsideCTEs : list VirtualTable) (sourceColumns : list SourceColumn)
  (where_ : option Expression) (selectList : list SelectListItem)
  : TaskEither string (list VirtualField) :=
  nonNullExpressions <- Right (getNonNullExpressionsFromWhere where_) ;;
  EitherM.map (@List.concat VirtualField)
    (sequenceATE
       (List.map
          (fun item =>
             inferSelectListItemOutput_open outsideCTEs sourceColumns
               nonNullExpressions item)
          selectList)).

End Open.

(** The [null] case of [getSourceColumnsForTableExpr] (lines 883-885),
    in front of the walk over the table expression. *)
Definition getSourceColumnsForTableExpr_open
  (walk : list VirtualTable -> TableExpression -> bool ->
          TaskEither string (list SourceColumn))
  (ctes : list VirtualTable) (tableExpr : option TableExpression)
  (setNullable : bool) : TaskEither string (list SourceColumn) :=
  match tableExpr with
  | None => Right []
  | Some tableExpr => walk ctes tableExpr setNullable
  end.

(** *** The recursion: infer.ts, lines 109-185, 877-920 and 384-569 *)
Fixpoint getOutputColumns (outsideCTEs : list VirtualTable) (tree : AST)
  {struct tree} : TaskEither string (list VirtualField) :=
  match tree with
  | Select ctes body _ =>
      combinedCTEs <-
        combineVirtualTables outsideCTEs
          (getVirtualTablesForWithQueries_open getOutputColumns ctes) ;;
      sourceColumns <-
        getSourceColumnsForTableExpr_open getSourceColumnsForTableExprRec
          combinedCTEs (body_from body) false ;;
      inferSelectListOutput_open inferExpressionNullability combinedCTEs
        sourceColumns (body_where body) (body_selectList body)
  | Insert table as_ _ _ returning =>
      sourceColumns <- getSourceColumnsForTable outsideCTEs table as_ ;;
      inferSelectListOutput_open inferExpressionNullability outsideCTEs
        sourceColumns None returning
  | Update ctes table as_ _ from_ where_ returning =>
      sourceColumns <-
        (combinedCTEs <-
           combineVirtualTables outsideCTEs
             (getVirtualTablesForWithQueries_open getOutputColumns ctes) ;;
         combineSourceColumns
           [getSourceColumnsForTableExpr_open getSourceColumnsForTableExprRec
              combinedCTEs from_ false;
            getSourceColumnsForTable combinedCTEs table as_]) ;;
      inferSelectListOutput_open inferExpressionNullability outsideCTEs
        sourceColumns where_ returning
  | Delete table as_ where_ returning =>
      sourceColumns <- getSourceColumnsForTable outsideCTEs table as_ ;;
      inferSelectListOutput_open inferExpressionNullability outsideCTEs
        sourceColumns where_ returning
  end

with getSourceColumnsForTableExprRec (ctes : list VirtualTable)
  (tableExpr : TableExpression) (setNullable : bool) {struct tableExpr}
  : TaskEither string (list SourceColumn) :=
  EitherM.map
    (fun sourceColumns =>
       if setNullable
       then setSourceColumnsAsNullable sourceColumns
       else sourceColumns)
    match tableExpr with
    | TableExpr table as_ => getSourceColumnsForTable ctes table as_
    | SubQuery query as_ =>
        getSourceColumnsForSubQuery_open getOutputColumns ctes query as_
    | CrossJoin left_ right_ =>
        combineSourceColumns
          [getSourceColumnsForTableExprRec ctes left_ false;
           getSourceColumnsForTableExprRec ctes right_ false]
    | QualifiedJoin left_ joinType right_ _ =>
        combineSourceColumns
          [getSourceColumnsForTableExprRec ctes left_
             (* RIGHT or FULL JOIN -> The left side columns becomes nullable *)
             (match joinType with RIGHT | FULL => true | _ => false end);
           getSourceColumnsForTableExprRec ctes right_
             (* LEFT or FULL JOIN -> The right side columns becomes nullable *)
             (match joinType with LEFT | FULL => true | _ => false end)]
    end

with inferExpressionNullability (outsideCTEs : list VirtualTable)
  (sourceColumns : list SourceColumn) (nonNullExprs : list Expression)
  (expression : Expression) {struct expression}
  : TaskEither string FieldNullability :=
  if existsb (fun nonNull => Expression_equals expression nonNull)
       nonNullExprs
  then
    (* This expression is guaranteed to be not NULL by a
       `WHERE expr IS NOT NULL` clause *)
    anyTE false
  else
    match expression with
    | TableColumnRef table column =>
        EitherM.map (fun column => sc_nullability column)
          (findSourceTableColumn table column sourceColumns)
    | ColumnRef column =>
        EitherM.map (fun column => sc_nullability column)
          (findSourceColumn column sourceColumns)
    | UnaryOp op operand =>
        match operatorNullSafety op with
        | safe =>
            inferExpressionNullability outsideCTEs sourceColumns
              nonNullExprs operand
        | unsafe | alwaysNull => anyTE true
        | neverNull => anyTE false
        end
    | BinaryOp lhs op rhs =>
        match operatorNullSafety op with
        | safe =>
            EitherM.ap
              (EitherM.ap
                 (Right
                    (fun lhsNullability rhsNullability =>
                       any (nullable lhsNullability
                            || nullable rhsNullability)))
                 (inferExpressionNullability outsideCTEs sourceColumns
                    nonNullExprs lhs))
              (inferExpressionNullability outsideCTEs sourceColumns
                 nonNullExprs rhs)
        | unsafe | alwaysNull => anyTE true
        | neverNull => anyTE false
        end
    | ExistsOp _ => anyTE false
    | FunctionCall funcName argList =>
        match functionNullSafety funcName with
        | safe =>
            argNullability <-
              sequenceATE
                (List.map
                   (fun arg =>
                      inferExpressionNullability outsideCTEs sourceColumns
                        nonNullExprs arg)
                   argList) ;;
            anyTE (existsb (fun nullability => nullable nullability)
                     argNullability)
        | unsafe | alwaysNull => anyTE true
        | neverNull => anyTE false
        end
    | InOp lhs _ =>
        inferExpressionNullability outsideCTEs sourceColumns nonNullExprs lhs
    | ArraySubQuery subquery =>
        columns <- getOutputColumns outsideCTEs subquery ;;
        match columns with
        | [column0] =>
            arrayTE
              (* An array constructed from a subquery is never NULL itself *)
              false
              (* Element nullability depends on the subquery column *)
              (nullable (vf_nullability column0))
        | _ => Left "subquery must return only one column"
        end
    | TypeCast lhs _ =>
        inferExpressionNullability outsideCTEs sourceColumns nonNullExprs lhs
    | Constant _ => anyTE false
    | Parameter_ _ => anyTE true
    end.

(** The helpers under their source names. *)
Definition getVirtualTablesForWithQueries
  : list WithQuery -> TaskEither string (list VirtualTable) :=
  getVirtualTablesForWithQueries_open getOutputColumns.

Definition getSourceColumnsForTableExpr
  : list VirtualTable -> option TableExpression -> bool ->
    TaskEither string (list SourceColumn) :=
  getSourceColumnsForTableExpr_open getSourceColumnsForTableExprRec.

Definition getSourceColumnsForSubQuery
  : list VirtualTable -> AST -> string ->
    TaskEither string (list SourceColumn) :=
  getSourceColumnsForSubQuery_open getOutputColumns.

Definition inferSelectListItemOutput
  : list VirtualTable -> list SourceColumn -> list Expression ->
    SelectListItem -> TaskEither string (list VirtualField) :=
  inferSelectListItemOutput_open inferExpressionNullability.

Definition inferSelectListOutput
  : list VirtualTable -> list SourceColumn -> option Expression ->
    list SelectListItem -> TaskEither string (list VirtualField) :=
  inferSelectListOutput_open inferExpressionNullability.

End Infer.

(* ------------------------------------------------------------------ *)
(** ** Column nullability pass *)

(** infer.ts, lines 187-231 *)
Definition applyColumnNullability (stmt : StatementDescription)
  (outputColumns : list VirtualField) : Either string StatementDescription :=
  if negb (List.length outputColumns =? List.length (columns stmt))%nat
  then
    Left ("BUG: Non-equal number of columns: inferred "
          ++ showNat (List.length outputColumns)
          ++ ", actual " ++ showNat (List.length (columns stmt)))%string
  else
    let inferredColumnNames :=
      String.concat ", " (List.map vf_name outputColumns) in
    let actualColumnNames :=
      String.concat ", " (List.map cd_name (columns stmt)) in
    if negb (inferredColumnNames =? actualColumnNames)
    then
      Left ("BUG: Inferred output column names do not equal "
            ++ "actual output column names: inferred "
            ++ dquote ++ inferredColumnNames ++ dquote
            ++ ", actual: " ++ dquote ++ actualColumnNames ++ dquote)%string
    else
      Right
        (mkStatementDescription
           (sql stmt)
           (zipWith
              (fun column inferred =>
                 match vf_nullability inferred with
                 | Any nullable =>
                     mkColumnDescription (cd_name column) (cd_type column)
                       nullable
                 | Array nullable elemNullable =>
                     mkColumnDescription (cd_name column)
                       (ValueType_array (vt_oid (cd_type column)) elemNullable)
                       nullable
                 end)
              (columns stmt) outputColumns)
           (params stmt)
           (rowCount stmt)).

(* ------------------------------------------------------------------ *)
(** ** Parameter nullability pass *)

(** index 0 means param $1, index 1 means param $2, etc. *)
Record ParamNullability : Type := mkParamNullability {
  pn_index : Z;
  pn_nullable : bool
}.

(** infer.ts, lines 683-694 *)
Definition paramIndexFromExpr (expression : option Expression) : option Z :=
  match expression with
  | None => None
  | Some nonNullExpr =>
      match nonNullExpr with
      | Parameter_ index => Some (numberSub index 1)
      | _ => None
      end
  end.

(** infer.ts, lines 648-657 *)
Definition findParamsFromValues (values : Values) (numInsertColumns : nat)
  : list (list (option Z)) :=
  match values with
  | DefaultValues => [List.repeat None numInsertColumns]
  | ExprValues valuesList =>
      List.map (fun values => List.map paramIndexFromExpr values) valuesList
  end.

(** infer.ts, lines 707-713 *)
Definition makeParamNullability (index : option Z) (column : Column)
  : option ParamNullability :=
  option_map (fun index => mkParamNullability index (column_nullable column))
    index.

(** infer.ts, lines 696-705 *)
Definition updateToParamNullability (dbTable : Table)
  (update : UpdateAssignment) : Either string (option ParamNullability) :=
  EitherM.ap
    (EitherM.ap (Right makeParamNullability)
       (Right (paramIndexFromExpr (ua_value update))))
    (findTableColumn (ua_columnName update) dbTable).

(** infer.ts, lines 733-748 *)
Definition combineParamNullability (valuesListParams : list (list (option Z)))
  (targetColumns : list Column) : list ParamNullability :=
  filterMap_identity
    (List.concat
       (List.map
          (fun valuesParams =>
             List.map
               (fun cp =>
                  option_map
                    (fun index =>
                       mkParamNullability index (column_nullable (fst cp)))
                    (snd cp))
               (List.combine targetColumns valuesParams))
          valuesListParams)).

(** infer.ts, lines 750-770 *)
Definition applyParamNullability (stmt : StatementDescription)
  (paramNullability : list ParamNullability)
  : Either string StatementDescription :=
  (* paramNullability may contain multiple records for each param. If
     any of the records states that the param is nullable, then it is
     nullable. *)
  let nullability :=
    List.map
      (fun index =>
         existsb (fun record => pn_nullable record)
           (List.filter
              (fun record => (pn_index record =? Z.of_nat index)%Z)
              paramNullability))
      (List.seq 0 (List.length (params stmt))) in
  Right
    (mkStatementDescription
       (sql stmt)
       (columns stmt)
       (zipWith
          (fun param nullable => mkParamDescription (pd_type param) nullable)
          (params stmt) nullability)
       (rowCount stmt)).

Section ParamPass.

Variable client : SchemaClient.

(** infer.ts, lines 715-731 *)
Definition findInsertColumns (table : TableRef) (columnNames : list string)
  : TaskEither string (list Column) :=
  dbTable <- getTable client (tr_schema table) (tr_table table) ;;
  sequenceAE
    (List.map (fun columnName => findTableColumn columnName dbTable)
       columnNames).

(** infer.ts, lines 659-681 *)
Definition findParamNullabilityFromUpdates (table : TableRef)
  (updates : list UpdateAssignment)
  : TaskEither string (list ParamNullability) :=
  EitherM.map
    (fun paramNullabilities => filterMap_identity paramNullabilities)
    (dbTable <- getTable client (tr_schema table) (tr_table table) ;;
     sequenceAE
       (List.map (fun update => updateToParamNullability dbTable update)
          updates)).

(** infer.ts, lines 625-646; [None] is the [null] of SELECT and DELETE. *)
Definition getParamNullability (tree : AST)
  : TaskEither string (option (list ParamNullability)) :=
  match tree with
  | Select _ _ _ => Right None
  | Insert table _ columns_ values _ =>
      EitherM.ap
        (EitherM.ap
           (Right (fun v c => Some (combineParamNullability v c)))
           (Right (findParamsFromValues values (List.length columns_))))
        (findInsertColumns table columns_)
  | Update _ table _ updates _ _ _ =>
      EitherM.map (@Some (list ParamNullability))
        (findParamNullabilityFromUpdates table updates)
  | Delete _ _ _ _ => Right None
  end.

(** infer.ts, lines 605-620.  An array is truthy even when empty, so only
    the [null] of SELECT and DELETE skips [applyParamNullability]. *)
Definition inferParamNullability (statement : StatementDescription)
  (tree : AST) : TaskEither string StatementDescription :=
  paramNullability <- getParamNullability tree ;;
  match paramNullability with
  | Some paramNullability => applyParamNullability statement paramNullability
  | None => Right statement
  end.

End ParamPass.

(* ------------------------------------------------------------------ *)
(** ** Row-count pass (infer.ts, lines 772-810) *)

Definition inferRowCount (statement : StatementDescription) (astNode : AST)
  : StatementDescription :=
  let rowCount_ : StatementRowCount :=
    match astNode with
    | Select _ _ limit =>
        match limit with
        | Some limit =>
            match limit_count limit with
            | Some count =>
                if isConstantExprOf "1" count
                then zeroOrOne (* LIMIT 1 => zero or one rows *)
                else many
            | None => many
            end
        | None => many
        end
    | Insert _ _ _ values returning =>
        match values with
        | DefaultValues =>
            (* INSERT INTO xxx DEFAULT VALUES always creates a single row *)
            one
        | ExprValues valuesList =>
            if negb (List.length returning =? 0)%nat
            then
              (* Check the length of the VALUES expression list *)
              if (List.length valuesList =? 1)%nat then one else many
            else
              (* No RETURNING, no output *)
              zero
        end
    | Update _ _ _ _ _ _ returning =>
        if negb (List.length returning =? 0)%nat then many else zero
    | Delete _ _ _ returning =>
        if negb (List.length returning =? 0)%nat then many else zero
    end in
  mkStatementDescription (sql statement) (columns statement)
    (params statement) rowCount_.

(* ------------------------------------------------------------------ *)
(** ** The entry point (infer.ts, lines 53-107) *)

Section Pipeline.

Variable client : SchemaClient.
Variable operatorNullSafety : string -> NullSafety.
Variable functionNullSafety : string -> NullSafety.
Variable Expression_equals : Expression -> Expression -> bool.
Variable parse : string -> Either string AST.

Definition inferColumnNullability (statement : StatementDescription)
  (tree : AST) : TaskEither string StatementDescription :=
  outputColumns <-
    getOutputColumns client operatorNullSafety functionNullSafety
      Expression_equals [] tree ;;
  applyColumnNullability statement outputColumns.

(** The text given to [console.warn] when the pipeline fails. *)
Definition parserWarning : string :=
  (newline
   ++ "WARNING: The internal SQL parser failed to parse the SQL statement. The"
   ++ newline
   ++ "inferred types may be inaccurate with respect to nullability."
   ++ newline)%string.

Definition verboseWarning (parseErrorStr : string) : string :=
  ("Parse error: " ++ parseErrorStr ++ newline ++ newline
   ++ "Please open an issue on https://github.com/akheron/sqltyper."
   ++ newline ++ newline
   ++ "Include the above error message, relevant parts of your database"
   ++ newline
   ++ "schema (CREATE TABLE statements, CREATE TYPE statements, etc.) and the"
   ++ newline
   ++ "SQL statement that failed to parse."
   ++ newline ++ newline
   ++ "Thank you in advance!" ++ newline)%string.

Definition terseWarning : string :=
  ("Re-run with --verbose for instructions on how to report or fix this."
   ++ newline)%string.

(** The result is paired with the lines written to the console. *)
Definition inferStatementNullability (verbose : bool)
  (statement : StatementDescription)
  : list string * TaskEither string StatementDescription :=
  let inferred :=
    astNode <- parse (sql statement) ;;
    EitherM.map (fun stmt => inferRowCount stmt astNode)
      (stmt <- inferColumnNullability statement astNode ;;
       inferParamNullability client stmt astNode) in
  match inferred with
  | Left parseErrorStr =>
      ([parserWarning;
        if verbose then verboseWarning parseErrorStr else terseWarning],
       Right statement)
  | Right stmt => ([], Right stmt)
  end.

End Pipeline.

(* ------------------------------------------------------------------ *)
(** ** A sample database: the [person] table of the test-suite

    [CREATE TABLE person (id serial PRIMARY KEY, name varchar(255) NOT NULL,
    age integer)], with sample null-safety tables and a structural equality
    on subquery-free expressions.  The properties below are proved for every
    schema client and every table; the sample instantiates them. *)

Module Sample.

Definition person : Table :=
  mkTable "public" "person"
    [mkColumn "id" (ValueType_any 23) false false;
     mkColumn "name" (ValueType_any 1043) false false;
     mkColumn "age" (ValueType_any 23) true false].

Definition client : SchemaClient :=
  mkSchemaClient
    (fun schema name =>
       if name =? "person"
       then Right person
       else Left ("Unknown table " ++ name)%string).

(** The examples of safe operators and of never-NULL predicates given in
    section 4.2.2 of the specification. *)
Definition operatorNullSafety (op : string) : NullSafety :=
  if (op =? "+") || (op =? "-") || (op =? "=") || (op =? "<")
     || (op =? "||")
  then safe
  else if (op =? "IS NULL") || (op =? "IS NOT NULL")
  then neverNull
  else unsafe.

Definition functionNullSafety (funcName : string) : NullSafety :=
  if funcName =? "lower" then safe else unsafe.

Fixpoint Expression_equals (a b : Expression) {struct a} : bool :=
  match a, b with
  | ColumnRef c1, ColumnRef c2 => c1 =? c2
  | TableColumnRef t1 c1, TableColumnRef t2 c2 => (t1 =? t2) && (c1 =? c2)
  | Constant v1, Constant v2 => v1 =? v2
  | Parameter_ i1, Parameter_ i2 => (i1 =? i2)%Z
  | UnaryOp o1 e1, UnaryOp o2 e2 => (o1 =? o2) && Expression_equals e1 e2
  | BinaryOp l1 o1 r1, BinaryOp l2 o2 r2 =>
      (o1 =? o2) && Expression_equals l1 l2 && Expression_equals r1 r2
  | TypeCast l1 t1, TypeCast l2 t2 =>
      Expression_equals l1 l2 && (t1 =? t2)
  | FunctionCall f1 args1, FunctionCall f2 args2 =>
      (f1 =? f2)
      && (fix all2 (xs ys : list Expression) {struct xs} : bool :=
            match xs, ys with
            | [], [] => true
            | x :: xs', y :: ys' => Expression_equals x y && all2 xs' ys'
            | _, _ => false
            end) args1 args2
  | _, _ => false
  end.

Definition personRef : TableRef := mkTableRef None "person".

(** The driver probe of a statement with [n] parameters and the given
    output columns; everything nullable, row count [many]. *)
Definition probed (sql : string) (cols : list string) (n : nat)
  : StatementDescription :=
  mkStatementDescription sql
    (List.map (fun c => mkColumnDescription c (ValueType_any 23) true) cols)
    (List.repeat (mkParamDescription (ValueType_any 23) true) n)
    many.

Definition getOutputColumns :=
  getOutputColumns client operatorNullSafety functionNullSafety
    Expression_equals.

End Sample.

(* ------------------------------------------------------------------ *)
(** ** The properties as the specification words them *)

(** Section 4.3, "Merging": a parameter with binding records is nullable iff
    one of its records says so, and a parameter without a record keeps the
    nullability of the driver probe. *)
Definition mergesAsSpecified (stmt : StatementDescription)
  (records : list ParamNullability) (result : StatementDescription) : Prop :=
  forall (i : nat) (param : ParamDescription),
    nth_error (params stmt) i = Some param ->
    exists param',
      nth_error (params result) i = Some param'
      /\ ((exists r, In r records /\ pn_index r = Z.of_nat i) ->
          pd_nullable param'
          = existsb
              (fun r => (pn_index r =? Z.of_nat i)%Z && pn_nullable r)
              records)
      /\ ((forall r, In r records -> pn_index r <> Z.of_nat i) ->
          pd_nullable param' = pd_nullable param).

(** Invariant 1: the inferred output columns and the probed columns differ in
    number or in their ordered names. *)
Definition structuralMismatch (outputColumns : list VirtualField)
  (raw : StatementDescription) : Prop :=
  List.length outputColumns <> List.length (columns raw)
  \/ List.map vf_name outputColumns <> List.map cd_name (columns raw).

(** Section 4.2, "CTE ordering", as worded: CTE [i] is inferred in a scope
    holding the outer CTEs and the CTEs [0..i-1] of its WITH clause. *)
Fixpoint withQueriesAsSpecified
  (getOutputColumns :
     list VirtualTable -> AST -> TaskEither string (list VirtualField))
  (outsideCTEs virtualTables : list VirtualTable)
  (withQueries : list WithQuery) : TaskEither string (list VirtualTable) :=
  match withQueries with
  | [] => Right virtualTables
  | withQuery :: rest =>
      match
        getOutputColumns (outsideCTEs ++ virtualTables) (wq_query withQuery)
      with
      | Left e => Left e
      | Right columns =>
          withQueriesAsSpecified getOutputColumns outsideCTEs
            (virtualTables ++ [mkVirtualTable (wq_as withQuery) columns]) rest
      end
  end.

(** The join nullability table of section 4.2. *)
Definition leftBecomesNullable (joinType : JoinType) : bool :=
  match joinType with
  | INNER => false
  | LEFT => false
  | RIGHT => true
  | FULL => true
  end.

Definition rightBecomesNullable (joinType : JoinType) : bool :=
  match joinType with
  | INNER => false
  | LEFT => true
  | RIGHT => false
  | FULL => true
  end.

(** Element nullability, for the array variant only. *)
Definition elemNullableOf (n : FieldNullability) : option bool :=
  match n with
  | Any _ => None
  | Array _ e => Some e
  end.

(** "Becomes nullable": the same column with its [nullable] flag forced to
    true and its element nullability untouched. *)
Definition becameNullable (before after : SourceColumn) : Prop :=
  sc_tableAlias after = sc_tableAlias before
  /\ sc_columnName after = sc_columnName before
  /\ sc_hidden after = sc_hidden before
  /\ nullable (sc_nullability after) = true
  /\ elemNullableOf (sc_nullability after)
     = elemNullableOf (sc_nullability before).

(** One side of a join, according to the table. *)
Definition joinSide (becomesNullable : bool) (before after : list SourceColumn)
  : Prop :=
  if becomesNullable
  then Forall2 becameNullable before after
  else after = before.

(* ------------------------------------------------------------------ *)
(** ** The module list of the command line

    The source of the command line is the second part of
    [tests/cli/check.ts.template] (called cli.ts below).  Its watch mode
    keeps, for each directory, the list of generated modules and updates
    it on every file event.  [TsModule] comes from [./index],
    which is not among the sources; the functions only read its
    [sqlFileName], so they are stated for any type with such a field. *)

(** [Array.prototype.findIndex]: the index of the first element satisfying
    [pred], or -1. *)
Fixpoint findIndex {A} (pred : A -> bool) (l : list A) : Z :=
  match l with
  | [] => (-1)%Z
  | x :: rest =>
      if pred x then 0%Z
      else
        let i := findIndex pred rest in
        if (i <? 0)%Z then (-1)%Z else (i + 1)%Z
  end.

(** [unsafeUpdateAt] of fp-ts: a copy with position [i] overwritten. *)
Fixpoint unsafeUpdateAt {A} (i : nat) (a : A) (l : list A) : list A :=
  match l, i with
  | [], _ => []
  | _ :: rest, O => a :: rest
  | x :: rest, S i' => x :: unsafeUpdateAt i' a rest
  end.

(** [Array.modifyAt] of fp-ts: [none] when the index is out of bounds. *)
Definition modifyAt {A} (i : Z) (f : A -> A) (l : list A)
  : option (list A) :=
  if (i <? 0)%Z || (Z.of_nat (List.length l) <=? i)%Z
  then None
  else
    match nth_error l (Z.to_nat i) with
    | Some a => Some (unsafeUpdateAt (Z.to_nat i) (f a) l)
    | None => None
    end.

(** cli.ts, [modifyWhere].  [findIndex] returns a number, which
    [Option.fromNullable] always wraps in [some]; the absent case is the
    index -1, which [modifyAt] rejects.  [where[index]] is read only when
    [modifyAt] calls the function, that is for an index within bounds. *)
Definition modifyWhere {A} (pred : A -> bool) (replacer : A -> A)
  (where_ : list A) : option (list A) :=
  match Some (findIndex pred where_) with
  | Some index =>
      modifyAt index
        (fun current => replacer (List.nth (Z.to_nat index) where_ current))
        where_
  | None => None
  end.

Section TsModules.

Variable TsModule : Type.
Variable sqlFileName : TsModule -> string.

(** cli.ts, [replaceOrAddTsModule] *)
Definition replaceOrAddTsModule (tsModule : TsModule)
  (tsModules : list TsModule) : list TsModule :=
  match
    modifyWhere
      (fun mod_ => sqlFileName mod_ =? sqlFileName tsModule)
      (fun _ => tsModule)
      tsModules
  with
  | Some modules => modules
  | None => tsModules ++ [tsModule]
  end.

(** cli.ts, [removeTsModule] *)
Definition removeTsModule (name : string) (tsModules : list TsModule)
  : list TsModule :=
  List.filter (fun mod_ => negb (sqlFileName mod_ =? name)) tsModules.

End TsModules.

(** [String.prototype.split] with the separator [","]: the pieces between
    the commas, at least one. *)
Fixpoint splitComma (s : string) : list string :=
  match s with
  | EmptyString => [EmptyString]
  | String c rest =>
      if Ascii.eqb c ","%char
      then EmptyString :: splitComma rest
      else
        match splitComma rest with
        | piece :: pieces => String c piece :: pieces
        | [] => [String c EmptyString]
        end
  end.

(** cli.ts, [extensions] *)
Definition extensions (e : string) : list string :=
  List.map (fun ext => ("." ++ ext)%string) (splitComma e).

(* ------------------------------------------------------------------ *)
(** ** Vocabulary of the further properties *)

(** [child e' e]: [e'] is an operand of [e] (subqueries are statements, not
    operands). *)
Inductive child : Expression -> Expression -> Prop :=
| child_unary op operand : child operand (UnaryOp op operand)
| child_lhs lhs op rhs : child lhs (BinaryOp lhs op rhs)
| child_rhs lhs op rhs : child rhs (BinaryOp lhs op rhs)
| child_arg funcName argList arg :
    In arg argList -> child arg (FunctionCall funcName argList)
| child_in lhs subquery : child lhs (InOp lhs subquery)
| child_cast lhs targetType : child lhs (TypeCast lhs targetType).

(** A proper sub-expression: an operand of an operand of ... *)
Inductive properSubexpression : Expression -> Expression -> Prop :=
| sub_child e' e : child e' e -> properSubexpression e' e
| sub_step e'' e' e :
    properSubexpression e'' e' -> child e' e -> properSubexpression e'' e.

(** Every column reference of [e] that the analysis may look up is in scope,
    and [e] holds no [ARRAY(subquery)]: a condition on the expression alone
    under which the analysis of [e] cannot fail. *)
Fixpoint resolvable (sourceColumns : list SourceColumn) (e : Expression)
  {struct e} : bool :=
  match e with
  | ColumnRef column =>
      existsb (fun col => sc_columnName col =? column) sourceColumns
  | TableColumnRef table column =>
      existsb
        (fun source =>
           (sc_tableAlias source =? table) && (sc_columnName source =? column))
        sourceColumns
  | UnaryOp _ operand => resolvable sourceColumns operand
  | BinaryOp lhs _ rhs =>
      resolvable sourceColumns lhs && resolvable sourceColumns rhs
  | FunctionCall _ argList =>
      forallb (fun arg => resolvable sourceColumns arg) argList
  | InOp lhs _ => resolvable sourceColumns lhs
  | TypeCast lhs _ => resolvable sourceColumns lhs
  | ArraySubQuery _ => false
  | ExistsOp _ | Constant _ | Parameter_ _ => true
  end.

(** The same scope with possibly more columns nullable: column by column
    the same alias and name, and nullable wherever it was. *)
Definition atLeastAsNullable (before after : SourceColumn) : Prop :=
  sc_tableAlias after = sc_tableAlias before
  /\ sc_columnName after = sc_columnName before
  /\ (nullable (sc_nullability before) = true ->
      nullable (sc_nullability after) = true).

(** The outcome of an analysis is at least as nullable: the same error, or
    a result that is nullable wherever the first is. *)
Definition outcomeAtLeastAsNullable
  (before after : TaskEither string FieldNullability) : Prop :=
  match before, after with
  | Left e, Left e' => e = e'
  | Right n, Right n' => nullable n = true -> nullable n' = true
  | _, _ => False
  end.

(** The names of the output columns of one select-list item, read off the
    item and the scope: the visible columns for [*] and [t.*], the alias or
    the derived name for an expression. *)
Definition itemNames (sourceColumns : list SourceColumn)
  (item : SelectListItem) : list string :=
  match item with
  | AllFields =>
      List.map sc_columnName
        (List.filter (fun col => negb (sc_hidden col)) sourceColumns)
  | AllTableFields tableName =>
      List.map sc_columnName
        (List.filter (fun col => sc_tableAlias col =? tableName)
           (List.filter (fun col => negb (sc_hidden col)) sourceColumns))
  | SelectListExpression expression as_ =>
      [orString as_ (inferExpressionName expression)]
  end.

(** A probed column enriched from the inferred field at the same position,
    as in the [zipWith] of [applyColumnNullability] (lines 207-229). *)
Definition enrichedColumn (column : ColumnDescription)
  (inferred : VirtualField) : ColumnDescription :=
  mkColumnDescription (cd_name column)
    (match vf_nullability inferred with
     | Any _ => cd_type column
     | Array _ elemNullable =>
         ValueType_array (vt_oid (cd_type column)) elemNullable
     end)
    (nullable (vf_nullability inferred)).

(** The binding record of one value assigned to [column]: a record for a
    bare parameter [$k], with the index [k - 1] as the number subtraction
    gives it, and none for any other value. *)
Definition recordOfValue (column : Column) (value : option Expression)
  : option ParamNullability :=
  match value with
  | Some (Parameter_ k) =>
      Some (mkParamNullability (numberSub k 1) (column_nullable column))
  | _ => None
  end.

(** What the entry point does when any step of the pipeline fails with
    [parseErrorStr]: two messages on the console and the probed
    description as the result (infer.ts, lines 67-92). *)
Definition fallback (verbose : bool) (statement : StatementDescription)
  (parseErrorStr : string)
  : list string * TaskEither string StatementDescription :=
  ([parserWarning;
    if verbose then verboseWarning parseErrorStr else terseWarning],
   Right statement).

(* ------------------------------------------------------------------ *)
(** ** Row-count pass *)

(** C10: the row-count pass returns a description whose [sql], [columns] and
    [params] are those of its input; only [rowCount] may differ. *)
Theorem inferRowCount_frame :
  forall (statement : StatementDescription) (astNode : AST),
    sql (inferRowCount statement astNode) = sql statement
    /\ columns (inferRowCount statement astNode) = columns statement
    /\ params (inferRowCount statement astNode) = params statement.
Proof.
  intros statement astNode. unfold inferRowCount. cbn. repeat split.
Qed.

Lemma length_eqb_0_nil {A} (l : list A) :
  l <> [] -> negb (List.length l =? 0)%nat = true.
Proof. destruct l; [congruence | reflexivity]. Qed.

(** C7: the row count is decided by the shape of the top-level statement:
    SELECT is [zeroOrOne] when the count of its LIMIT is the constant 1 and
    [many] otherwise; INSERT is [one] for DEFAULT VALUES, and otherwise [one]
    with RETURNING and exactly one tuple, [many] with RETURNING and another
    number of tuples, [zero] without RETURNING; UPDATE and DELETE are [many]
    with RETURNING and [zero] without. *)
Theorem inferRowCount_by_shape :
  forall (statement : StatementDescription),
    (forall ctes body offset,
        rowCount
          (inferRowCount statement
             (Select ctes body (Some (mkLimit (Some (Constant "1")) offset))))
        = zeroOrOne)
    /\ (forall ctes body limit,
           (forall offset,
               limit <> Some (mkLimit (Some (Constant "1")) offset)) ->
           rowCount (inferRowCount statement (Select ctes body limit)) = many)
    /\ (forall table as_ cols returning,
           rowCount
             (inferRowCount statement
                (Insert table as_ cols DefaultValues returning)) = one)
    /\ (forall table as_ cols valuesList returning,
           returning <> [] ->
           rowCount
             (inferRowCount statement
                (Insert table as_ cols (ExprValues valuesList) returning))
           = if (List.length valuesList =? 1)%nat then one else many)
    /\ (forall table as_ cols valuesList,
           rowCount
             (inferRowCount statement
                (Insert table as_ cols (ExprValues valuesList) [])) = zero)
    /\ (forall ctes table as_ updates from_ where_ returning,
           rowCount
             (inferRowCount statement
                (Update ctes table as_ updates from_ where_ returning))
           = match returning with [] => zero | _ :: _ => many end)
    /\ (forall table as_ where_ returning,
           rowCount
             (inferRowCount statement (Delete table as_ where_ returning))
           = match returning with [] => zero | _ :: _ => many end).
Proof.
  intros statement. repeat apply conj; intros.
  - reflexivity.
  - cbn. destruct limit as [[[count|] offset]|]; try reflexivity.
    cbn. destruct count; try reflexivity.
    cbn. destruct (valueText =? "1") eqn:E; [|reflexivity].
    apply String.eqb_eq in E. subst. exfalso. now apply (H offset).
  - reflexivity.
  - cbn. now rewrite (length_eqb_0_nil H).
  - reflexivity.
  - destruct returning; reflexivity.
  - destruct returning; reflexivity.
Qed.

(** [INSERT INTO person(name, age) VALUES ($1, $2) RETURNING id] returns one
    row; with a second tuple it returns many. *)
Lemma inferRowCount_by_shape_witness :
  rowCount
    (inferRowCount (Sample.probed "insert" ["id"] 2)
       (Insert Sample.personRef None ["name"; "age"]
          (ExprValues [[Some (Parameter_ 1); Some (Parameter_ 2)]])
          [SelectListExpression (ColumnRef "id") None])) = one
  /\ rowCount
       (inferRowCount (Sample.probed "select" ["id"] 0)
          (Select [] (mkSelectBody [AllFields] None None)
             (Some (mkLimit (Some (Constant "10")) None)))) = many.
Proof.
  destruct (inferRowCount_by_shape (Sample.probed "insert" ["id"] 2))
    as (_ & _ & _ & Hins & _).
  destruct (inferRowCount_by_shape (Sample.probed "select" ["id"] 0))
    as (_ & Hsel & _).
  split.
  - rewrite Hins; [reflexivity | discriminate].
  - apply Hsel. intros offset. discriminate.
Defined.

(* ------------------------------------------------------------------ *)
(** ** WHERE-based NULL elimination *)

Section WhereScan.

Variable operatorNullSafety : string -> NullSafety.
Variable functionNullSafety : string -> NullSafety.

Lemma NullSafety_eqb_eq (a b : NullSafety) :
  NullSafety_eqb a b = true <-> a = b.
Proof. destruct a, b; cbn; split; congruence. Qed.

(** C6: the non-null expressions collected from a WHERE clause follow the
    recursion of section 4.2.1: [A AND B] unions the results of both
    conjuncts; [IS NOT NULL] and [NOTNULL] of [E] give [E]; a NULL-safe
    binary operator gives its two operands; a NULL-safe function call gives
    its arguments; every other node gives nothing, in particular [OR]
    (it is not NULL-safe, and it is never recursed into) and [NOT]. *)
Theorem getNonNullExpressionsFromWhere_recursion :
  operatorNullSafety "OR" <> safe ->
  getNonNullExpressionsFromWhere operatorNullSafety functionNullSafety None
  = []
  /\ (forall A B,
         getNonNullExpressionsFromWhere operatorNullSafety functionNullSafety
           (Some (BinaryOp A "AND" B))
         = getNonNullExpressionsFromWhere operatorNullSafety
             functionNullSafety (Some A)
           ++ getNonNullExpressionsFromWhere operatorNullSafety
                functionNullSafety (Some B))
  /\ (forall op E,
         op = "IS NOT NULL" \/ op = "NOTNULL" ->
         getNonNullExpressionsFromWhere operatorNullSafety functionNullSafety
           (Some (UnaryOp op E)) = [E])
  /\ (forall L op R,
         op <> "AND" -> operatorNullSafety op = safe ->
         getNonNullExpressionsFromWhere operatorNullSafety functionNullSafety
           (Some (BinaryOp L op R)) = [L; R])
  /\ (forall f args,
         functionNullSafety f = safe ->
         getNonNullExpressionsFromWhere operatorNullSafety functionNullSafety
           (Some (FunctionCall f args)) = args)
  /\ (forall L op R,
         op <> "AND" -> operatorNullSafety op <> safe ->
         getNonNullExpressionsFromWhere operatorNullSafety functionNullSafety
           (Some (BinaryOp L op R)) = [])
  /\ (forall op E,
         op <> "IS NOT NULL" -> op <> "NOTNULL" ->
         getNonNullExpressionsFromWhere operatorNullSafety functionNullSafety
           (Some (UnaryOp op E)) = [])
  /\ (forall f args,
         functionNullSafety f <> safe ->
         getNonNullExpressionsFromWhere operatorNullSafety functionNullSafety
           (Some (FunctionCall f args)) = [])
  /\ (forall e,
         match e with
         | BinaryOp _ _ _ | UnaryOp _ _ | FunctionCall _ _ => False
         | _ => True
         end ->
         getNonNullExpressionsFromWhere operatorNullSafety functionNullSafety
           (Some e) = [])
  /\ (forall L R,
         getNonNullExpressionsFromWhere operatorNullSafety functionNullSafety
           (Some (BinaryOp L "OR" R)) = [])
  /\ (forall E,
         getNonNullExpressionsFromWhere operatorNullSafety functionNullSafety
           (Some (UnaryOp "NOT" E)) = []).
Proof.
  intros Hor. repeat apply conj; intros.
  - reflexivity.
  - reflexivity.
  - cbn. destruct H; subst; reflexivity.
  - cbn. apply String.eqb_neq in H. rewrite H, H0. reflexivity.
  - cbn. rewrite H. reflexivity.
  - cbn. apply String.eqb_neq in H. rewrite H.
    destruct (NullSafety_eqb (operatorNullSafety op) safe) eqn:E;
      [|reflexivity].
    apply NullSafety_eqb_eq in E. contradiction.
  - cbn. apply String.eqb_neq in H, H0. rewrite H, H0. reflexivity.
  - cbn. destruct (NullSafety_eqb (functionNullSafety f) safe) eqn:E;
      [|reflexivity].
    apply NullSafety_eqb_eq in E. contradiction.
  - destruct e; cbn in *; try reflexivity; contradiction.
  - cbn. destruct (NullSafety_eqb (operatorNullSafety "OR") safe) eqn:E;
      [|reflexivity].
    apply NullSafety_eqb_eq in E. contradiction.
  - reflexivity.
Qed.

End WhereScan.

(** [WHERE age IS NOT NULL AND (name = $1 OR id < 3) AND id + 1 < age]
    under the sample tables: the OR contributes nothing. *)
Lemma getNonNullExpressionsFromWhere_recursion_witness :
  Sample.operatorNullSafety "OR" <> safe
  /\ getNonNullExpressionsFromWhere Sample.operatorNullSafety
       Sample.functionNullSafety
       (Some
          (BinaryOp
             (BinaryOp (UnaryOp "IS NOT NULL" (ColumnRef "age")) "AND"
                (BinaryOp
                   (BinaryOp (ColumnRef "name") "=" (Parameter_ 1)) "OR"
                   (BinaryOp (ColumnRef "id") "<" (Constant "3"))))
             "AND"
             (BinaryOp (BinaryOp (ColumnRef "id") "+" (Constant "1")) "<"
                (ColumnRef "age"))))
     = [ColumnRef "age";
        BinaryOp (ColumnRef "id") "+" (Constant "1");
        ColumnRef "age"].
Proof.
  assert (Hor : Sample.operatorNullSafety "OR" <> safe) by discriminate.
  split; [exact Hor|].
  destruct (@getNonNullExpressionsFromWhere_recursion
              Sample.operatorNullSafety Sample.functionNullSafety Hor)
    as (_ & Hand & Hnotnull & Hsafe & _ & _ & _ & _ & _ & Hor' & _).
  rewrite Hand, Hand, Hor', Hnotnull by (now left).
  rewrite Hsafe; [reflexivity | discriminate | reflexivity].
Defined.

(* ------------------------------------------------------------------ *)
(** ** Source-column refinement from the WHERE clause *)

(** What one non-null column reference does, as the code is written: a
    qualified reference with a non-empty table name compares the table alias
    only, every other reference compares the column name only. *)
Lemma isColumnNonNullable_qualified (t c : string) (sc : SourceColumn) :
  t <> "" ->
  isColumnNonNullable [mkNonNullableColumn (Some t) c] sc
  = (sc_tableAlias sc =? t).
Proof.
  intros Ht. cbn. apply String.eqb_neq in Ht. rewrite Ht. cbn.
  apply orb_false_r.
Qed.

Lemma isColumnNonNullable_unqualified (c : string) (sc : SourceColumn) :
  isColumnNonNullable [mkNonNullableColumn None c] sc
  = (sc_columnName sc =? c).
Proof. cbn. apply orb_false_r. Qed.

(** C2, as the code behaves: one unqualified [ColumnRef] forces exactly the
    source columns of that name, whatever their alias, as specified; one
    [TableColumnRef] (with a non-empty table name) forces exactly the source
    columns of that table alias, whatever their name, where the
    specification asks for alias and name to match. *)
Theorem applyExpressionNonNullability_single_ref :
  forall (sourceColumns : list SourceColumn),
    (forall column,
        applyExpressionNonNullability [ColumnRef column] sourceColumns
        = List.map
            (fun sc =>
               if sc_columnName sc =? column then forcedNonNullable sc else sc)
            sourceColumns)
    /\ (forall table column,
           table <> "" ->
           applyExpressionNonNullability [TableColumnRef table column]
             sourceColumns
           = List.map
               (fun sc =>
                  if sc_tableAlias sc =? table
                  then forcedNonNullable sc
                  else sc)
               sourceColumns).
Proof.
  intros sourceColumns. split.
  - intros column. unfold applyExpressionNonNullability. cbn [List.map
      nonNullableColumnOf filterMap_identity].
    apply List.map_ext. intros sc.
    rewrite isColumnNonNullable_unqualified.
    destruct (sc_columnName sc =? column); [reflexivity | now destruct sc].
  - intros table column Htable. unfold applyExpressionNonNullability.
    cbn [List.map nonNullableColumnOf filterMap_identity].
    apply List.map_ext. intros sc.
    rewrite (isColumnNonNullable_qualified column sc Htable).
    destruct (sc_tableAlias sc =? table); [reflexivity | now destruct sc].
Qed.

(** The failing input of C2: with [p.name] in the non-null list (as from
    [WHERE p.name IS NOT NULL]) the nullable [p.age] is forced to
    non-nullable as well; [q.age], of another alias, is left as it is. *)
Lemma applyExpressionNonNullability_single_ref_witness :
  applyExpressionNonNullability
    [TableColumnRef "p" "name"]
    [mkSourceColumn "p" "name" (Any false) false;
     mkSourceColumn "p" "age" (Any true) false;
     mkSourceColumn "q" "age" (Any true) false]
  = [mkSourceColumn "p" "name" (Any false) false;
     mkSourceColumn "p" "age" (Any false) false;
     mkSourceColumn "q" "age" (Any true) false].
Proof.
  destruct (applyExpressionNonNullability_single_ref
              [mkSourceColumn "p" "name" (Any false) false;
               mkSourceColumn "p" "age" (Any true) false;
               mkSourceColumn "q" "age" (Any true) false])
    as [_ Hqualified].
  rewrite Hqualified; [reflexivity | discriminate].
Defined.

(* ------------------------------------------------------------------ *)
(** ** Column nullability pass: the alignment check *)


(* ------------------------------------------------------------------ *)
(** ** Select list: [*] and [table.*] over an empty scope *)

(** The leftmost error of a sequence: an element that fails makes the
    sequence fail, with its own error when everything before it succeeds. *)
Lemma sequenceAE_Left_at {E A B} (f : A -> Either E B) (pre : list A)
  (x : A) (post : list A) (e : E) :
  f x = Left e ->
  (exists e', sequenceAE (List.map f (pre ++ x :: post)) = Left e')
  /\ ((forall a, In a pre -> exists b, f a = Right b) ->
      sequenceAE (List.map f (pre ++ x :: post)) = Left e).
Proof.
  intros Hx. induction pre as [|a pre [[e' He'] IH]]; cbn.
  - rewrite Hx. split; [eauto | reflexivity].
  - destruct (f a) as [ea|b] eqn:Ea.
    + split; [eauto|]. intros Hpre.
      destruct (Hpre a (or_introl eq_refl)) as [b Hb]. congruence.
    + rewrite He'. cbn. split; [eauto|]. intros Hpre.
      rewrite IH in He' by (intros a' Ha'; apply Hpre; now right).
      congruence.
Qed.

Section Star.

Variable client : SchemaClient.
Variable operatorNullSafety : string -> NullSafety.
Variable functionNullSafety : string -> NullSafety.
Variable Expression_equals : Expression -> Expression -> bool.

Lemma allFields_no_columns (outsideCTEs : list VirtualTable)
  (sourceColumns : list SourceColumn) (nonNullExpressions : list Expression) :
  List.filter (fun col => negb (sc_hidden col)) sourceColumns = [] ->
  inferSelectListItemOutput client operatorNullSafety functionNullSafety
    Expression_equals outsideCTEs sourceColumns nonNullExpressions AllFields
  = Left "No columns".
Proof.
  intros Hnone.
  unfold inferSelectListItemOutput, inferSelectListItemOutput_open,
    findNonHiddenSourceColumns, EitherM.fromPredicate.
  rewrite Hnone. reflexivity.
Qed.

Lemma allTableFields_no_columns (outsideCTEs : list VirtualTable)
  (sourceColumns : list SourceColumn) (nonNullExpressions : list Expression)
  (tableName : string) :
  List.filter
    (fun col => negb (sc_hidden col) && (sc_tableAlias col =? tableName))
    sourceColumns = [] ->
  inferSelectListItemOutput client operatorNullSafety functionNullSafety
    Expression_equals outsideCTEs sourceColumns nonNullExpressions
    (AllTableFields tableName)
  = Left
      (match List.filter (fun col => negb (sc_hidden col)) sourceColumns with
       | [] => "No columns"
       | _ :: _ => ("No visible columns for table " ++ tableName)%string
       end).
Proof.
  intros Hnone.
  unfold inferSelectListItemOutput, inferSelectListItemOutput_open,
    findNonHiddenSourceTableColumns, findNonHiddenSourceColumns,
    EitherM.fromPredicate.
  assert (Hfilter :
            List.filter (fun col => sc_tableAlias col =? tableName)
              (List.filter (fun col => negb (sc_hidden col)) sourceColumns)
            = []).
  { rewrite <- Hnone. clear Hnone.
    induction sourceColumns as [|col cols IH]; [reflexivity|].
    cbn. destruct (sc_hidden col); cbn; [exact IH|].
    destruct (sc_tableAlias col =? tableName); cbn; now rewrite IH. }
  destruct (List.filter (fun col => negb (sc_hidden col)) sourceColumns)
    as [|col cols] eqn:Evisible; [reflexivity|].
  cbn [List.length Nat.ltb Nat.leb EitherM.map EitherM.chain].
  rewrite Hfilter. reflexivity.
Qed.

(** A select list with an item that fails: the inference of the list
    fails, with the error of that item when the items before it succeed. *)
Lemma inferSelectListOutput_Left_at (outsideCTEs : list VirtualTable)
  (sourceColumns : list SourceColumn) (where_ : option Expression)
  (pre : list SelectListItem) (item : SelectListItem)
  (post : list SelectListItem) (e : string) :
  inferSelectListItemOutput client operatorNullSafety functionNullSafety
    Expression_equals outsideCTEs sourceColumns
    (getNonNullExpressionsFromWhere operatorNullSafety functionNullSafety
       where_)
    item
  = Left e ->
  (exists e',
      inferSelectListOutput client operatorNullSafety functionNullSafety
        Expression_equals outsideCTEs sourceColumns where_
        (pre ++ item :: post)
      = Left e')
  /\ ((forall before,
          In before pre ->
          exists fields,
            inferSelectListItemOutput client operatorNullSafety
              functionNullSafety Expression_equals outsideCTEs sourceColumns
              (getNonNullExpressionsFromWhere operatorNullSafety
                 functionNullSafety where_)
              before
            = Right fields) ->
      inferSelectListOutput client operatorNullSafety functionNullSafety
        Expression_equals outsideCTEs sourceColumns where_
        (pre ++ item :: post)
      = Left e).
Proof.
  intros Hitem.
  unfold inferSelectListOutput, inferSelectListOutput_open, sequenceATE.
  cbn [EitherM.chain].
  destruct (sequenceAE_Left_at
              (fun item =>
                 inferSelectListItemOutput client operatorNullSafety
                   functionNullSafety Expression_equals outsideCTEs
                   sourceColumns
                   (getNonNullExpressionsFromWhere operatorNullSafety
                      functionNullSafety where_)
                   item)
              pre item post Hitem) as [[e' He'] Hfirst].
  split.
  - exists e'.
    exact (f_equal (EitherM.map (@List.concat VirtualField)) He').
  - intros Hpre.
    exact (f_equal (EitherM.map (@List.concat VirtualField)) (Hfirst Hpre)).
Qed.

(** C9, amended: [*] over a scope without visible source columns is the
    error ["No columns"], not an empty list, and [t.*] is an error when no
    visible column has the alias [t] (["No columns"] when nothing at all is
    visible, ["No visible columns for table t"] otherwise).  A select list
    that contains such an item therefore never yields output columns: its
    inference fails, with the error of its first failing item, which is the
    error above when the items in front of the star are inferred
    successfully (in particular when the star comes first), and the error
    of an earlier item when one fails.  So a SELECT without FROM whose list
    contains [*] fails, with ["No columns"] when its CTEs resolve and the
    items in front of the [*] succeed. *)
Theorem star_over_empty_scope :
  forall (outsideCTEs : list VirtualTable)
         (sourceColumns : list SourceColumn)
         (nonNullExpressions : list Expression),
    (List.filter (fun col => negb (sc_hidden col)) sourceColumns = [] ->
     inferSelectListItemOutput client operatorNullSafety functionNullSafety
       Expression_equals outsideCTEs sourceColumns nonNullExpressions
       AllFields
     = Left "No columns")
    /\ (forall tableName,
           List.filter
             (fun col => negb (sc_hidden col)
                         && (sc_tableAlias col =? tableName))
             sourceColumns = [] ->
           inferSelectListItemOutput client operatorNullSafety
             functionNullSafety Expression_equals outsideCTEs sourceColumns
             nonNullExpressions
             (AllTableFields tableName)
           = Left
               (match
                   List.filter (fun col => negb (sc_hidden col))
                     sourceColumns
                 with
                 | [] => "No columns"
                 | _ :: _ =>
                     ("No visible columns for table " ++ tableName)%string
                 end))
    /\ (forall rest where_ limit,
           getOutputColumns client operatorNullSafety functionNullSafety
             Expression_equals outsideCTEs
             (Select [] (mkSelectBody (AllFields :: rest) None where_) limit)
           = Left "No columns")
    /\ (forall where_ pre post,
           List.filter (fun col => negb (sc_hidden col)) sourceColumns = [] ->
           (exists e,
               inferSelectListOutput client operatorNullSafety
                 functionNullSafety Expression_equals outsideCTEs
                 sourceColumns where_ (pre ++ AllFields :: post)
               = Left e)
           /\ ((forall before,
                   In before pre ->
                   exists fields,
                     inferSelectListItemOutput client operatorNullSafety
                       functionNullSafety Expression_equals outsideCTEs
                       sourceColumns
                       (getNonNullExpressionsFromWhere operatorNullSafety
                          functionNullSafety where_)
                       before
                     = Right fields) ->
               inferSelectListOutput client operatorNullSafety
                 functionNullSafety Expression_equals outsideCTEs
                 sourceColumns where_ (pre ++ AllFields :: post)
               = Left "No columns"))
    /\ (forall tableName where_ pre post,
           List.filter
             (fun col => negb (sc_hidden col)
                         && (sc_tableAlias col =? tableName))
             sourceColumns = [] ->
           (exists e,
               inferSelectListOutput client operatorNullSafety
                 functionNullSafety Expression_equals outsideCTEs
                 sourceColumns where_
                 (pre ++ AllTableFields tableName :: post)
               = Left e)
           /\ ((forall before,
                   In before pre ->
                   exists fields,
                     inferSelectListItemOutput client operatorNullSafety
                       functionNullSafety Expression_equals outsideCTEs
                       sourceColumns
                       (getNonNullExpressionsFromWhere operatorNullSafety
                          functionNullSafety where_)
                       before
                     = Right fields) ->
               inferSelectListOutput client operatorNullSafety
                 functionNullSafety Expression_equals outsideCTEs
                 sourceColumns where_
                 (pre ++ AllTableFields tableName :: post)
               = Left
                   (match
                       List.filter (fun col => negb (sc_hidden col))
                         sourceColumns
                     with
                     | [] => "No columns"
                     | _ :: _ =>
                         ("No visible columns for table " ++ tableName)%string
                     end)))
    /\ (forall ctes where_ limit pre post,
           (exists e,
               getOutputColumns client operatorNullSafety functionNullSafety
                 Expression_equals outsideCTEs
                 (Select ctes
                    (mkSelectBody (pre ++ AllFields :: post) None where_)
                    limit)
               = Left e)
           /\ (forall tables,
                  getVirtualTablesForWithQueries client operatorNullSafety
                    functionNullSafety Expression_equals ctes
                  = Right tables ->
                  (forall before,
                      In before pre ->
                      exists fields,
                        inferSelectListItemOutput client operatorNullSafety
                          functionNullSafety Expression_equals
                          (outsideCTEs ++ tables) []
                          (getNonNullExpressionsFromWhere operatorNullSafety
                             functionNullSafety where_)
                          before
                        = Right fields) ->
                  getOutputColumns client operatorNullSafety
                    functionNullSafety Expression_equals outsideCTEs
                    (Select ctes
                       (mkSelectBody (pre ++ AllFields :: post) None where_)
                       limit)
                  = Left "No columns"))
    /\ (forall where_ pre item post e,
           inferSelectListItemOutput client operatorNullSafety
             functionNullSafety Expression_equals outsideCTEs sourceColumns
             (getNonNullExpressionsFromWhere operatorNullSafety
                functionNullSafety where_)
             item
           = Left e ->
           (forall before,
               In before pre ->
               exists fields,
                 inferSelectListItemOutput client operatorNullSafety
                   functionNullSafety Expression_equals outsideCTEs
                   sourceColumns
                   (getNonNullExpressionsFromWhere operatorNullSafety
                      functionNullSafety where_)
                   before
                 = Right fields) ->
           inferSelectListOutput client operatorNullSafety functionNullSafety
             Expression_equals outsideCTEs sourceColumns where_
             (pre ++ item :: post)
           = Left e).
Proof.
  intros outsideCTEs sourceColumns nonNullExpressions.
  split; [|split; [|split; [|split; [|split; [|split]]]]].
  - apply allFields_no_columns.
  - intros tableName. apply allTableFields_no_columns.
  - intros rest where_ limit. reflexivity.
  - intros where_ pre post Hnone.
    apply inferSelectListOutput_Left_at.
    now apply allFields_no_columns.
  - intros tableName where_ pre post Hnone.
    apply inferSelectListOutput_Left_at.
    now apply allTableFields_no_columns.
  - intros ctes where_ limit pre post.
    cbn [getOutputColumns body_from body_where body_selectList
           getSourceColumnsForTableExpr_open].
    unfold combineVirtualTables, getVirtualTablesForWithQueries.
    destruct (getVirtualTablesForWithQueries_open _ ctes) as [e|tables];
      cbn [EitherM.map EitherM.chain].
    + split; [eauto | discriminate].
    + destruct (inferSelectListOutput_Left_at (outsideCTEs ++ tables) []
                  where_ pre AllFields post
                  (allFields_no_columns (outsideCTEs ++ tables) [] _ eq_refl))
        as [Herror Hfirst].
      split; [exact Herror|].
      intros tables' Htables Hpre. injection Htables as <-.
      now apply Hfirst.
  - intros where_ pre item post e Hitem.
    now apply inferSelectListOutput_Left_at.
Qed.

End Star.

(** [SELECT *] without FROM, [q.*] over [FROM person AS p], and
    [SELECT 1, *] without FROM. *)
Lemma star_over_empty_scope_witness :
  inferSelectListItemOutput Sample.client Sample.operatorNullSafety
    Sample.functionNullSafety Sample.Expression_equals [] [] [] AllFields
  = Left "No columns"
  /\ inferSelectListItemOutput Sample.client Sample.operatorNullSafety
       Sample.functionNullSafety Sample.Expression_equals []
       [mkSourceColumn "p" "id" (Any false) false] []
       (AllTableFields "q")
     = Left "No visible columns for table q"
  /\ getOutputColumns Sample.client Sample.operatorNullSafety
       Sample.functionNullSafety Sample.Expression_equals []
       (Select []
          (mkSelectBody
             ([SelectListExpression (Constant "1") None] ++ AllFields :: [])
             None None)
          None)
     = Left "No columns".
Proof.
  repeat apply conj.
  - apply (star_over_empty_scope Sample.client Sample.operatorNullSafety
             Sample.functionNullSafety Sample.Expression_equals [] [] []).
    reflexivity.
  - apply (star_over_empty_scope Sample.client Sample.operatorNullSafety
             Sample.functionNullSafety Sample.Expression_equals []
             [mkSourceColumn "p" "id" (Any false) false] []).
    reflexivity.
  - destruct (star_over_empty_scope Sample.client Sample.operatorNullSafety
                Sample.functionNullSafety Sample.Expression_equals [] [] [])
      as (_ & _ & _ & _ & _ & Hselect & _).
    destruct (Hselect [] None None
                [SelectListExpression (Constant "1") None] [])
      as [_ Hfirst].
    apply (Hfirst [] eq_refl).
    intros before [<- | []]. eexists. reflexivity.
Defined.

(** C9, as stated, fails: [SELECT x, *] without FROM has a [*] in its
    select list and no visible source column, and its inference returns
    the error of [x], not ["No columns"]. *)
Lemma star_over_empty_scope_counterexample :
  getOutputColumns Sample.client Sample.operatorNullSafety
    Sample.functionNullSafety Sample.Expression_equals []
    (Select []
       (mkSelectBody [SelectListExpression (ColumnRef "x") None; AllFields]
          None None)
       None)
  = Left "Unknown column x"
  /\ getOutputColumns Sample.client Sample.operatorNullSafety
       Sample.functionNullSafety Sample.Expression_equals []
       (Select []
          (mkSelectBody [SelectListExpression (ColumnRef "x") None; AllFields]
             None None)
          None)
     <> Left "No columns".
Proof. split; [reflexivity | discriminate]. Qed.

(* ------------------------------------------------------------------ *)
(** ** Parameter nullability pass *)

Lemma existsb_filter {A} (p q : A -> bool) (l : list A) :
  existsb p (List.filter q l) = existsb (fun x => q x && p x) l.
Proof.
  induction l as [|x l IH]; [reflexivity|].
  cbn. destruct (q x); cbn; now rewrite IH.
Qed.

Lemma nth_error_zipWith_seq {A B C} (f : A -> B -> C) (g : nat -> B)
  (l : list A) :
  forall start i,
    nth_error (zipWith f l (List.map g (List.seq start (List.length l)))) i
    = option_map (fun x => f x (g (start + i))) (nth_error l i).
Proof.
  unfold zipWith.
  induction l as [|x l IH]; intros start i.
  - destruct i; reflexivity.
  - destruct i as [|i]; cbn.
    + now rewrite Nat.add_0_r.
    + rewrite IH. now rewrite Nat.add_succ_r.
Qed.

Lemma length_zipWith_seq {A B C} (f : A -> B -> C) (g : nat -> B)
  (l : list A) :
  forall start,
    List.length (zipWith f l (List.map g (List.seq start (List.length l))))
    = List.length l.
Proof.
  unfold zipWith.
  induction l as [|x l IH]; intros start; cbn; [reflexivity|].
  now rewrite IH.
Qed.

Lemma existsb_no_record (records : list ParamNullability) (i : nat) :
  (forall r, In r records -> pn_index r <> Z.of_nat i) ->
  existsb (fun r => (pn_index r =? Z.of_nat i)%Z && pn_nullable r) records
  = false.
Proof.
  intros Hnone. induction records as [|r records IH]; [reflexivity|].
  cbn. rewrite IH by (intros r' Hr'; apply Hnone; now right).
  destruct (Z.eqb_spec (pn_index r) (Z.of_nat i)) as [E|E]; [|reflexivity].
  exfalso. apply (Hnone r); [now left | exact E].
Qed.

(** [applyParamNullability] never fails, keeps everything but the nullability
    of the parameters, and recomputes the nullability of *every* parameter
    from the records alone. *)
Lemma applyParamNullability_spec (stmt : StatementDescription)
  (records : list ParamNullability) :
  exists result,
    applyParamNullability stmt records = Right result
    /\ sql result = sql stmt
    /\ columns result = columns stmt
    /\ rowCount result = rowCount stmt
    /\ List.length (params result) = List.length (params stmt)
    /\ forall i param,
        nth_error (params stmt) i = Some param ->
        nth_error (params result) i
        = Some
            (mkParamDescription (pd_type param)
               (existsb
                  (fun r => (pn_index r =? Z.of_nat i)%Z && pn_nullable r)
                  records)).
Proof.
  eexists. split; [reflexivity|]. cbn. repeat apply conj; try reflexivity.
  - apply length_zipWith_seq.
  - intros i param Hnth.
    rewrite (nth_error_zipWith_seq
               (fun param nullable =>
                  mkParamDescription (pd_type param) nullable)
               (fun index =>
                  existsb (fun record => pn_nullable record)
                    (List.filter
                       (fun record => (pn_index record =? Z.of_nat index)%Z)
                       records))).
    rewrite Hnth. cbn. now rewrite existsb_filter.
Qed.

(** C1, as stated, fails: for [UPDATE person SET name = $1 WHERE id = $2]
    with both parameters probed nullable, the only binding record is the one
    of [$1]; the pass nevertheless returns [$2] (index 1) non-nullable, so the
    merge is not the specified one. *)
Lemma inferParamNullability_unbound_counterexample :
  let stmt := Sample.probed "UPDATE person SET name = $1 WHERE id = $2" [] 2 in
  let tree :=
    Update [] Sample.personRef None
      [mkUpdateAssignment "name" (Some (Parameter_ 1))] None
      (Some (BinaryOp (ColumnRef "id") "=" (Parameter_ 2))) [] in
  let result :=
    mkStatementDescription (sql stmt) []
      [mkParamDescription (ValueType_any 23) false;
       mkParamDescription (ValueType_any 23) false] many in
  getParamNullability Sample.client tree
  = Right (Some [mkParamNullability 0 false])
  /\ inferParamNullability Sample.client stmt tree = Right result
  /\ ~ mergesAsSpecified stmt [mkParamNullability 0 false] result.
Proof.
  cbv zeta. repeat apply conj; try reflexivity.
  intros Hmerge.
  destruct (Hmerge 1%nat (mkParamDescription (ValueType_any 23) true) eq_refl)
    as (param' & Hnth & _ & Hkeep).
  cbn in Hnth. injection Hnth as <-.
  cbn in Hkeep. discriminate Hkeep.
  intros r [<- | []]. discriminate.
Qed.

(** C1, amended: when the statement is an INSERT or UPDATE (the pass has a
    list of binding records), every parameter is nullable in the result iff
    some record for its index says so; a parameter without a record therefore
    becomes non-nullable.  For SELECT and DELETE (no list) the description is
    returned unchanged. *)
Theorem inferParamNullability_merge :
  forall (client : SchemaClient) (stmt : StatementDescription) (tree : AST),
    (forall records,
        getParamNullability client tree = Right (Some records) ->
        exists result,
          inferParamNullability client stmt tree = Right result
          /\ sql result = sql stmt
          /\ columns result = columns stmt
          /\ rowCount result = rowCount stmt
          /\ List.length (params result) = List.length (params stmt)
          /\ forall i param,
              nth_error (params stmt) i = Some param ->
              exists param',
                nth_error (params result) i = Some param'
                /\ pd_type param' = pd_type param
                /\ pd_nullable param'
                   = existsb
                       (fun r =>
                          (pn_index r =? Z.of_nat i)%Z && pn_nullable r)
                       records
                /\ ((forall r, In r records -> pn_index r <> Z.of_nat i) ->
                    pd_nullable param' = false))
    /\ (getParamNullability client tree = Right None ->
        inferParamNullability client stmt tree = Right stmt)
    /\ (match tree with
        | Select _ _ _ | Delete _ _ _ _ =>
            getParamNullability client tree = Right None
        | Insert _ _ _ _ _ | Update _ _ _ _ _ _ _ =>
            getParamNullability client tree <> Right None
        end).
Proof.
  intros client stmt tree. repeat apply conj.
  - intros records Hrecords. unfold inferParamNullability.
    rewrite Hrecords. cbn [EitherM.chain].
    destruct (applyParamNullability_spec stmt records)
      as (result & Happly & Hsql & Hcols & Hrows & Hlen & Hnth).
    exists result. repeat apply conj; try assumption.
    intros i param Hparam. eexists. split; [exact (Hnth i param Hparam)|].
    cbn. repeat apply conj; try reflexivity.
    apply existsb_no_record.
  - intros Hnone. unfold inferParamNullability. now rewrite Hnone.
  - destruct tree; cbn; try reflexivity.
    + destruct (findInsertColumns client table columns_); cbn; discriminate.
    + destruct (findParamNullabilityFromUpdates client table updates);
        cbn; discriminate.
Qed.

(** [UPDATE person SET name = $1 WHERE id = $2]: [$2] (index 1) has no
    binding record and comes out non-nullable. *)
Lemma inferParamNullability_merge_witness :
  exists result param',
    inferParamNullability Sample.client
      (Sample.probed "UPDATE person SET name = $1 WHERE id = $2" [] 2)
      (Update [] Sample.personRef None
         [mkUpdateAssignment "name" (Some (Parameter_ 1))] None
         (Some (BinaryOp (ColumnRef "id") "=" (Parameter_ 2))) [])
    = Right result
    /\ nth_error (params result) 1 = Some param'
    /\ pd_nullable param' = false.
Proof.
  destruct (inferParamNullability_merge Sample.client
              (Sample.probed "UPDATE person SET name = $1 WHERE id = $2" [] 2)
              (Update [] Sample.personRef None
                 [mkUpdateAssignment "name" (Some (Parameter_ 1))] None
                 (Some (BinaryOp (ColumnRef "id") "=" (Parameter_ 2))) []))
    as (Hsome & _ & _).
  destruct (Hsome [mkParamNullability 0 false] eq_refl)
    as (result & Hres & _ & _ & _ & _ & Hnth).
  destruct (Hnth 1%nat (mkParamDescription (ValueType_any 23) true) eq_refl)
    as (param' & Hparam' & _ & _ & Hfalse).
  exists result, param'. repeat apply conj; [exact Hres | exact Hparam' |].
  apply Hfalse. intros r [<- | []]. discriminate.
Defined.

(* ------------------------------------------------------------------ *)
(** ** FROM resolution: join nullability *)

Lemma EitherM_map_id {E A} (m : Either E A) :
  EitherM.map (fun a => a) m = m.
Proof. destruct m; reflexivity. Qed.

Lemma setSourceColumnsAsNullable_becameNullable (cols : list SourceColumn) :
  Forall2 becameNullable cols (setSourceColumnsAsNullable cols).
Proof.
  induction cols as [|col cols IH]; cbn; constructor; [|exact IH].
  unfold becameNullable. cbn.
  destruct (sc_nullability col); cbn; repeat apply conj; reflexivity.
Qed.

Section Joins.

Variable client : SchemaClient.
Variable operatorNullSafety : string -> NullSafety.
Variable functionNullSafety : string -> NullSafety.
Variable Expression_equals : Expression -> Expression -> bool.

(** The [setNullable] flag only post-processes the columns found without
    it (the [TaskEither.map] of lines 916-918). *)
Lemma getSourceColumnsForTableExprRec_setNullable
  (ctes : list VirtualTable) (tableExpr : TableExpression) :
  getSourceColumnsForTableExprRec client operatorNullSafety
    functionNullSafety Expression_equals ctes tableExpr true
  = EitherM.map setSourceColumnsAsNullable
      (getSourceColumnsForTableExprRec client operatorNullSafety
         functionNullSafety Expression_equals ctes tableExpr false).
Proof.
  destruct tableExpr; cbn [getSourceColumnsForTableExprRec];
    rewrite EitherM_map_id; reflexivity.
Qed.

(** C5: a qualified join yields the columns of its left side followed by
    those of its right side, where a side that becomes nullable according to
    the join table (left for RIGHT and FULL, right for LEFT and FULL) has the
    [nullable] flag of each column forced to true with the element
    nullability untouched, and the other side is unchanged; INNER and CROSS
    joins change neither side.  When the join is itself on the nullable side
    of an enclosing join, the enclosing join forces all of its columns in
    the same way. *)
Theorem getSourceColumnsForTableExpr_join :
  forall (ctes : list VirtualTable) (left_ right_ : TableExpression)
         (L R : list SourceColumn),
    getSourceColumnsForTableExpr client operatorNullSafety functionNullSafety
      Expression_equals ctes (Some left_) false = Right L ->
    getSourceColumnsForTableExpr client operatorNullSafety functionNullSafety
      Expression_equals ctes (Some right_) false = Right R ->
    (forall joinType on_,
        exists L' R',
          getSourceColumnsForTableExpr client operatorNullSafety
            functionNullSafety Expression_equals ctes
            (Some (QualifiedJoin left_ joinType right_ on_)) false
          = Right (L' ++ R')
          /\ joinSide (leftBecomesNullable joinType) L L'
          /\ joinSide (rightBecomesNullable joinType) R R'
          /\ getSourceColumnsForTableExpr client operatorNullSafety
               functionNullSafety Expression_equals ctes
               (Some (QualifiedJoin left_ joinType right_ on_)) true
             = Right (setSourceColumnsAsNullable (L' ++ R')))
    /\ getSourceColumnsForTableExpr client operatorNullSafety
         functionNullSafety Expression_equals ctes
         (Some (CrossJoin left_ right_)) false
       = Right (L ++ R).
Proof.
  unfold getSourceColumnsForTableExpr, getSourceColumnsForTableExpr_open.
  intros ctes left_ right_ L R HL HR. split.
  - intros joinType on_.
    exists (if leftBecomesNullable joinType
            then setSourceColumnsAsNullable L else L).
    exists (if rightBecomesNullable joinType
            then setSourceColumnsAsNullable R else R).
    assert (Hjoin :
              getSourceColumnsForTableExprRec client operatorNullSafety
                functionNullSafety Expression_equals ctes
                (QualifiedJoin left_ joinType right_ on_) false
              = Right
                  ((if leftBecomesNullable joinType
                    then setSourceColumnsAsNullable L else L)
                   ++ (if rightBecomesNullable joinType
                       then setSourceColumnsAsNullable R else R))).
    { cbn [getSourceColumnsForTableExprRec]. rewrite EitherM_map_id.
      destruct joinType; cbn [leftBecomesNullable rightBecomesNullable];
        rewrite ?getSourceColumnsForTableExprRec_setNullable, HL, HR;
        cbn; now rewrite app_nil_r. }
    repeat apply conj.
    + exact Hjoin.
    + unfold joinSide. destruct (leftBecomesNullable joinType);
        [apply setSourceColumnsAsNullable_becameNullable | reflexivity].
    + unfold joinSide. destruct (rightBecomesNullable joinType);
        [apply setSourceColumnsAsNullable_becameNullable | reflexivity].
    + rewrite getSourceColumnsForTableExprRec_setNullable, Hjoin.
      reflexivity.
  - cbn [getSourceColumnsForTableExprRec]. rewrite EitherM_map_id, HL, HR.
    cbn. now rewrite app_nil_r.
Qed.

End Joins.

(** [person p LEFT JOIN person q ON p.id = q.id]: the columns of [p] keep
    the nullability of the schema, those of [q] all become nullable. *)
Lemma getSourceColumnsForTableExpr_join_witness :
  exists L' R',
    getSourceColumnsForTableExpr Sample.client Sample.operatorNullSafety
      Sample.functionNullSafety Sample.Expression_equals []
      (Some
         (QualifiedJoin (TableExpr Sample.personRef (Some "p")) LEFT
            (TableExpr Sample.personRef (Some "q"))
            (BinaryOp (TableColumnRef "p" "id") "="
               (TableColumnRef "q" "id"))))
      false
    = Right (L' ++ R')
    /\ L' = [mkSourceColumn "p" "id" (Any false) false;
             mkSourceColumn "p" "name" (Any false) false;
             mkSourceColumn "p" "age" (Any true) false]
    /\ Forall2 becameNullable
         [mkSourceColumn "q" "id" (Any false) false;
          mkSourceColumn "q" "name" (Any false) false;
          mkSourceColumn "q" "age" (Any true) false]
         R'.
Proof.
  destruct (getSourceColumnsForTableExpr_join Sample.client
              Sample.operatorNullSafety Sample.functionNullSafety
              Sample.Expression_equals []
              (TableExpr Sample.personRef (Some "p"))
              (TableExpr Sample.personRef (Some "q"))
              eq_refl eq_refl) as [Hjoin _].
  destruct (Hjoin LEFT
              (BinaryOp (TableColumnRef "p" "id") "="
                 (TableColumnRef "q" "id")))
    as (L' & R' & Hres & HL & HR & _).
  exists L', R'. repeat apply conj; [exact Hres | exact HL | exact HR].
Defined.

(* ------------------------------------------------------------------ *)
(** ** WITH clauses *)

Section WithLoop.

(** The loop is studied for an arbitrary inference function [infer]; it is
    instantiated with [getOutputColumns] below. *)
Variable infer :
  list VirtualTable -> AST -> TaskEither string (list VirtualField).

Lemma getVirtualTablesForWithQueries_loop_app
  (pre post : list WithQuery) :
  forall acc,
    getVirtualTablesForWithQueries_loop infer acc (pre ++ post)
    = (tables <- getVirtualTablesForWithQueries_loop infer acc pre ;;
       getVirtualTablesForWithQueries_loop infer tables post).
Proof.
  induction pre as [|withQuery pre IH]; intros acc; [reflexivity|].
  cbn. destruct (infer acc (wq_query withQuery)); cbn; [reflexivity|].
  apply IH.
Qed.

Lemma getVirtualTablesForWithQueries_loop_Right
  (withQueries : list WithQuery) :
  forall acc tables,
    getVirtualTablesForWithQueries_loop infer acc withQueries = Right tables ->
    exists new,
      tables = acc ++ new
      /\ List.length new = List.length withQueries
      /\ forall i withQuery,
          nth_error withQueries i = Some withQuery ->
          exists columns,
            infer (acc ++ firstn i new) (wq_query withQuery) = Right columns
            /\ nth_error new i
               = Some (mkVirtualTable (wq_as withQuery) columns).
Proof.
  induction withQueries as [|withQuery rest IH]; intros acc tables Hloop.
  - cbn in Hloop. injection Hloop as <-. exists []. repeat apply conj.
    + now rewrite app_nil_r.
    + reflexivity.
    + intros [|i] wq Hnth; discriminate.
  - cbn in Hloop.
    destruct (infer acc (wq_query withQuery)) as [e|columns] eqn:Einfer;
      cbn in Hloop; [discriminate|].
    destruct (IH _ _ Hloop) as (new & -> & Hlen & Hnth).
    exists (mkVirtualTable (wq_as withQuery) columns :: new).
    repeat apply conj.
    + now rewrite <- app_assoc.
    + cbn. now rewrite Hlen.
    + intros [|i] wq Hwq; cbn in Hwq.
      * injection Hwq as <-. exists columns. cbn. rewrite app_nil_r.
        split; [exact Einfer | reflexivity].
      * destruct (Hnth i wq Hwq) as (cols & Hcols & Hnew).
        exists cols. cbn. rewrite <- app_assoc in Hcols.
        split; [exact Hcols | exact Hnew].
Qed.

Lemma getVirtualTablesForWithQueries_loop_Left
  (withQueries : list WithQuery) :
  forall acc e,
    getVirtualTablesForWithQueries_loop infer acc withQueries = Left e ->
    exists pre withQuery post tables,
      withQueries = pre ++ withQuery :: post
      /\ getVirtualTablesForWithQueries_loop infer acc pre = Right tables
      /\ infer tables (wq_query withQuery) = Left e.
Proof.
  induction withQueries as [|withQuery rest IH]; intros acc e Hloop.
  - discriminate.
  - cbn in Hloop.
    destruct (infer acc (wq_query withQuery)) as [e'|columns] eqn:Einfer;
      cbn in Hloop.
    + injection Hloop as ->. exists [], withQuery, rest, acc.
      repeat apply conj; [reflexivity | reflexivity | exact Einfer].
    + destruct (IH _ _ Hloop) as (pre & wq & post & tables & -> & Hpre & He).
      exists (withQuery :: pre), wq, post, tables.
      repeat apply conj; [reflexivity | | exact He].
      cbn. rewrite Einfer. exact Hpre.
Qed.

End WithLoop.

Section WithQueries.

Variable client : SchemaClient.
Variable operatorNullSafety : string -> NullSafety.
Variable functionNullSafety : string -> NullSafety.
Variable Expression_equals : Expression -> Expression -> bool.

(** C4, what the code does: the CTEs of a WITH clause are resolved from
    left to right, and the first CTE whose inference fails makes the
    resolution return that error, whatever follows it; but the body of CTE
    [i] is inferred in the scope made of the virtual tables of the CTEs
    [0..i-1] of the same clause alone, without the outer CTEs of the
    statement.  The outer CTEs are put in front of the resolved ones only
    afterwards: for the FROM clause and the select list of a SELECT, and for
    the FROM clause and the target table of an UPDATE, whose RETURNING list
    is inferred with the outer CTEs alone.  A subquery in FROM and an
    [ARRAY(subquery)], in contrast, are inferred in the whole scope of the
    enclosing statement. *)
Theorem getVirtualTablesForWithQueries_sequential :
  forall (withQueries : list WithQuery),
    (forall tables,
        getVirtualTablesForWithQueries client operatorNullSafety
          functionNullSafety Expression_equals withQueries = Right tables ->
        List.length tables = List.length withQueries
        /\ forall i withQuery,
            nth_error withQueries i = Some withQuery ->
            exists columns,
              getOutputColumns client operatorNullSafety functionNullSafety
                Expression_equals (firstn i tables) (wq_query withQuery)
              = Right columns
              /\ nth_error tables i
                 = Some (mkVirtualTable (wq_as withQuery) columns))
    /\ (forall e,
           getVirtualTablesForWithQueries client operatorNullSafety
             functionNullSafety Expression_equals withQueries = Left e ->
           exists pre withQuery post tables,
             withQueries = pre ++ withQuery :: post
             /\ getVirtualTablesForWithQueries client operatorNullSafety
                  functionNullSafety Expression_equals pre = Right tables
             /\ getOutputColumns client operatorNullSafety functionNullSafety
                  Expression_equals tables (wq_query withQuery) = Left e
             /\ forall post',
                 getVirtualTablesForWithQueries client operatorNullSafety
                   functionNullSafety Expression_equals
                   (pre ++ withQuery :: post') = Left e)
    /\ (forall outsideCTEs body limit,
           getOutputColumns client operatorNullSafety functionNullSafety
             Expression_equals outsideCTEs (Select withQueries body limit)
           = (tables <-
                getVirtualTablesForWithQueries client operatorNullSafety
                  functionNullSafety Expression_equals withQueries ;;
              sourceColumns <-
                getSourceColumnsForTableExpr client operatorNullSafety
                  functionNullSafety Expression_equals
                  (outsideCTEs ++ tables) (body_from body) false ;;
              inferSelectListOutput client operatorNullSafety
                functionNullSafety Expression_equals
                (outsideCTEs ++ tables) sourceColumns (body_where body)
                (body_selectList body)))
    /\ (forall outsideCTEs table as_ updates from_ where_ returning,
           getOutputColumns client operatorNullSafety functionNullSafety
             Expression_equals outsideCTEs
             (Update withQueries table as_ updates from_ where_ returning)
           = (sourceColumns <-
                (tables <-
                   getVirtualTablesForWithQueries client operatorNullSafety
                     functionNullSafety Expression_equals withQueries ;;
                 combineSourceColumns
                   [getSourceColumnsForTableExpr client operatorNullSafety
                      functionNullSafety Expression_equals
                      (outsideCTEs ++ tables) from_ false;
                    getSourceColumnsForTable client (outsideCTEs ++ tables)
                      table as_]) ;;
              inferSelectListOutput client operatorNullSafety
                functionNullSafety Expression_equals outsideCTEs
                sourceColumns where_ returning))
    /\ (forall ctes query as_,
           getSourceColumnsForTableExpr client operatorNullSafety
             functionNullSafety Expression_equals ctes
             (Some (SubQuery query as_)) false
           = EitherM.map
               (fun columns =>
                  List.map
                    (fun column =>
                       mkSourceColumn as_ (vf_name column)
                         (vf_nullability column) false)
                    columns)
               (getOutputColumns client operatorNullSafety
                  functionNullSafety Expression_equals ctes query))
    /\ (forall outsideCTEs sourceColumns subquery,
           inferExpressionNullability client operatorNullSafety
             functionNullSafety Expression_equals outsideCTEs sourceColumns
             [] (ArraySubQuery subquery)
           = (columns <-
                getOutputColumns client operatorNullSafety functionNullSafety
                  Expression_equals outsideCTEs subquery ;;
              match columns with
              | [column0] => arrayTE false (nullable (vf_nullability column0))
              | _ => Left "subquery must return only one column"
              end)).
Proof.
  intros withQueries.
  unfold getVirtualTablesForWithQueries, getVirtualTablesForWithQueries_open.
  split; [|split; [|split; [|split; [|split]]]].
  - intros tables Hloop.
    destruct (getVirtualTablesForWithQueries_loop_Right _ _ _ Hloop)
      as (new & -> & Hlen & Hnth).
    cbn. split; [exact Hlen|]. intros i withQuery Hwq.
    destruct (Hnth i withQuery Hwq) as (columns & Hcols & Hnew).
    exists columns. split; [exact Hcols | exact Hnew].
  - intros e Hloop.
    destruct (getVirtualTablesForWithQueries_loop_Left _ _ _ Hloop)
      as (pre & withQuery & post & tables & -> & Hpre & He).
    exists pre, withQuery, post, tables.
    repeat apply conj; [reflexivity | exact Hpre | exact He |].
    intros post'. rewrite getVirtualTablesForWithQueries_loop_app, Hpre.
    cbn. now rewrite He.
  - intros outsideCTEs body limit. cbn [getOutputColumns].
    unfold combineVirtualTables, getVirtualTablesForWithQueries_open.
    destruct (getVirtualTablesForWithQueries_loop _ [] withQueries);
      reflexivity.
  - intros outsideCTEs table as_ updates from_ where_ returning.
    cbn [getOutputColumns].
    unfold combineVirtualTables, getVirtualTablesForWithQueries_open.
    destruct (getVirtualTablesForWithQueries_loop _ [] withQueries);
      reflexivity.
  - intros ctes query as_.
    transitivity
      (EitherM.map (fun sourceColumns : list SourceColumn => sourceColumns)
         (EitherM.map
            (fun columns =>
               List.map
                 (fun column =>
                    mkSourceColumn as_ (vf_name column)
                      (vf_nullability column) false)
                 columns)
            (getOutputColumns client operatorNullSafety functionNullSafety
               Expression_equals ctes query))); [reflexivity|].
    now destruct (getOutputColumns client operatorNullSafety
                    functionNullSafety Expression_equals ctes query).
  - intros outsideCTEs sourceColumns subquery. reflexivity.
Qed.

End WithQueries.

(** [WITH a AS (SELECT * FROM person), b AS (SELECT * FROM a)]: the body of
    [b] is inferred in the scope holding [a] alone. *)
Lemma getVirtualTablesForWithQueries_sequential_witness :
  let selectAll name :=
    Select []
      (mkSelectBody [AllFields] (Some (TableExpr (mkTableRef None name) None))
         None)
      None in
  let a :=
    mkVirtualTable "a"
      [mkVirtualField "id" (Any false); mkVirtualField "name" (Any false);
       mkVirtualField "age" (Any true)] in
  exists columns,
    getOutputColumns Sample.client Sample.operatorNullSafety
      Sample.functionNullSafety Sample.Expression_equals [a] (selectAll "a")
    = Right columns
    /\ nth_error [a; mkVirtualTable "b" (vt_columns a)] 1
       = Some (mkVirtualTable "b" columns).
Proof.
  cbv zeta.
  destruct (getVirtualTablesForWithQueries_sequential Sample.client
              Sample.operatorNullSafety Sample.functionNullSafety
              Sample.Expression_equals
              [mkWithQuery "a"
                 (Select []
                    (mkSelectBody [AllFields]
                       (Some (TableExpr (mkTableRef None "person") None))
                       None)
                    None);
               mkWithQuery "b"
                 (Select []
                    (mkSelectBody [AllFields]
                       (Some (TableExpr (mkTableRef None "a") None)) None)
                    None)])
    as (Hok & _).
  destruct (Hok _ eq_refl) as [_ Hnth].
  exact (Hnth 1%nat _ eq_refl).
Defined.

(** C4 at two statements whose second CTE has a WITH clause of its own.
    In
    [WITH a AS (SELECT * FROM person),
          b AS (WITH c AS (SELECT * FROM a) SELECT * FROM c)
     SELECT * FROM b]
    the statement defining [b] receives [a] as an outer CTE, but the body of
    its own CTE [c] is inferred without [a] in scope: [a] is looked up in the
    database and the inference fails, where the scoping of section 4.2
    succeeds.  In
    [WITH person AS (SELECT q.* FROM person p
                     LEFT JOIN person q ON p.id = q.id),
          b AS (WITH c AS (SELECT * FROM person) SELECT * FROM c)
     SELECT * FROM b]
    the outer CTE has the name of a database table and three nullable
    columns; the body of [c] reads the database table instead, and [id] and
    [name] are reported as never NULL, where the scoping of section 4.2
    makes them nullable. *)
Lemma getVirtualTablesForWithQueries_outer_counterexample :
  let selectAll ctes name :=
    Select ctes
      (mkSelectBody [AllFields] (Some (TableExpr (mkTableRef None name) None))
         None)
      None in
  let a :=
    mkVirtualTable "a"
      [mkVirtualField "id" (Any false); mkVirtualField "name" (Any false);
       mkVirtualField "age" (Any true)] in
  let inner := [mkWithQuery "c" (selectAll [] "a")] in
  let personDef :=
    mkWithQuery "person"
      (Select []
         (mkSelectBody [AllTableFields "q"]
            (Some
               (QualifiedJoin (TableExpr Sample.personRef (Some "p")) LEFT
                  (TableExpr Sample.personRef (Some "q"))
                  (BinaryOp (TableColumnRef "p" "id") "="
                     (TableColumnRef "q" "id"))))
            None)
         None) in
  let person :=
    mkVirtualTable "person"
      [mkVirtualField "id" (Any true); mkVirtualField "name" (Any true);
       mkVirtualField "age" (Any true)] in
  let inner' := [mkWithQuery "c" (selectAll [] "person")] in
  (Sample.getOutputColumns []
     (selectAll
        [mkWithQuery "a" (selectAll [] "person");
         mkWithQuery "b" (selectAll inner "c")]
        "b")
   = Left "Unknown table a"
   /\ getVirtualTablesForWithQueries Sample.client Sample.operatorNullSafety
        Sample.functionNullSafety Sample.Expression_equals inner
      = Left "Unknown table a"
   /\ withQueriesAsSpecified Sample.getOutputColumns [a] [] inner
      = Right [mkVirtualTable "c" (vt_columns a)]
   /\ getVirtualTablesForWithQueries Sample.client Sample.operatorNullSafety
        Sample.functionNullSafety Sample.Expression_equals inner
      <> withQueriesAsSpecified Sample.getOutputColumns [a] [] inner)
  /\ (getVirtualTablesForWithQueries Sample.client Sample.operatorNullSafety
        Sample.functionNullSafety Sample.Expression_equals [personDef]
      = Right [person]
      /\ Sample.getOutputColumns []
           (selectAll [personDef; mkWithQuery "b" (selectAll inner' "c")] "b")
         = Right
             [mkVirtualField "id" (Any false);
              mkVirtualField "name" (Any false);
              mkVirtualField "age" (Any true)]
      /\ getVirtualTablesForWithQueries Sample.client
           Sample.operatorNullSafety Sample.functionNullSafety
           Sample.Expression_equals inner'
         = Right
             [mkVirtualTable "c"
                [mkVirtualField "id" (Any false);
                 mkVirtualField "name" (Any false);
                 mkVirtualField "age" (Any true)]]
      /\ withQueriesAsSpecified Sample.getOutputColumns [person] [] inner'
         = Right [mkVirtualTable "c" (vt_columns person)]
      /\ getVirtualTablesForWithQueries Sample.client
           Sample.operatorNullSafety Sample.functionNullSafety
           Sample.Expression_equals inner'
         <> withQueriesAsSpecified Sample.getOutputColumns [person] []
              inner').
Proof.
  cbv zeta. repeat apply conj; try reflexivity; discriminate.
Qed.

(* ------------------------------------------------------------------ *)
(** ** The entry point *)

(** C3, as stated, fails: for [SELECT * FROM person] probed with two columns
    the inference finds three, the column pass reports the mismatch of
    invariant 1, and the entry point still returns [Ok] with the probed
    description (after the warning). *)
Lemma inferStatementNullability_mismatch_counterexample :
  let raw := Sample.probed "SELECT * FROM person" ["id"; "name"] 0 in
  let tree :=
    Select []
      (mkSelectBody [AllFields] (Some (TableExpr Sample.personRef None)) None)
      None in
  let inferred :=
    [mkVirtualField "id" (Any false); mkVirtualField "name" (Any false);
     mkVirtualField "age" (Any true)] in
  Sample.getOutputColumns [] tree = Right inferred
  /\ structuralMismatch inferred raw
  /\ applyColumnNullability raw inferred
     = Left "BUG: Non-equal number of columns: inferred 3, actual 2"
  /\ inferStatementNullability Sample.client Sample.operatorNullSafety
       Sample.functionNullSafety Sample.Expression_equals
       (fun _ => Right tree) false raw
     = ([parserWarning; terseWarning], Right raw).
Proof.
  cbv zeta. repeat apply conj; try reflexivity.
  left. discriminate.
Qed.

(** The column pass accepts inferred columns whose number and joined
    names agree with the probed ones, and enriches the probed columns. *)
Lemma applyColumnNullability_accepts (stmt : StatementDescription)
  (outputColumns : list VirtualField) :
  List.length outputColumns = List.length (columns stmt) ->
  String.concat ", " (List.map vf_name outputColumns)
  = String.concat ", " (List.map cd_name (columns stmt)) ->
  applyColumnNullability stmt outputColumns
  = Right
      (mkStatementDescription (sql stmt)
         (zipWith enrichedColumn (columns stmt) outputColumns)
         (params stmt) (rowCount stmt)).
Proof.
  intros Hlen Hnames. unfold applyColumnNullability.
  rewrite Hlen, Nat.eqb_refl, Hnames, String.eqb_refl. cbn.
  do 2 f_equal. unfold zipWith.
  apply List.map_ext. intros [column inferred]. unfold enrichedColumn. cbn.
  now destruct (vf_nullability inferred).
Qed.

(** C3, amended: the entry point never returns [Err].  When the parser
    and the passes succeed it writes nothing to the console and returns
    [Ok] with the enriched description.  In every other case (parser
    failure, any inference error, and the mismatch error of the column
    pass) it writes the parser warning and a second message to the console
    and returns [Ok] with the unmodified probed description.  The column
    pass reports a mismatch exactly when the number of inferred columns
    differs from the number of probed columns, or when the inferred names
    joined with [", "] differ from the joined probed names; name lists that
    agree in number and in their joined strings are accepted, and the
    description is enriched, whether or not the names agree one by one. *)
Theorem inferStatementNullability_always_Right :
  forall (client : SchemaClient)
         (operatorNullSafety functionNullSafety : string -> NullSafety)
         (Expression_equals : Expression -> Expression -> bool)
         (parse : string -> Either string AST)
         (verbose : bool) (statement : StatementDescription),
    inferStatementNullability client operatorNullSafety functionNullSafety
      Expression_equals parse verbose statement
    = match parse (sql statement) with
      | Left e => fallback verbose statement e
      | Right astNode =>
          match
            getOutputColumns client operatorNullSafety functionNullSafety
              Expression_equals [] astNode
          with
          | Left e => fallback verbose statement e
          | Right outputColumns =>
              match applyColumnNullability statement outputColumns with
              | Left e => fallback verbose statement e
              | Right stmt =>
                  match inferParamNullability client stmt astNode with
                  | Left e => fallback verbose statement e
                  | Right stmt' => ([], Right (inferRowCount stmt' astNode))
                  end
              end
          end
      end
    /\ (forall e,
           fallback verbose statement e
           = ([parserWarning;
               if verbose then verboseWarning e else terseWarning],
              Right statement))
    /\ (forall e,
           snd (inferStatementNullability client operatorNullSafety
                  functionNullSafety Expression_equals parse verbose statement)
           <> Left e)
    /\ (forall astNode outputColumns,
           parse (sql statement) = Right astNode ->
           getOutputColumns client operatorNullSafety functionNullSafety
             Expression_equals [] astNode = Right outputColumns ->
           List.length outputColumns <> List.length (columns statement) ->
           applyColumnNullability statement outputColumns
           = Left ("BUG: Non-equal number of columns: inferred "
                   ++ showNat (List.length outputColumns)
                   ++ ", actual "
                   ++ showNat (List.length (columns statement)))%string
           /\ inferStatementNullability client operatorNullSafety
                functionNullSafety Expression_equals parse verbose statement
              = fallback verbose statement
                  ("BUG: Non-equal number of columns: inferred "
                   ++ showNat (List.length outputColumns)
                   ++ ", actual "
                   ++ showNat (List.length (columns statement)))%string)
    /\ (forall astNode outputColumns,
           parse (sql statement) = Right astNode ->
           getOutputColumns client operatorNullSafety functionNullSafety
             Expression_equals [] astNode = Right outputColumns ->
           List.length outputColumns = List.length (columns statement) ->
           String.concat ", " (List.map vf_name outputColumns)
           <> String.concat ", " (List.map cd_name (columns statement)) ->
           applyColumnNullability statement outputColumns
           = Left ("BUG: Inferred output column names do not equal "
                   ++ "actual output column names: inferred "
                   ++ dquote
                   ++ String.concat ", " (List.map vf_name outputColumns)
                   ++ dquote ++ ", actual: " ++ dquote
                   ++ String.concat ", "
                        (List.map cd_name (columns statement))
                   ++ dquote)%string
           /\ inferStatementNullability client operatorNullSafety
                functionNullSafety Expression_equals parse verbose statement
              = fallback verbose statement
                  ("BUG: Inferred output column names do not equal "
                   ++ "actual output column names: inferred "
                   ++ dquote
                   ++ String.concat ", " (List.map vf_name outputColumns)
                   ++ dquote ++ ", actual: " ++ dquote
                   ++ String.concat ", "
                        (List.map cd_name (columns statement))
                   ++ dquote)%string)
    /\ (forall astNode outputColumns,
           parse (sql statement) = Right astNode ->
           getOutputColumns client operatorNullSafety functionNullSafety
             Expression_equals [] astNode = Right outputColumns ->
           List.length outputColumns = List.length (columns statement) ->
           String.concat ", " (List.map vf_name outputColumns)
           = String.concat ", " (List.map cd_name (columns statement)) ->
           applyColumnNullability statement outputColumns
           = Right
               (mkStatementDescription (sql statement)
                  (zipWith enrichedColumn (columns statement) outputColumns)
                  (params statement) (rowCount statement))
           /\ inferStatementNullability client operatorNullSafety
                functionNullSafety Expression_equals parse verbose statement
              = match
                  inferParamNullability client
                    (mkStatementDescription (sql statement)
                       (zipWith enrichedColumn (columns statement)
                          outputColumns)
                       (params statement) (rowCount statement))
                    astNode
                with
                | Left e => fallback verbose statement e
                | Right stmt' => ([], Right (inferRowCount stmt' astNode))
                end).
Proof.
  intros client operatorNullSafety functionNullSafety Expression_equals
    parse verbose statement.
  assert (Hshape :
            inferStatementNullability client operatorNullSafety
              functionNullSafety Expression_equals parse verbose statement
            = match parse (sql statement) with
              | Left e => fallback verbose statement e
              | Right astNode =>
                  match
                    getOutputColumns client operatorNullSafety
                      functionNullSafety Expression_equals [] astNode
                  with
                  | Left e => fallback verbose statement e
                  | Right outputColumns =>
                      match
                        applyColumnNullability statement outputColumns
                      with
                      | Left e => fallback verbose statement e
                      | Right stmt =>
                          match
                            inferParamNullability client stmt astNode
                          with
                          | Left e => fallback verbose statement e
                          | Right stmt' =>
                              ([], Right (inferRowCount stmt' astNode))
                          end
                      end
                  end
              end).
  { unfold inferStatementNullability, inferColumnNullability, fallback.
    destruct (parse (sql statement)) as [e|astNode]; [reflexivity|].
    cbn [EitherM.chain].
    destruct (getOutputColumns client operatorNullSafety functionNullSafety
                Expression_equals [] astNode) as [e|outputColumns];
      [reflexivity|].
    cbn [EitherM.chain].
    destruct (applyColumnNullability statement outputColumns) as [e|stmt];
      [reflexivity|].
    cbn [EitherM.chain].
    destruct (inferParamNullability client stmt astNode); reflexivity. }
  split; [exact Hshape|].
  split; [reflexivity|].
  split; [|split; [|split]].
  - intros e. rewrite Hshape.
    destruct (parse (sql statement)) as [e0|astNode]; [discriminate|].
    destruct (getOutputColumns client operatorNullSafety functionNullSafety
                Expression_equals [] astNode) as [e0|outputColumns];
      [discriminate|].
    destruct (applyColumnNullability statement outputColumns) as [e0|stmt];
      [discriminate|].
    destruct (inferParamNullability client stmt astNode); discriminate.
  - intros astNode outputColumns Hparse Hcols Hlen.
    assert (Hleft :
              applyColumnNullability statement outputColumns
              = Left ("BUG: Non-equal number of columns: inferred "
                      ++ showNat (List.length outputColumns)
                      ++ ", actual "
                      ++ showNat (List.length (columns statement)))%string).
    { unfold applyColumnNullability.
      apply Nat.eqb_neq in Hlen. now rewrite Hlen. }
    split; [exact Hleft|].
    now rewrite Hshape, Hparse, Hcols, Hleft.
  - intros astNode outputColumns Hparse Hcols Hlen Hnames.
    assert (Hleft :
              applyColumnNullability statement outputColumns
              = Left ("BUG: Inferred output column names do not equal "
                      ++ "actual output column names: inferred "
                      ++ dquote
                      ++ String.concat ", " (List.map vf_name outputColumns)
                      ++ dquote ++ ", actual: " ++ dquote
                      ++ String.concat ", "
                           (List.map cd_name (columns statement))
                      ++ dquote)%string).
    { unfold applyColumnNullability.
      apply String.eqb_neq in Hnames.
      now rewrite Hlen, Nat.eqb_refl, Hnames. }
    split; [exact Hleft|].
    now rewrite Hshape, Hparse, Hcols, Hleft.
  - intros astNode outputColumns Hparse Hcols Hlen Hnames.
    pose proof (applyColumnNullability_accepts statement outputColumns
                  Hlen Hnames) as Hright.
    split; [exact Hright|].
    now rewrite Hshape, Hparse, Hcols, Hright.
Qed.

(** [SELECT * FROM person] probed with two columns: the column pass reports
    the mismatch and the entry point warns and returns the probed
    description.  [SELECT id AS "a, b", name AS c FROM person] probed with
    the columns [a] and [b, c]: the ordered names differ, the joined names
    agree, and the entry point returns the enriched description without a
    warning. *)
Lemma inferStatementNullability_always_Right_witness :
  inferStatementNullability Sample.client Sample.operatorNullSafety
    Sample.functionNullSafety Sample.Expression_equals
    (fun _ =>
       Right
         (Select []
            (mkSelectBody [AllFields]
               (Some (TableExpr Sample.personRef None)) None)
            None))
    false (Sample.probed "SELECT * FROM person" ["id"; "name"] 0)
  = ([parserWarning; terseWarning],
     Right (Sample.probed "SELECT * FROM person" ["id"; "name"] 0))
  /\ structuralMismatch
       [mkVirtualField "a, b" (Any false); mkVirtualField "c" (Any false)]
       (Sample.probed
          ("SELECT id AS " ++ dquote ++ "a, b" ++ dquote
           ++ ", name AS c FROM person")
          ["a"; "b, c"] 0)
  /\ inferStatementNullability Sample.client Sample.operatorNullSafety
       Sample.functionNullSafety Sample.Expression_equals
       (fun _ =>
          Right
            (Select []
               (mkSelectBody
                  [SelectListExpression (ColumnRef "id") (Some "a, b");
                   SelectListExpression (ColumnRef "name") (Some "c")]
                  (Some (TableExpr Sample.personRef None)) None)
               None))
       false
       (Sample.probed
          ("SELECT id AS " ++ dquote ++ "a, b" ++ dquote
           ++ ", name AS c FROM person")
          ["a"; "b, c"] 0)
     = ([],
        Right
          (mkStatementDescription
             ("SELECT id AS " ++ dquote ++ "a, b" ++ dquote
              ++ ", name AS c FROM person")
             [mkColumnDescription "a" (ValueType_any 23) false;
              mkColumnDescription "b, c" (ValueType_any 23) false]
             [] many)).
Proof.
  split; [|split].
  - destruct (inferStatementNullability_always_Right Sample.client
                Sample.operatorNullSafety Sample.functionNullSafety
                Sample.Expression_equals
                (fun _ =>
                   Right
                     (Select []
                        (mkSelectBody [AllFields]
                           (Some (TableExpr Sample.personRef None)) None)
                        None))
                false (Sample.probed "SELECT * FROM person" ["id"; "name"] 0))
      as (_ & _ & _ & Hcount & _).
    destruct (Hcount _ _ eq_refl eq_refl) as [_ Hresult].
    + cbn. lia.
    + exact Hresult.
  - right. discriminate.
  - destruct (inferStatementNullability_always_Right Sample.client
                Sample.operatorNullSafety Sample.functionNullSafety
                Sample.Expression_equals
                (fun _ =>
                   Right
                     (Select []
                        (mkSelectBody
                           [SelectListExpression (ColumnRef "id")
                              (Some "a, b");
                            SelectListExpression (ColumnRef "name")
                              (Some "c")]
                           (Some (TableExpr Sample.personRef None)) None)
                        None))
                false
                (Sample.probed
                   ("SELECT id AS " ++ dquote ++ "a, b" ++ dquote
                    ++ ", name AS c FROM person")
                   ["a"; "b, c"] 0))
      as (_ & _ & _ & _ & _ & Haccepted).
    destruct (Haccepted _ _ eq_refl eq_refl eq_refl eq_refl)
      as [_ Hresult].
    exact Hresult.
Defined.

(* ------------------------------------------------------------------ *)
(** ** Further properties: source-column refinement *)

Lemma filterMap_identity_app {A} (l1 l2 : list (option A)) :
  filterMap_identity (l1 ++ l2)
  = filterMap_identity l1 ++ filterMap_identity l2.
Proof.
  induction l1 as [|[a|] l1 IH]; cbn; [reflexivity | now rewrite IH | exact IH].
Qed.

Lemma isColumnNonNullable_app (refs1 refs2 : list NonNullableColumn)
  (sc : SourceColumn) :
  isColumnNonNullable (refs1 ++ refs2) sc
  = isColumnNonNullable refs1 sc || isColumnNonNullable refs2 sc.
Proof. unfold isColumnNonNullable. apply existsb_app. Qed.

(** X1: the refinement by the WHERE clause keeps the number and the order of
    the source columns and the alias, name and hidden flag of each; the
    nullability of a column is either left as it is or replaced by the
    scalar [any(false)] (so an array column that is matched loses its
    element nullability), and no column becomes nullable by it. *)
Theorem applyExpressionNonNullability_frame :
  forall (nonNullableExpressions : list Expression)
         (sourceColumns : list SourceColumn),
    Forall2
      (fun before after =>
         sc_tableAlias after = sc_tableAlias before
         /\ sc_columnName after = sc_columnName before
         /\ sc_hidden after = sc_hidden before
         /\ (sc_nullability after = sc_nullability before
             \/ sc_nullability after = Any false)
         /\ (nullable (sc_nullability after) = true ->
             nullable (sc_nullability before) = true))
      sourceColumns
      (applyExpressionNonNullability nonNullableExpressions sourceColumns).
Proof.
  intros exprs sourceColumns. unfold applyExpressionNonNullability.
  induction sourceColumns as [|sc cols IH]; cbn; constructor; [|exact IH].
  cbn. repeat apply conj; try reflexivity.
  - destruct (isColumnNonNullable _ sc); [now right | now left].
  - destruct (isColumnNonNullable _ sc); cbn; [discriminate | tauto].
Qed.

(** X2: refinements compose: refining by two lists one after the other is
    refining by their concatenation, refining twice by the same list is
    refining once, and a list that holds no column reference changes
    nothing. *)
Theorem applyExpressionNonNullability_compose :
  forall (sourceColumns : list SourceColumn),
    (forall exprs1 exprs2,
        applyExpressionNonNullability exprs1
          (applyExpressionNonNullability exprs2 sourceColumns)
        = applyExpressionNonNullability (exprs1 ++ exprs2) sourceColumns)
    /\ (forall exprs,
           applyExpressionNonNullability exprs
             (applyExpressionNonNullability exprs sourceColumns)
           = applyExpressionNonNullability exprs sourceColumns)
    /\ (forall exprs,
           Forall (fun e => nonNullableColumnOf e = None) exprs ->
           applyExpressionNonNullability exprs sourceColumns = sourceColumns).
Proof.
  intros sourceColumns. repeat apply conj.
  - intros exprs1 exprs2. unfold applyExpressionNonNullability.
    rewrite List.map_map, List.map_app, filterMap_identity_app.
    apply List.map_ext. intros [alias name nullability hidden].
    rewrite isColumnNonNullable_app. unfold isColumnNonNullable. cbn.
    destruct (existsb _ (filterMap_identity
                           (List.map nonNullableColumnOf exprs1)));
      cbn; [reflexivity|].
    destruct (existsb _ (filterMap_identity
                           (List.map nonNullableColumnOf exprs2)));
      reflexivity.
  - intros exprs. unfold applyExpressionNonNullability.
    rewrite List.map_map. apply List.map_ext.
    intros [alias name nullability hidden].
    unfold isColumnNonNullable. cbn.
    destruct (existsb _ (filterMap_identity
                           (List.map nonNullableColumnOf exprs)));
      reflexivity.
  - intros exprs Hnone. unfold applyExpressionNonNullability.
    assert (Hrefs :
              filterMap_identity (List.map nonNullableColumnOf exprs) = []).
    { induction Hnone as [|e exprs He _ IH]; [reflexivity|].
      cbn. now rewrite He. }
    rewrite Hrefs. cbn.
    induction sourceColumns as [|sc cols IH]; [reflexivity|].
    cbn. rewrite IH. now destruct sc.
Qed.

(** [WHERE age + 1 < 10 AND 'x' = lower(name)] binds no column directly. *)
Lemma applyExpressionNonNullability_compose_witness :
  applyExpressionNonNullability
    [BinaryOp (ColumnRef "age") "+" (Constant "1"); Constant "10";
     Constant "x"; FunctionCall "lower" [ColumnRef "name"]]
    [mkSourceColumn "person" "age" (Any true) false]
  = [mkSourceColumn "person" "age" (Any true) false].
Proof.
  destruct (applyExpressionNonNullability_compose
              [mkSourceColumn "person" "age" (Any true) false])
    as (_ & _ & Hnone).
  apply Hnone. repeat constructor.
Defined.

(* ------------------------------------------------------------------ *)
(** ** Further properties: the scan of the WHERE clause *)

Section WhereScanMore.

Variable operatorNullSafety : string -> NullSafety.
Variable functionNullSafety : string -> NullSafety.

(** X3: every expression collected from a WHERE clause is a proper
    sub-expression of the clause: the scan never returns the clause itself
    and never builds an expression of its own. *)
Theorem getNonNullExpressionsFromWhere_subexpressions :
  forall (where_ e : Expression),
    In e
      (getNonNullExpressionsFromWhere operatorNullSafety functionNullSafety
         (Some where_)) ->
    properSubexpression e where_.
Proof.
  cbn [getNonNullExpressionsFromWhere].
  induction where_; intros e Hin; cbn in Hin; try contradiction.
  - destruct ((op =? "IS NOT NULL") || (op =? "NOTNULL")); [|contradiction].
    destruct Hin as [<- | []]. apply sub_child. constructor.
  - destruct (op =? "AND").
    + apply in_app_or in Hin. destruct Hin as [Hin | Hin].
      * eapply sub_step; [apply IHwhere_1; exact Hin | constructor].
      * eapply sub_step; [apply IHwhere_2; exact Hin | constructor].
    + destruct (NullSafety_eqb (operatorNullSafety op) safe);
        [|contradiction].
      destruct Hin as [<- | [<- | []]]; apply sub_child; constructor.
  - destruct (NullSafety_eqb (functionNullSafety funcName) safe);
      [|contradiction].
    apply sub_child. now constructor.
Qed.

(** X4: the scan does not depend on how a conjunction is bracketed, and
    swapping the two sides of an [AND] only permutes the collected list. *)
Theorem getNonNullExpressionsFromWhere_conjunction :
  forall (A B C : Expression),
    getNonNullExpressionsFromWhere operatorNullSafety functionNullSafety
      (Some (BinaryOp (BinaryOp A "AND" B) "AND" C))
    = getNonNullExpressionsFromWhere operatorNullSafety functionNullSafety
        (Some (BinaryOp A "AND" (BinaryOp B "AND" C)))
    /\ Permutation
         (getNonNullExpressionsFromWhere operatorNullSafety functionNullSafety
            (Some (BinaryOp A "AND" B)))
         (getNonNullExpressionsFromWhere operatorNullSafety functionNullSafety
            (Some (BinaryOp B "AND" A))).
Proof.
  intros A B C. cbn. split.
  - now rewrite app_assoc.
  - apply Permutation_app_comm.
Qed.

End WhereScanMore.

(** [WHERE age IS NOT NULL AND id < 3]: [age], [id] and [3] are collected,
    each a part of the clause. *)
Lemma getNonNullExpressionsFromWhere_subexpressions_witness :
  properSubexpression (ColumnRef "id")
    (BinaryOp (UnaryOp "IS NOT NULL" (ColumnRef "age")) "AND"
       (BinaryOp (ColumnRef "id") "<" (Constant "3"))).
Proof.
  apply (getNonNullExpressionsFromWhere_subexpressions
           Sample.operatorNullSafety Sample.functionNullSafety).
  cbn. right. now left.
Defined.

(* ------------------------------------------------------------------ *)
(** ** Further properties: expression nullability *)

(** Induction on an expression through its operands, the arguments of a
    function call included. *)
Lemma Expression_operand_ind (P : Expression -> Prop) :
  (forall column, P (ColumnRef column)) ->
  (forall table column, P (TableColumnRef table column)) ->
  (forall valueText, P (Constant valueText)) ->
  (forall index, P (Parameter_ index)) ->
  (forall op operand, P operand -> P (UnaryOp op operand)) ->
  (forall lhs op rhs, P lhs -> P rhs -> P (BinaryOp lhs op rhs)) ->
  (forall funcName argList,
      Forall P argList -> P (FunctionCall funcName argList)) ->
  (forall subquery, P (ExistsOp subquery)) ->
  (forall lhs subquery, P lhs -> P (InOp lhs subquery)) ->
  (forall subquery, P (ArraySubQuery subquery)) ->
  (forall lhs targetType, P lhs -> P (TypeCast lhs targetType)) ->
  forall e, P e.
Proof.
  intros Hcol Htcol Hconst Hparam Hun Hbin Hfun Hex Hin Harr Hcast.
  fix IH 1. intros [column | table column | valueText | index | op operand
                   | lhs op rhs | funcName argList | subquery | lhs subquery
                   | subquery | lhs targetType].
  - apply Hcol.
  - apply Htcol.
  - apply Hconst.
  - apply Hparam.
  - apply Hun, IH.
  - apply Hbin; apply IH.
  - apply Hfun. revert argList. fix IHargs 1.
    intros [|arg argList]; constructor; [apply IH | apply IHargs].
  - apply Hex.
  - apply Hin, IH.
  - apply Harr.
  - apply Hcast, IH.
Qed.

Lemma existsb_find {A} (p : A -> bool) (l : list A) :
  existsb p l = true -> exists x, List.find p l = Some x.
Proof.
  induction l as [|a l IH]; cbn; [discriminate|].
  destruct (p a); [eauto | exact IH].
Qed.

Lemma sequenceAE_map_Right {E A B} (f : A -> Either E B) (l : list A) :
  Forall (fun a => exists b, f a = Right b) l ->
  exists bs, sequenceAE (List.map f l) = Right bs.
Proof.
  induction 1 as [|a l [b Hb] _ [bs IH]]; cbn; [eauto|].
  rewrite Hb, IH. cbn. eauto.
Qed.

Section ExpressionNullability.

Variable client : SchemaClient.
Variable operatorNullSafety : string -> NullSafety.
Variable functionNullSafety : string -> NullSafety.
Variable Expression_equals : Expression -> Expression -> bool.

(** One step of [inferExpressionNullability], with the recursive calls
    under their names. *)
Lemma inferExpressionNullability_step
  (outsideCTEs : list VirtualTable) (sourceColumns : list SourceColumn)
  (nonNullExprs : list Expression) (expression : Expression) :
  inferExpressionNullability client operatorNullSafety functionNullSafety
    Expression_equals outsideCTEs sourceColumns nonNullExprs expression
  = if existsb (fun nonNull => Expression_equals expression nonNull)
         nonNullExprs
    then anyTE false
    else
      match expression with
      | TableColumnRef table column =>
          EitherM.map (fun column => sc_nullability column)
            (findSourceTableColumn table column sourceColumns)
      | ColumnRef column =>
          EitherM.map (fun column => sc_nullability column)
            (findSourceColumn column sourceColumns)
      | UnaryOp op operand =>
          match operatorNullSafety op with
          | safe =>
              inferExpressionNullability client operatorNullSafety
                functionNullSafety Expression_equals outsideCTEs
                sourceColumns nonNullExprs operand
          | unsafe | alwaysNull => anyTE true
          | neverNull => anyTE false
          end
      | BinaryOp lhs op rhs =>
          match operatorNullSafety op with
          | safe =>
              EitherM.ap
                (EitherM.ap
                   (Right
                      (fun lhsNullability rhsNullability =>
                         any (nullable lhsNullability
                              || nullable rhsNullability)))
                   (inferExpressionNullability client operatorNullSafety
                      functionNullSafety Expression_equals outsideCTEs
                      sourceColumns nonNullExprs lhs))
                (inferExpressionNullability client operatorNullSafety
                   functionNullSafety Expression_equals outsideCTEs
                   sourceColumns nonNullExprs rhs)
          | unsafe | alwaysNull => anyTE true
          | neverNull => anyTE false
          end
      | ExistsOp _ => anyTE false
      | FunctionCall funcName argList =>
          match functionNullSafety funcName with
          | safe =>
              argNullability <-
                sequenceAE
                  (List.map
                     (inferExpressionNullability client operatorNullSafety
                        functionNullSafety Expression_equals outsideCTEs
                        sourceColumns nonNullExprs)
                     argList) ;;
              anyTE (existsb (fun nullability => nullable nullability)
                       argNullability)
          | unsafe | alwaysNull => anyTE true
          | neverNull => anyTE false
          end
      | InOp lhs _ =>
          inferExpressionNullability client operatorNullSafety
            functionNullSafety Expression_equals outsideCTEs sourceColumns
            nonNullExprs lhs
      | ArraySubQuery subquery =>
          columns <-
            getOutputColumns client operatorNullSafety functionNullSafety
              Expression_equals outsideCTEs subquery ;;
          match columns with
          | [column0] => arrayTE false (nullable (vf_nullability column0))
          | _ => Left "subquery must return only one column"
          end
      | TypeCast lhs _ =>
          inferExpressionNullability client operatorNullSafety
            functionNullSafety Expression_equals outsideCTEs sourceColumns
            nonNullExprs lhs
      | Constant _ => anyTE false
      | Parameter_ _ => anyTE true
      end.
Proof. destruct expression; reflexivity. Qed.

(** X5: the analysis of an expression cannot fail when every column
    reference in an operand position resolves in the scope and the
    expression holds no [ARRAY(subquery)]: unknown columns and array
    subqueries are its only sources of error. *)
Theorem inferExpressionNullability_resolvable :
  forall (outsideCTEs : list VirtualTable) (sourceColumns : list SourceColumn)
         (nonNullExprs : list Expression) (expression : Expression),
    resolvable sourceColumns expression = true ->
    exists nullability,
      inferExpressionNullability client operatorNullSafety functionNullSafety
        Expression_equals outsideCTEs sourceColumns nonNullExprs expression
      = Right nullability.
Proof.
  intros outsideCTEs sourceColumns nonNullExprs expression.
  induction expression using Expression_operand_ind;
    intros Hres; rewrite inferExpressionNullability_step;
    destruct (existsb _ nonNullExprs); try (eexists; reflexivity);
    cbn [resolvable] in Hres.
  - unfold findSourceColumn.
    destruct (existsb_find _ _ Hres) as [col ->]. cbn. eauto.
  - unfold findSourceTableColumn.
    destruct (existsb_find _ _ Hres) as [col ->]. cbn. eauto.
  - destruct (operatorNullSafety op); try (eexists; reflexivity).
    now apply IHexpression.
  - apply andb_true_iff in Hres. destruct Hres as [Hl Hr].
    destruct (operatorNullSafety op); try (eexists; reflexivity).
    destruct (IHexpression1 Hl) as [nl ->].
    destruct (IHexpression2 Hr) as [nr ->]. cbn. eauto.
  - destruct (functionNullSafety funcName); try (eexists; reflexivity).
    assert (Hargs :
              Forall
                (fun arg =>
                   exists n,
                     inferExpressionNullability client operatorNullSafety
                       functionNullSafety Expression_equals outsideCTEs
                       sourceColumns nonNullExprs arg = Right n)
                argList).
    { rewrite forallb_forall in Hres. rewrite Forall_forall in *.
      intros arg Harg. apply H; [exact Harg | now apply Hres]. }
    destruct (sequenceAE_map_Right _ Hargs) as [ns Hns].
    unfold TaskEither. rewrite Hns. eexists. reflexivity.
  - now apply IHexpression.
  - discriminate.
  - now apply IHexpression.
Qed.

Lemma find_atLeastAsNullable (p : SourceColumn -> bool)
  (before after : list SourceColumn) :
  (forall a b, atLeastAsNullable a b -> p b = p a) ->
  Forall2 atLeastAsNullable before after ->
  match List.find p before, List.find p after with
  | Some c, Some c' => atLeastAsNullable c c'
  | None, None => True
  | _, _ => False
  end.
Proof.
  intros Hp. induction 1 as [|a b before after Hab _ IH]; cbn; [exact I|].
  rewrite (Hp a b Hab). destruct (p a); [exact Hab | exact IH].
Qed.

Lemma lookup_atLeastAsNullable (p : SourceColumn -> bool) (message : string)
  (before after : list SourceColumn) :
  (forall a b, atLeastAsNullable a b -> p b = p a) ->
  Forall2 atLeastAsNullable before after ->
  outcomeAtLeastAsNullable
    (EitherM.map (fun column => sc_nullability column)
       (EitherM.fromNullable message (List.find p before)))
    (EitherM.map (fun column => sc_nullability column)
       (EitherM.fromNullable message (List.find p after))).
Proof.
  intros Hp Hscope.
  pose proof (find_atLeastAsNullable p Hp Hscope) as Hfind.
  destruct (List.find p before), (List.find p after);
    cbn; try contradiction; [apply Hfind | reflexivity].
Qed.

Lemma sequenceAE_atLeastAsNullable {A}
  (f g : A -> Either string FieldNullability) (l : list A) :
  Forall (fun a => outcomeAtLeastAsNullable (f a) (g a)) l ->
  match sequenceAE (List.map f l), sequenceAE (List.map g l) with
  | Left e, Left e' => e = e'
  | Right ns, Right ns' =>
      existsb (fun n => nullable n) ns = true ->
      existsb (fun n => nullable n) ns' = true
  | _, _ => False
  end.
Proof.
  induction 1 as [|a l Ha _ IH]; cbn; [tauto|].
  unfold outcomeAtLeastAsNullable in Ha.
  destruct (f a) as [e|n], (g a) as [e'|n']; try contradiction;
    [exact Ha|].
  destruct (sequenceAE (List.map f l)) as [e|ns],
           (sequenceAE (List.map g l)) as [e'|ns'];
    cbn; try contradiction; [exact IH|].
  intros Hor. apply orb_true_iff in Hor. apply orb_true_iff.
  destruct Hor as [Hn | Hns]; [left; now apply Ha | right; now apply IH].
Qed.

(** X6: the analysis is monotone in the scope: when some source columns
    are made nullable (same aliases and names, as a join does to one of its
    sides), every expression fails with the same error as before or gets a
    result that is nullable wherever it was before. *)
Theorem inferExpressionNullability_monotone :
  forall (outsideCTEs : list VirtualTable) (nonNullExprs : list Expression)
         (before after : list SourceColumn),
    Forall2 atLeastAsNullable before after ->
    forall expression,
      outcomeAtLeastAsNullable
        (inferExpressionNullability client operatorNullSafety
           functionNullSafety Expression_equals outsideCTEs before
           nonNullExprs expression)
        (inferExpressionNullability client operatorNullSafety
           functionNullSafety Expression_equals outsideCTEs after
           nonNullExprs expression).
Proof.
  intros outsideCTEs nonNullExprs before after Hscope expression.
  induction expression using Expression_operand_ind;
    match goal with
    | |- outcomeAtLeastAsNullable
           (inferExpressionNullability _ _ _ _ ?o ?s ?n ?e)
           (inferExpressionNullability _ _ _ _ ?o ?s' ?n ?e) =>
        rewrite (inferExpressionNullability_step o s n e),
          (inferExpressionNullability_step o s' n e)
    end;
    destruct (existsb _ nonNullExprs); try (cbn; tauto).
  - apply lookup_atLeastAsNullable; [|exact Hscope].
    intros a b (_ & Hname & _). now rewrite Hname.
  - apply lookup_atLeastAsNullable; [|exact Hscope].
    intros a b (Halias & Hname & _). now rewrite Halias, Hname.
  - destruct (operatorNullSafety op); cbn; tauto.
  - destruct (operatorNullSafety op); cbn; try tauto.
    unfold outcomeAtLeastAsNullable in *.
    destruct (inferExpressionNullability _ _ _ _ _ before _ expression1),
             (inferExpressionNullability _ _ _ _ _ after _ expression1);
      cbn; try contradiction; [exact IHexpression1|].
    destruct (inferExpressionNullability _ _ _ _ _ before _ expression2),
             (inferExpressionNullability _ _ _ _ _ after _ expression2);
      cbn; try contradiction; [exact IHexpression2|].
    intros Hor. apply orb_true_iff in Hor. apply orb_true_iff.
    destruct Hor; [left; now apply IHexpression1
                  | right; now apply IHexpression2].
  - destruct (functionNullSafety funcName); cbn; try tauto.
    pose proof (sequenceAE_atLeastAsNullable _ _ H) as Hseq.
    cbn beta in Hseq. unfold TaskEither in *.
    destruct (sequenceAE (List.map _ argList)),
             (sequenceAE (List.map _ argList));
      cbn; try contradiction; exact Hseq.
  - destruct (getOutputColumns _ _ _ _ outsideCTEs subquery)
      as [e | [|column0 [|column1 columns]]]; cbn; tauto.
Qed.

End ExpressionNullability.

(** [age + 1 < lower(name)] over the columns of [person]. *)
Lemma inferExpressionNullability_resolvable_witness :
  exists nullability,
    inferExpressionNullability Sample.client Sample.operatorNullSafety
      Sample.functionNullSafety Sample.Expression_equals []
      [mkSourceColumn "person" "name" (Any false) false;
       mkSourceColumn "person" "age" (Any true) false]
      []
      (BinaryOp (BinaryOp (ColumnRef "age") "+" (Constant "1")) "<"
         (FunctionCall "lower" [ColumnRef "name"]))
    = Right nullability.
Proof.
  apply inferExpressionNullability_resolvable. reflexivity.
Defined.

(** [q.id + 1] before and after [q] becomes the nullable side of a join. *)
Lemma inferExpressionNullability_monotone_witness :
  outcomeAtLeastAsNullable
    (inferExpressionNullability Sample.client Sample.operatorNullSafety
       Sample.functionNullSafety Sample.Expression_equals []
       [mkSourceColumn "q" "id" (Any false) false] []
       (BinaryOp (TableColumnRef "q" "id") "+" (Constant "1")))
    (inferExpressionNullability Sample.client Sample.operatorNullSafety
       Sample.functionNullSafety Sample.Expression_equals []
       [mkSourceColumn "q" "id" (Any true) false] []
       (BinaryOp (TableColumnRef "q" "id") "+" (Constant "1"))).
Proof.
  apply inferExpressionNullability_monotone.
  constructor; [|constructor].
  repeat apply conj; reflexivity.
Defined.

(* ------------------------------------------------------------------ *)
(** ** Further properties: the select list *)

Lemma sequenceAE_Right_inv {E A} (l : list (Either E A)) :
  forall bs, sequenceAE l = Right bs -> l = List.map Right bs.
Proof.
  induction l as [|[e|a] l IH]; cbn; intros bs Hseq.
  - now injection Hseq as <-.
  - discriminate.
  - destruct (sequenceAE l) as [e|bs'] eqn:Erest; cbn in Hseq;
      [discriminate|].
    injection Hseq as <-. cbn. now rewrite (IH bs' eq_refl).
Qed.

Lemma applyExpressionNonNullability_names (exprs : list Expression)
  (cols : list SourceColumn) :
  List.map sc_columnName (applyExpressionNonNullability exprs cols)
  = List.map sc_columnName cols.
Proof.
  unfold applyExpressionNonNullability. rewrite List.map_map.
  apply List.map_ext. reflexivity.
Qed.

Section SelectListNames.

Variable client : SchemaClient.
Variable operatorNullSafety : string -> NullSafety.
Variable functionNullSafety : string -> NullSafety.
Variable Expression_equals : Expression -> Expression -> bool.

Lemma inferSelectListItemOutput_names
  (outsideCTEs : list VirtualTable) (sourceColumns : list SourceColumn)
  (nonNullExpressions : list Expression) (item : SelectListItem)
  (fields : list VirtualField) :
  inferSelectListItemOutput client operatorNullSafety functionNullSafety
    Expression_equals outsideCTEs sourceColumns nonNullExpressions item
  = Right fields ->
  List.map vf_name fields = itemNames sourceColumns item.
Proof.
  unfold inferSelectListItemOutput, inferSelectListItemOutput_open.
  destruct item as [|tableName|expression as_]; cbn [itemNames].
  - unfold findNonHiddenSourceColumns, EitherM.fromPredicate.
    destruct (0 <? _)%nat; cbn; [|discriminate].
    intros Hfields. injection Hfields as <-.
    rewrite List.map_map. cbn.
    apply applyExpressionNonNullability_names.
  - unfold findNonHiddenSourceTableColumns, findNonHiddenSourceColumns,
      EitherM.fromPredicate.
    destruct (0 <? List.length (List.filter _ sourceColumns))%nat;
      cbn [EitherM.map EitherM.chain]; [|discriminate].
    match goal with
    | |- context [if ?c then _ else _] => destruct c
    end; cbn [EitherM.map]; [|discriminate].
    intros Hfields. injection Hfields as <-.
    rewrite List.map_map. cbn.
    apply applyExpressionNonNullability_names.
  - destruct (inferExpressionNullability _ _ _ _ _ _ _ _); cbn;
      [discriminate|].
    intros Hfields. now injection Hfields as <-.
Qed.

(** X7: when the inference of a select list succeeds, the names of the
    output columns, in order, are those of its items: for [*] the visible
    source columns, for [t.*] the visible source columns of alias [t], for an
    expression its non-empty alias, else the column it refers to, else
    [?column?].  The names depend neither on the WHERE clause nor on any
    nullability. *)
Theorem inferSelectListOutput_names :
  forall (outsideCTEs : list VirtualTable) (sourceColumns : list SourceColumn)
         (where_ : option Expression) (selectList : list SelectListItem)
         (outputColumns : list VirtualField),
    inferSelectListOutput client operatorNullSafety functionNullSafety
      Expression_equals outsideCTEs sourceColumns where_ selectList
    = Right outputColumns ->
    List.map vf_name outputColumns
    = List.concat (List.map (itemNames sourceColumns) selectList).
Proof.
  intros outsideCTEs sourceColumns where_ selectList outputColumns.
  unfold inferSelectListOutput, inferSelectListOutput_open, sequenceATE.
  cbn [EitherM.chain].
  generalize (getNonNullExpressionsFromWhere operatorNullSafety
                functionNullSafety where_) as nonNullExpressions.
  intros nonNullExpressions.
  change (inferSelectListItemOutput_open
            (inferExpressionNullability client operatorNullSafety
               functionNullSafety Expression_equals))
    with (inferSelectListItemOutput client operatorNullSafety
            functionNullSafety Expression_equals).
  revert outputColumns.
  induction selectList as [|item items IH]; cbn; intros outputColumns Hout.
  - now injection Hout as <-.
  - destruct (inferSelectListItemOutput _ _ _ _ outsideCTEs sourceColumns
                nonNullExpressions item) as [e|fields] eqn:Eitem;
      cbn in Hout; [discriminate|].
    destruct (sequenceAE _) as [e|rest] eqn:Erest; cbn in Hout;
      [discriminate|].
    injection Hout as <-. cbn. rewrite List.map_app.
    rewrite (inferSelectListItemOutput_names _ _ _ _ Eitem).
    now rewrite (IH (List.concat rest) eq_refl).
Qed.

End SelectListNames.

(** [SELECT p.*, age + 1, name AS n] over [person AS p]. *)
Lemma inferSelectListOutput_names_witness :
  exists outputColumns,
    inferSelectListOutput Sample.client Sample.operatorNullSafety
      Sample.functionNullSafety Sample.Expression_equals []
      [mkSourceColumn "p" "name" (Any false) false;
       mkSourceColumn "p" "age" (Any true) false]
      None
      [AllTableFields "p";
       SelectListExpression
         (BinaryOp (ColumnRef "age") "+" (Constant "1")) None;
       SelectListExpression (ColumnRef "name") (Some "n")]
    = Right outputColumns
    /\ List.map vf_name outputColumns = ["name"; "age"; "?column?"; "n"].
Proof.
  eexists. split; [reflexivity|].
  apply (inferSelectListOutput_names Sample.client Sample.operatorNullSafety
           Sample.functionNullSafety Sample.Expression_equals []
           [mkSourceColumn "p" "name" (Any false) false;
            mkSourceColumn "p" "age" (Any true) false]
           None
           [AllTableFields "p";
            SelectListExpression
              (BinaryOp (ColumnRef "age") "+" (Constant "1")) None;
            SelectListExpression (ColumnRef "name") (Some "n")]).
  reflexivity.
Defined.

(* ------------------------------------------------------------------ *)
(** ** Further properties: resolving a table reference *)

Lemma find_app {A} (p : A -> bool) (l1 l2 : list A) :
  List.find p (l1 ++ l2)
  = match List.find p l1 with
    | Some x => Some x
    | None => List.find p l2
    end.
Proof.
  induction l1 as [|a l1 IH]; cbn; [reflexivity|].
  destruct (p a); [reflexivity | exact IH].
Qed.

(** The source columns made of the columns of a CTE. *)
Lemma getSourceColumnsForTable_cte (client : SchemaClient)
  (ctes : list VirtualTable) (table : TableRef) (as_ : option string)
  (virtualTable : VirtualTable) :
  tr_schema table = None ->
  List.find (fun vt => vt_name vt =? tr_table table) ctes
  = Some virtualTable ->
  getSourceColumnsForTable client ctes table as_
  = Right
      (List.map
         (fun col =>
            mkSourceColumn (orString as_ (tr_table table)) (vf_name col)
              (vf_nullability col) false)
         (vt_columns virtualTable)).
Proof.
  intros Hschema Hfind. unfold getSourceColumnsForTable.
  now rewrite Hschema, Hfind.
Qed.

(** X8: an unqualified table name is looked up among the CTEs first, the
    outer CTEs of the statement before its own: an outer CTE of that name
    shadows a CTE of the statement and the database table, whatever the
    schema client answers; the columns come out under the non-empty alias or
    else the name, and none is hidden.  A schema-qualified name never
    refers to a CTE. *)
Theorem getSourceColumnsForTable_scoping :
  forall (client : SchemaClient) (outsideCTEs virtualTables : list VirtualTable)
         (table : TableRef) (as_ : option string),
    (forall outer,
        tr_schema table = None ->
        List.find (fun vt => vt_name vt =? tr_table table) outsideCTEs
        = Some outer ->
        getSourceColumnsForTable client (outsideCTEs ++ virtualTables)
          table as_
        = Right
            (List.map
               (fun col =>
                  mkSourceColumn (orString as_ (tr_table table)) (vf_name col)
                    (vf_nullability col) false)
               (vt_columns outer)))
    /\ (tr_schema table = None ->
        List.find (fun vt => vt_name vt =? tr_table table) outsideCTEs
        = None ->
        getSourceColumnsForTable client (outsideCTEs ++ virtualTables)
          table as_
        = getSourceColumnsForTable client virtualTables table as_)
    /\ (tr_schema table <> None ->
        getSourceColumnsForTable client (outsideCTEs ++ virtualTables)
          table as_
        = getSourceColumnsForTable client [] table as_).
Proof.
  intros client outsideCTEs virtualTables table as_. repeat apply conj.
  - intros outer Hschema Hfind.
    apply getSourceColumnsForTable_cte; [exact Hschema|].
    now rewrite find_app, Hfind.
  - intros Hschema Hfind. unfold getSourceColumnsForTable.
    now rewrite Hschema, find_app, Hfind.
  - intros Hschema. unfold getSourceColumnsForTable.
    destruct (tr_schema table); [reflexivity | contradiction].
Qed.

(** A CTE named [person] in front of the database table [person]. *)
Lemma getSourceColumnsForTable_scoping_witness :
  getSourceColumnsForTable Sample.client
    ([mkVirtualTable "person" [mkVirtualField "n" (Any true)]]
     ++ [mkVirtualTable "person" [mkVirtualField "m" (Any false)]])
    Sample.personRef (Some "")
  = Right [mkSourceColumn "person" "n" (Any true) false].
Proof.
  destruct (getSourceColumnsForTable_scoping Sample.client
              [mkVirtualTable "person" [mkVirtualField "n" (Any true)]]
              [mkVirtualTable "person" [mkVirtualField "m" (Any false)]]
              Sample.personRef (Some "")) as [Houter _].
  apply (Houter (mkVirtualTable "person" [mkVirtualField "n" (Any true)]));
    reflexivity.
Defined.

(* ------------------------------------------------------------------ *)
(** ** Further properties: statements and table expressions *)

Section Statements.

Variable client : SchemaClient.
Variable operatorNullSafety : string -> NullSafety.
Variable functionNullSafety : string -> NullSafety.
Variable Expression_equals : Expression -> Expression -> bool.

(** X9: an INSERT or DELETE without RETURNING has no output column, but its
    target table must still resolve: the result is the empty list when it
    does and the error of the lookup when it does not. *)
Theorem getOutputColumns_no_returning :
  forall (outsideCTEs : list VirtualTable) (table : TableRef)
         (as_ : option string),
    (forall columns_ values,
        getOutputColumns client operatorNullSafety functionNullSafety
          Expression_equals outsideCTEs (Insert table as_ columns_ values [])
        = EitherM.map (fun _ => [])
            (getSourceColumnsForTable client outsideCTEs table as_))
    /\ (forall where_,
           getOutputColumns client operatorNullSafety functionNullSafety
             Expression_equals outsideCTEs (Delete table as_ where_ [])
           = EitherM.map (fun _ => [])
               (getSourceColumnsForTable client outsideCTEs table as_))
    /\ (forall e columns_ values where_,
           getTable client (tr_schema table) (tr_table table) = Left e ->
           outsideCTEs = [] ->
           getOutputColumns client operatorNullSafety functionNullSafety
             Expression_equals outsideCTEs (Insert table as_ columns_ values [])
           = Left e
           /\ getOutputColumns client operatorNullSafety functionNullSafety
                Expression_equals outsideCTEs (Delete table as_ where_ [])
              = Left e).
Proof.
  intros outsideCTEs table as_. repeat apply conj.
  - intros columns_ values. cbn [getOutputColumns].
    destruct (getSourceColumnsForTable client outsideCTEs table as_);
      reflexivity.
  - intros where_. cbn [getOutputColumns].
    destruct (getSourceColumnsForTable client outsideCTEs table as_);
      reflexivity.
  - intros e columns_ values where_ Hlookup ->. cbn [getOutputColumns].
    unfold getSourceColumnsForTable.
    destruct (tr_schema table); cbn [List.find]; rewrite Hlookup;
      split; reflexivity.
Qed.

(** X10: a join reports the error of its left side, whatever its right
    side is; the error of the right side is reported when the left side
    succeeds.  This holds for every join type and for a join that is itself
    on the nullable side of another. *)
Theorem getSourceColumnsForTableExpr_join_errors :
  forall (ctes : list VirtualTable) (left_ right_ : TableExpression)
         (e : string) (setNullable : bool),
    (getSourceColumnsForTableExpr client operatorNullSafety functionNullSafety
       Expression_equals ctes (Some left_) false = Left e ->
     (forall joinType on_,
         getSourceColumnsForTableExpr client operatorNullSafety
           functionNullSafety Expression_equals ctes
           (Some (QualifiedJoin left_ joinType right_ on_)) setNullable
         = Left e)
     /\ getSourceColumnsForTableExpr client operatorNullSafety
          functionNullSafety Expression_equals ctes
          (Some (CrossJoin left_ right_)) setNullable
        = Left e)
    /\ (forall L,
           getSourceColumnsForTableExpr client operatorNullSafety
             functionNullSafety Expression_equals ctes (Some left_) false
           = Right L ->
           getSourceColumnsForTableExpr client operatorNullSafety
             functionNullSafety Expression_equals ctes (Some right_) false
           = Left e ->
           (forall joinType on_,
               getSourceColumnsForTableExpr client operatorNullSafety
                 functionNullSafety Expression_equals ctes
                 (Some (QualifiedJoin left_ joinType right_ on_)) setNullable
               = Left e)
           /\ getSourceColumnsForTableExpr client operatorNullSafety
                functionNullSafety Expression_equals ctes
                (Some (CrossJoin left_ right_)) setNullable
              = Left e).
Proof.
  unfold getSourceColumnsForTableExpr, getSourceColumnsForTableExpr_open.
  intros ctes left_ right_ e setNullable. split.
  - intros HL. split.
    + intros joinType on_. cbn [getSourceColumnsForTableExprRec].
      destruct joinType;
        rewrite ?getSourceColumnsForTableExprRec_setNullable, HL;
        reflexivity.
    + cbn [getSourceColumnsForTableExprRec]. now rewrite HL.
  - intros L HL HR. split.
    + intros joinType on_. cbn [getSourceColumnsForTableExprRec].
      destruct joinType;
        rewrite ?getSourceColumnsForTableExprRec_setNullable, HL, HR;
        reflexivity.
    + cbn [getSourceColumnsForTableExprRec]. now rewrite HL, HR.
Qed.

(** X11: whatever the table expression (a table, a subquery, nested
    joins), the columns computed for the nullable side of a join are the
    columns computed without the flag, each with [nullable] forced to true
    and nothing else changed; in particular all of them are nullable. *)
Theorem getSourceColumnsForTableExpr_setNullable :
  forall (ctes : list VirtualTable) (tableExpr : option TableExpression)
         (columns_ : list SourceColumn),
    getSourceColumnsForTableExpr client operatorNullSafety functionNullSafety
      Expression_equals ctes tableExpr true = Right columns_ ->
    Forall (fun col => nullable (sc_nullability col) = true) columns_
    /\ exists plain,
        getSourceColumnsForTableExpr client operatorNullSafety
          functionNullSafety Expression_equals ctes tableExpr false
        = Right plain
        /\ Forall2 becameNullable plain columns_.
Proof.
  unfold getSourceColumnsForTableExpr, getSourceColumnsForTableExpr_open.
  intros ctes [tableExpr|] columns_ Hcols.
  - rewrite getSourceColumnsForTableExprRec_setNullable in Hcols.
    destruct (getSourceColumnsForTableExprRec _ _ _ _ ctes tableExpr false)
      as [e|plain]; cbn in Hcols; [discriminate|].
    injection Hcols as <-. split.
    + clear. induction plain as [|col plain IH]; cbn; constructor;
        [now destruct (sc_nullability col) | exact IH].
    + exists plain. split; [reflexivity|].
      apply setSourceColumnsAsNullable_becameNullable.
  - injection Hcols as <-. split; [constructor|].
    exists []. split; [reflexivity | constructor].
Qed.

End Statements.

(** [DELETE FROM nosuch] and [INSERT INTO nosuch DEFAULT VALUES]. *)
Lemma getOutputColumns_no_returning_witness :
  getOutputColumns Sample.client Sample.operatorNullSafety
    Sample.functionNullSafety Sample.Expression_equals []
    (Insert (mkTableRef None "nosuch") None [] DefaultValues [])
  = Left "Unknown table nosuch"
  /\ getOutputColumns Sample.client Sample.operatorNullSafety
       Sample.functionNullSafety Sample.Expression_equals []
       (Delete (mkTableRef None "nosuch") None None [])
     = Left "Unknown table nosuch".
Proof.
  destruct (getOutputColumns_no_returning Sample.client
              Sample.operatorNullSafety Sample.functionNullSafety
              Sample.Expression_equals [] (mkTableRef None "nosuch") None)
    as (_ & _ & Herror).
  apply (Herror "Unknown table nosuch" [] DefaultValues None);
    reflexivity.
Defined.

(** [nosuch LEFT JOIN alsonot ON ...]: the error is that of the left side. *)
Lemma getSourceColumnsForTableExpr_join_errors_witness :
  getSourceColumnsForTableExpr Sample.client Sample.operatorNullSafety
    Sample.functionNullSafety Sample.Expression_equals []
    (Some
       (QualifiedJoin (TableExpr (mkTableRef None "nosuch") None) LEFT
          (TableExpr (mkTableRef None "alsonot") None)
          (Constant "true")))
    false
  = Left "Unknown table nosuch".
Proof.
  destruct (getSourceColumnsForTableExpr_join_errors Sample.client
              Sample.operatorNullSafety Sample.functionNullSafety
              Sample.Expression_equals []
              (TableExpr (mkTableRef None "nosuch") None)
              (TableExpr (mkTableRef None "alsonot") None)
              "Unknown table nosuch" false) as [Hleft _].
  destruct (Hleft eq_refl) as [Hjoin _].
  apply Hjoin.
Defined.

(** [person AS q] on the nullable side of a join. *)
Lemma getSourceColumnsForTableExpr_setNullable_witness :
  Forall (fun col => nullable (sc_nullability col) = true)
    [mkSourceColumn "q" "id" (Any true) false;
     mkSourceColumn "q" "name" (Any true) false;
     mkSourceColumn "q" "age" (Any true) false].
Proof.
  apply (getSourceColumnsForTableExpr_setNullable Sample.client
           Sample.operatorNullSafety Sample.functionNullSafety
           Sample.Expression_equals []
           (Some (TableExpr Sample.personRef (Some "q")))).
  reflexivity.
Defined.

(* ------------------------------------------------------------------ *)
(** ** Further properties: binding records of parameters *)

Lemma existsb_Permutation {A} (p : A -> bool) (l l' : list A) :
  Permutation l l' -> existsb p l = existsb p l'.
Proof.
  induction 1 as [|x l l' _ IH|x y l|l l' l'' _ IH1 _ IH2]; cbn.
  - reflexivity.
  - now rewrite IH.
  - destruct (p x), (p y); reflexivity.
  - now rewrite IH1.
Qed.

Lemma applyParamNullability_ext (stmt : StatementDescription)
  (records records' : list ParamNullability) :
  (forall i,
      existsb (fun r => (pn_index r =? Z.of_nat i)%Z && pn_nullable r) records
      = existsb (fun r => (pn_index r =? Z.of_nat i)%Z && pn_nullable r)
          records') ->
  applyParamNullability stmt records = applyParamNullability stmt records'.
Proof.
  intros Hext. unfold applyParamNullability. do 3 f_equal.
  apply List.map_ext. intros i. rewrite !existsb_filter. apply Hext.
Qed.

(** X12: merging the binding records does not depend on their order, and
    records whose index is negative or not below the number of parameters
    are ignored. *)
Theorem applyParamNullability_order :
  forall (stmt : StatementDescription) (records : list ParamNullability),
    (forall records',
        Permutation records records' ->
        applyParamNullability stmt records
        = applyParamNullability stmt records')
    /\ applyParamNullability stmt
         (List.filter
            (fun r =>
               (0 <=? pn_index r)%Z
               && (pn_index r <? Z.of_nat (List.length (params stmt)))%Z)
            records)
       = applyParamNullability stmt records.
Proof.
  intros stmt records. split.
  - intros records' Hperm. apply applyParamNullability_ext. intros i.
    now apply existsb_Permutation.
  - unfold applyParamNullability. do 3 f_equal.
    apply List.map_ext_in. intros i Hi. apply in_seq in Hi.
    rewrite !existsb_filter.
    induction records as [|r records IH]; [reflexivity|].
    cbn. destruct (Z.eqb_spec (pn_index r) (Z.of_nat i)) as [E|E].
    + assert (Hrange :
                (0 <=? pn_index r)%Z
                && (pn_index r <? Z.of_nat (List.length (params stmt)))%Z
                = true).
      { apply andb_true_iff. split;
          [apply Z.leb_le | apply Z.ltb_lt]; lia. }
      rewrite Hrange. cbn. now rewrite IH.
    + cbn. rewrite andb_false_r. exact IH.
Qed.

(** Two records of [$1] in either order. *)
Lemma applyParamNullability_order_witness :
  applyParamNullability (Sample.probed "insert" [] 1)
    [mkParamNullability 0 true; mkParamNullability 0 false]
  = applyParamNullability (Sample.probed "insert" [] 1)
      [mkParamNullability 0 false; mkParamNullability 0 true].
Proof.
  destruct (applyParamNullability_order (Sample.probed "insert" [] 1)
              [mkParamNullability 0 true; mkParamNullability 0 false])
    as [Hperm _].
  apply Hperm. apply perm_swap.
Defined.

Lemma In_filterMap_identity {A} (a : A) (l : list (option A)) :
  In a (filterMap_identity l) <-> In (Some a) l.
Proof.
  induction l as [|[x|] l IH]; cbn.
  - tauto.
  - rewrite IH. split; intros [H | H]; auto; left; congruence.
  - rewrite IH. split; [auto | intros [H | H]; [discriminate | exact H]].
Qed.

Lemma In_combine_nth_error {A B} (a : A) (b : B) (l1 : list A) :
  forall l2,
    In (a, b) (List.combine l1 l2)
    <-> exists j, nth_error l1 j = Some a /\ nth_error l2 j = Some b.
Proof.
  induction l1 as [|x l1 IH]; intros [|y l2]; cbn.
  - split; [contradiction | intros ([|j] & H & _); discriminate].
  - split; [contradiction | intros ([|j] & H & _); discriminate].
  - split; [contradiction | intros ([|j] & _ & H); discriminate].
  - rewrite IH. split.
    + intros [H | (j & Ha & Hb)].
      * injection H as -> ->. now exists 0%nat.
      * now exists (S j).
    + intros ([|j] & Ha & Hb); cbn in Ha, Hb.
      * left. congruence.
      * right. now exists j.
Qed.

(** Within the integers that doubles hold exactly, the subtraction is the
    subtraction of integers. *)
Lemma numberSub_exact (a b : Z) :
  (Z.abs (a - b) <= 2 ^ 53)%Z -> numberSub a b = (a - b)%Z.
Proof.
  intros Hsafe. unfold numberSub, roundToDouble. cbv zeta.
  destruct (Z.ltb_spec (Z.abs (a - b)) (2 ^ 53)) as [Hlt | Hge];
    [reflexivity|].
  assert (Hcases : (a - b = 2 ^ 53 \/ a - b = - 2 ^ 53)%Z) by lia.
  destruct Hcases as [-> | ->]; reflexivity.
Qed.

(** Beyond them the result is rounded: [$9007199254740994] gets the index
    9007199254740992, the double nearest to 9007199254740993. *)
Lemma paramIndexFromExpr_rounds :
  paramIndexFromExpr (Some (Parameter_ 9007199254740994))
  = Some 9007199254740992%Z
  /\ paramIndexFromExpr (Some (Parameter_ 9007199254740992))
     = Some 9007199254740991%Z
  /\ paramIndexFromExpr (Some (Parameter_ 1)) = Some 0%Z.
Proof. repeat split. Qed.

Lemma recordOfValue_paramIndexFromExpr (column : Column)
  (value : option Expression) :
  option_map
    (fun index => mkParamNullability index (column_nullable column))
    (paramIndexFromExpr value)
  = recordOfValue column value.
Proof. destruct value as [[]|]; reflexivity. Qed.

Lemma recordOfValue_Some (column : Column) (value : option Expression)
  (record : ParamNullability) :
  recordOfValue column value = Some record
  <-> exists k,
      value = Some (Parameter_ k)
      /\ record = mkParamNullability (numberSub k 1) (column_nullable column).
Proof.
  split.
  - destruct value as [[]|]; cbn; try discriminate.
    intros H. injection H as <-. eauto.
  - intros (k & -> & ->). reflexivity.
Qed.

Lemma filterMap_identity_concat {A} (ls : list (list (option A))) :
  filterMap_identity (List.concat ls)
  = List.concat (List.map filterMap_identity ls).
Proof.
  induction ls as [|l ls IH]; cbn; [reflexivity|].
  now rewrite filterMap_identity_app, IH.
Qed.

Lemma In_map_Right {E A B} (f : A -> Either E B) (l : list A)
  (bs : list B) (b : B) :
  List.map f l = List.map Right bs ->
  (In b bs <-> exists a, In a l /\ f a = Right b).
Proof.
  revert bs. induction l as [|a l IH]; intros [|b' bs] Hmap;
    try discriminate; cbn.
  - split; [contradiction | intros (a & [] & _)].
  - cbn in Hmap. injection Hmap as Ha Hrest. rewrite (IH bs Hrest). split.
    + intros [<- | (a' & Hin & Hf)]; [exists a; auto | exists a'; auto].
    + intros (a' & [<- | Hin] & Hf); [left; congruence | right; eauto].
Qed.

(** X13: the binding records of [INSERT INTO t (c1, ..) VALUES (..), ..]
    are, tuple after tuple and position after position, one record for every
    value that is a bare parameter [$k] standing at a position [j] for which
    a target column exists, with the nullability of the [j]-th target column
    and the index [k - 1] as the number subtraction gives it (exactly
    [k - 1] as long as that does not exceed 2^53 in absolute value).  A
    parameter inside a larger expression, a [DEFAULT] and a value beyond
    the last column give no record. *)
Theorem combineParamNullability_records :
  forall (valuesList : list (list (option Expression)))
         (numInsertColumns : nat) (targetColumns : list Column),
    combineParamNullability
      (findParamsFromValues (ExprValues valuesList) numInsertColumns)
      targetColumns
    = List.concat
        (List.map
           (fun tuple =>
              filterMap_identity
                (List.map
                   (fun cv => recordOfValue (fst cv) (snd cv))
                   (List.combine targetColumns tuple)))
           valuesList)
    /\ (forall record,
           In record
             (combineParamNullability
                (findParamsFromValues (ExprValues valuesList)
                   numInsertColumns)
                targetColumns)
           <-> exists tuple j column k,
               In tuple valuesList
               /\ nth_error targetColumns j = Some column
               /\ nth_error tuple j = Some (Some (Parameter_ k))
               /\ record
                  = mkParamNullability (numberSub k 1)
                      (column_nullable column))
    /\ (forall k,
           (Z.abs (k - 1) <= 2 ^ 53)%Z -> numberSub k 1 = (k - 1)%Z).
Proof.
  intros valuesList n targetColumns.
  assert (Hlist :
            combineParamNullability
              (findParamsFromValues (ExprValues valuesList) n) targetColumns
            = List.concat
                (List.map
                   (fun tuple =>
                      filterMap_identity
                        (List.map
                           (fun cv => recordOfValue (fst cv) (snd cv))
                           (List.combine targetColumns tuple)))
                   valuesList)).
  { unfold combineParamNullability. cbn [findParamsFromValues].
    rewrite filterMap_identity_concat, !List.map_map. f_equal.
    apply List.map_ext. intros tuple. f_equal.
    generalize targetColumns as cols.
    induction tuple as [|value tuple IH]; intros [|column cols]; cbn;
      try reflexivity.
    now rewrite IH, recordOfValue_paramIndexFromExpr. }
  repeat apply conj.
  - exact Hlist.
  - intros record. rewrite Hlist, in_concat. split.
    + intros (l & Hl & Hrecord).
      apply in_map_iff in Hl. destruct Hl as (tuple & <- & Htuple).
      apply In_filterMap_identity in Hrecord.
      apply in_map_iff in Hrecord.
      destruct Hrecord as ([column value] & Hsome & Hpair).
      cbn in Hsome. apply recordOfValue_Some in Hsome.
      destruct Hsome as (k & -> & ->).
      apply In_combine_nth_error in Hpair. destruct Hpair as (j & Hcol & Hval).
      exists tuple, j, column, k. auto.
    + intros (tuple & j & column & k & Htuple & Hcol & Hval & ->).
      exists (filterMap_identity
                (List.map
                   (fun cv => recordOfValue (fst cv) (snd cv))
                   (List.combine targetColumns tuple))).
      split.
      * apply in_map_iff. exists tuple. split; [reflexivity | exact Htuple].
      * apply In_filterMap_identity. apply in_map_iff.
        exists (column, Some (Parameter_ k)). split; [reflexivity|].
        apply In_combine_nth_error. eauto.
  - intros k. apply numberSub_exact.
Qed.

(** [INSERT INTO person (name, age) VALUES ($1, $2 + 1, $3)]: only [$1]
    gives a record. *)
Lemma combineParamNullability_records_witness :
  combineParamNullability
    (findParamsFromValues
       (ExprValues
          [[Some (Parameter_ 1);
            Some (BinaryOp (Parameter_ 2) "+" (Constant "1"));
            Some (Parameter_ 3)]])
       2)
    [mkColumn "name" (ValueType_any 1043) false false;
     mkColumn "age" (ValueType_any 23) true false]
  = [mkParamNullability 0 false]
  /\ numberSub 1 1 = 0%Z.
Proof.
  destruct (combineParamNullability_records
              [[Some (Parameter_ 1);
                Some (BinaryOp (Parameter_ 2) "+" (Constant "1"));
                Some (Parameter_ 3)]]
              2
              [mkColumn "name" (ValueType_any 1043) false false;
               mkColumn "age" (ValueType_any 23) true false])
    as (Hlist & _ & Hexact).
  split.
  - rewrite Hlist. reflexivity.
  - rewrite (Hexact 1%Z); [reflexivity|]. cbn. lia.
Defined.

Lemma combineParamNullability_default (n : nat) (targetColumns : list Column) :
  combineParamNullability (findParamsFromValues DefaultValues n) targetColumns
  = [].
Proof.
  unfold combineParamNullability. cbn. rewrite app_nil_r.
  revert n. induction targetColumns as [|column columns_ IH]; intros [|n];
    cbn; try reflexivity.
  apply IH.
Qed.

Lemma zipWith_seq_const {A B C} (f : A -> B -> C) (b : B) (l : list A) :
  forall start,
    zipWith f l (List.map (fun _ => b) (List.seq start (List.length l)))
    = List.map (fun a => f a b) l.
Proof.
  unfold zipWith. induction l as [|a l IH]; intros start; cbn;
    [reflexivity|].
  now rewrite IH.
Qed.

Lemma findTableColumn_Right (columnName : string) (table : Table)
  (column : Column) :
  findTableColumn columnName table = Right column ->
  column_name column = columnName /\ In column (table_columns table).
Proof.
  unfold findTableColumn.
  destruct (List.find _ (table_columns table)) as [found|] eqn:Efind; cbn;
    [|discriminate].
  intros H. injection H as <-.
  apply List.find_some in Efind. destruct Efind as [Hin Hname].
  split; [now apply String.eqb_eq | exact Hin].
Qed.

Lemma findTableColumn_Left (columnName : string) (table : Table) :
  (forall column,
      In column (table_columns table) -> column_name column <> columnName) ->
  findTableColumn columnName table
  = Left ("Unknown column " ++ columnName)%string.
Proof.
  intros Hnone. unfold findTableColumn.
  destruct (List.find _ (table_columns table)) as [found|] eqn:Efind;
    [|reflexivity].
  apply List.find_some in Efind. destruct Efind as [Hin Hname].
  apply String.eqb_eq in Hname. now apply Hnone in Hin.
Qed.

Section ParamRecords.

Variable client : SchemaClient.

(** X14: [INSERT ... DEFAULT VALUES] binds no parameter, but the pass still
    runs: when the table and the listed columns resolve, every parameter of
    the statement comes out non-nullable; when they do not, the pass fails
    with the error of the lookup. *)
Theorem inferParamNullability_default_values :
  forall (stmt : StatementDescription) (table : TableRef)
         (as_ : option string) (columns_ : list string)
         (returning : list SelectListItem),
    (forall targetColumns,
        findInsertColumns client table columns_ = Right targetColumns ->
        inferParamNullability client stmt
          (Insert table as_ columns_ DefaultValues returning)
        = Right
            (mkStatementDescription (sql stmt) (columns stmt)
               (List.map
                  (fun param => mkParamDescription (pd_type param) false)
                  (params stmt))
               (rowCount stmt)))
    /\ (forall e,
           findInsertColumns client table columns_ = Left e ->
           inferParamNullability client stmt
             (Insert table as_ columns_ DefaultValues returning)
           = Left e).
Proof.
  intros stmt table as_ columns_ returning. split.
  - intros targetColumns Hcols.
    unfold inferParamNullability. cbn [getParamNullability].
    rewrite Hcols. cbn [EitherM.ap EitherM.chain].
    rewrite combineParamNullability_default.
    unfold applyParamNullability. cbn [List.filter existsb].
    now rewrite zipWith_seq_const.
  - intros e Hcols.
    unfold inferParamNullability. cbn [getParamNullability].
    now rewrite Hcols.
Qed.

(** X15: the target columns of an INSERT are looked up by name in the
    table, in the order of the column list: on success there is one column
    per name, carrying that name; otherwise the error is that of the table
    lookup, or names the first column of the list that the table does not
    have. *)
Theorem findInsertColumns_lookup :
  forall (table : TableRef) (columnNames : list string),
    (forall e,
        getTable client (tr_schema table) (tr_table table) = Left e ->
        findInsertColumns client table columnNames = Left e)
    /\ (forall dbTable,
           getTable client (tr_schema table) (tr_table table)
           = Right dbTable ->
           (forall targetColumns,
               findInsertColumns client table columnNames
               = Right targetColumns ->
               Forall2
                 (fun name column =>
                    column_name column = name
                    /\ In column (table_columns dbTable))
                 columnNames targetColumns)
           /\ (forall known unknown rest,
                  columnNames = known ++ unknown :: rest ->
                  (forall name,
                      In name known ->
                      exists column,
                        In column (table_columns dbTable)
                        /\ column_name column = name) ->
                  (forall column,
                      In column (table_columns dbTable) ->
                      column_name column <> unknown) ->
                  findInsertColumns client table columnNames
                  = Left ("Unknown column " ++ unknown)%string)).
Proof.
  intros table columnNames. unfold findInsertColumns. split.
  - intros e ->. reflexivity.
  - intros dbTable ->. cbn [EitherM.chain]. split.
    + intros targetColumns Hseq.
      apply sequenceAE_Right_inv in Hseq.
      revert targetColumns Hseq.
      induction columnNames as [|name names IH];
        intros [|column targetColumns] Hmap; try discriminate;
        constructor.
      * cbn in Hmap. injection Hmap as Hcol _.
        now apply findTableColumn_Right.
      * cbn in Hmap. injection Hmap as _ Hrest. now apply IH.
    + intros known unknown rest -> Hknown Hunknown.
      induction known as [|name known IH]; cbn.
      * now rewrite (@findTableColumn_Left unknown dbTable Hunknown).
      * destruct (Hknown name (or_introl eq_refl)) as (column & Hin & Hname).
        unfold findTableColumn at 1.
        destruct (List.find _ (table_columns dbTable)) as [found|] eqn:Efind.
        -- cbn. rewrite IH; [reflexivity|].
           intros n Hn. apply Hknown. now right.
        -- exfalso. apply (List.find_none _ _ Efind) in Hin.
           apply String.eqb_neq in Hin. contradiction.
Qed.

Lemma updateToParamNullability_Right (dbTable : Table)
  (update : UpdateAssignment) (record : option ParamNullability) :
  updateToParamNullability dbTable update = Right record
  <-> exists column,
      findTableColumn (ua_columnName update) dbTable = Right column
      /\ record = recordOfValue column (ua_value update).
Proof.
  unfold updateToParamNullability, makeParamNullability. cbn. split.
  - destruct (findTableColumn (ua_columnName update) dbTable)
      as [e|column]; [discriminate|].
    intros H. injection H as <-. exists column. split; [reflexivity|].
    apply recordOfValue_paramIndexFromExpr.
  - intros (column & -> & ->).
    now rewrite recordOfValue_paramIndexFromExpr.
Qed.

(** X16: the binding records of [UPDATE t SET c = v, ..]: the pass
    succeeds exactly when the table resolves and every assigned column
    exists in it, whether or not its value is a parameter; the records are
    then, in the order of the assignments, one per assignment whose value is
    a bare parameter [$k], with the nullability of the assigned column and
    the index [k - 1] as the number subtraction gives it (exactly [k - 1]
    as long as that does not exceed 2^53 in absolute value). *)
Theorem findParamNullabilityFromUpdates_records :
  forall (table : TableRef) (updates : list UpdateAssignment)
         (dbTable : Table),
    getTable client (tr_schema table) (tr_table table) = Right dbTable ->
    (forall records,
        findParamNullabilityFromUpdates client table updates = Right records ->
        (exists assigned,
            Forall2
              (fun update column =>
                 findTableColumn (ua_columnName update) dbTable
                 = Right column)
              updates assigned
            /\ records
               = filterMap_identity
                   (List.map
                      (fun uc => recordOfValue (snd uc) (ua_value (fst uc)))
                      (List.combine updates assigned)))
        /\ forall record,
            In record records
            <-> exists update column k,
                In update updates
                /\ findTableColumn (ua_columnName update) dbTable
                   = Right column
                /\ ua_value update = Some (Parameter_ k)
                /\ record
                   = mkParamNullability (numberSub k 1)
                       (column_nullable column))
    /\ ((exists records,
            findParamNullabilityFromUpdates client table updates
            = Right records)
        <-> Forall
              (fun update =>
                 exists column,
                   findTableColumn (ua_columnName update) dbTable
                   = Right column)
              updates)
    /\ (forall k,
           (Z.abs (k - 1) <= 2 ^ 53)%Z -> numberSub k 1 = (k - 1)%Z).
Proof.
  intros table updates dbTable Htable.
  unfold findParamNullabilityFromUpdates. rewrite Htable.
  cbn [EitherM.chain]. split; [|split].
  - intros records Hrecords.
    destruct (sequenceAE _) as [e|options] eqn:Eseq; cbn in Hrecords;
      [discriminate|].
    injection Hrecords as <-.
    apply sequenceAE_Right_inv in Eseq. split.
    + revert options Eseq.
      induction updates as [|update updates IH];
        intros [|option options] Hmap; try discriminate.
      * exists []. split; [constructor | reflexivity].
      * cbn in Hmap. injection Hmap as Hupdate Hrest.
        apply updateToParamNullability_Right in Hupdate.
        destruct Hupdate as (column & Hcolumn & ->).
        destruct (IH options Hrest) as (assigned & Hall & Heq).
        exists (column :: assigned). split; [now constructor|].
        cbn [List.combine List.map fst snd].
        destruct (recordOfValue column (ua_value update)); cbn;
          now rewrite Heq.
    + intros record. rewrite In_filterMap_identity.
      rewrite (@In_map_Right _ _ _ _ _ _ (Some record) Eseq). split.
      * intros (update & Hin & Hupdate).
        apply updateToParamNullability_Right in Hupdate.
        destruct Hupdate as (column & Hcolumn & Hrecord).
        symmetry in Hrecord. apply recordOfValue_Some in Hrecord.
        destruct Hrecord as (k & Hvalue & ->).
        exists update, column, k. auto.
      * intros (update & column & k & Hin & Hcolumn & Hvalue & ->).
        exists update. split; [exact Hin|].
        apply updateToParamNullability_Right. exists column.
        split; [exact Hcolumn|]. now rewrite Hvalue.
  - split.
    + intros [records Hrecords].
      destruct (sequenceAE _) as [e|options] eqn:Eseq; cbn in Hrecords;
        [discriminate|].
      clear Hrecords. apply sequenceAE_Right_inv in Eseq.
      revert options Eseq.
      induction updates as [|update updates IH];
        intros [|option options] Hmap; try discriminate; constructor.
      * cbn in Hmap. injection Hmap as Hupdate _.
        apply updateToParamNullability_Right in Hupdate.
        destruct Hupdate as (column & Hcolumn & _). eauto.
      * cbn in Hmap. injection Hmap as _ Hrest. now apply (IH options).
    + intros Hall.
      assert (Hseq :
                exists options,
                  sequenceAE
                    (List.map
                       (fun update => updateToParamNullability dbTable update)
                       updates)
                  = Right options).
      { apply sequenceAE_map_Right.
        induction Hall as [|update updates [column Hcolumn] _ IH];
          constructor; [|exact IH].
        eexists. apply updateToParamNullability_Right. eauto. }
      destruct Hseq as [options ->]. cbn. eauto.
  - intros k. apply numberSub_exact.
Qed.

End ParamRecords.

(** [INSERT INTO person (name, nosuch) DEFAULT VALUES]. *)
Lemma inferParamNullability_default_values_witness :
  inferParamNullability Sample.client (Sample.probed "insert" [] 1)
    (Insert Sample.personRef None ["name"; "nosuch"] DefaultValues [])
  = Left "Unknown column nosuch"
  /\ inferParamNullability Sample.client (Sample.probed "insert" [] 1)
       (Insert Sample.personRef None ["name"] DefaultValues [])
     = Right
         (mkStatementDescription "insert" []
            [mkParamDescription (ValueType_any 23) false] many).
Proof.
  split.
  - apply inferParamNullability_default_values. reflexivity.
  - destruct (inferParamNullability_default_values Sample.client
                (Sample.probed "insert" [] 1) Sample.personRef None ["name"]
                []) as [Hok _].
    apply (Hok [mkColumn "name" (ValueType_any 1043) false false]).
    reflexivity.
Defined.

(** [INSERT INTO person (name, nosuch, age)]. *)
Lemma findInsertColumns_lookup_witness :
  findInsertColumns Sample.client Sample.personRef ["name"; "nosuch"; "age"]
  = Left "Unknown column nosuch".
Proof.
  destruct (findInsertColumns_lookup Sample.client Sample.personRef
              ["name"; "nosuch"; "age"]) as [_ Hfound].
  destruct (Hfound Sample.person eq_refl) as [_ Hunknown].
  apply (Hunknown ["name"] "nosuch" ["age"]).
  - reflexivity.
  - intros name [<- | []]. eexists. split; [right; left; reflexivity|].
    reflexivity.
  - intros column [<- | [<- | [<- | []]]]; discriminate.
Defined.

(** [UPDATE person SET name = $1, age = age + $2]: one record, for [$1]. *)
Lemma findParamNullabilityFromUpdates_records_witness :
  findParamNullabilityFromUpdates Sample.client Sample.personRef
    [mkUpdateAssignment "name" (Some (Parameter_ 1));
     mkUpdateAssignment "age"
       (Some (BinaryOp (ColumnRef "age") "+" (Parameter_ 2)))]
  = Right [mkParamNullability 0 false]
  /\ exists update column k,
      In update
        [mkUpdateAssignment "name" (Some (Parameter_ 1));
         mkUpdateAssignment "age"
           (Some (BinaryOp (ColumnRef "age") "+" (Parameter_ 2)))]
      /\ findTableColumn (ua_columnName update) Sample.person = Right column
      /\ ua_value update = Some (Parameter_ k)
      /\ mkParamNullability 0 false
         = mkParamNullability (numberSub k 1) (column_nullable column).
Proof.
  split; [reflexivity|].
  destruct (findParamNullabilityFromUpdates_records Sample.client
              Sample.personRef
              [mkUpdateAssignment "name" (Some (Parameter_ 1));
               mkUpdateAssignment "age"
                 (Some (BinaryOp (ColumnRef "age") "+" (Parameter_ 2)))]
              eq_refl) as [Hrecords _].
  destruct (Hrecords [mkParamNullability 0 false] eq_refl) as [_ Hin].
  apply Hin. now left.
Defined.

(* ------------------------------------------------------------------ *)
(** ** Further properties: what the passes leave untouched *)

Lemma nth_error_zipWith {A B C} (f : A -> B -> C) (la : list A) :
  forall (lb : list B) (i : nat),
    nth_error (zipWith f la lb) i
    = match nth_error la i, nth_error lb i with
      | Some a, Some b => Some (f a b)
      | _, _ => None
      end.
Proof.
  unfold zipWith. induction la as [|a la IH]; intros [|b lb] [|i]; cbn;
    try reflexivity.
  - now destruct (nth_error la i).
  - apply IH.
Qed.

Lemma map_zipWith_left {A B C D} (f : A -> B -> C) (g : C -> D) (h : A -> D)
  (la : list A) :
  (forall a b, g (f a b) = h a) ->
  forall lb,
    List.length lb = List.length la ->
    List.map g (zipWith f la lb) = List.map h la.
Proof.
  intros Hgf. unfold zipWith.
  induction la as [|a la IH]; intros [|b lb] Hlen; try discriminate; cbn;
    [reflexivity|].
  rewrite Hgf. f_equal. apply IH. now injection Hlen.
Qed.

Lemma applyColumnNullability_Right (stmt s : StatementDescription)
  (outputColumns : list VirtualField) :
  applyColumnNullability stmt outputColumns = Right s ->
  List.length outputColumns = List.length (columns stmt)
  /\ s = mkStatementDescription (sql stmt)
           (zipWith enrichedColumn (columns stmt) outputColumns)
           (params stmt) (rowCount stmt).
Proof.
  unfold applyColumnNullability.
  destruct (List.length outputColumns =? List.length (columns stmt))%nat
    eqn:Elen; cbn; [|discriminate].
  destruct (String.concat ", " (List.map vf_name outputColumns)
            =? String.concat ", " (List.map cd_name (columns stmt)));
    cbn; [|discriminate].
  intros H. injection H as <-. apply Nat.eqb_eq in Elen.
  split; [exact Elen|]. f_equal. unfold zipWith.
  apply List.map_ext. intros [column inferred]. unfold enrichedColumn. cbn.
  now destruct (vf_nullability inferred).
Qed.

(** X17: when the column pass accepts the inferred columns, it changes
    nothing but the columns, keeps their number, order and names, and sets
    each column from the inferred field at the same position: [nullable] is
    the inferred flag; the type is untouched for a scalar and becomes an
    array type of the same oid with the inferred element nullability for an
    array. *)
Theorem applyColumnNullability_frame :
  forall (stmt s : StatementDescription) (outputColumns : list VirtualField),
    applyColumnNullability stmt outputColumns = Right s ->
    sql s = sql stmt
    /\ params s = params stmt
    /\ rowCount s = rowCount stmt
    /\ List.map cd_name (columns s) = List.map cd_name (columns stmt)
    /\ List.map (fun c => vt_oid (cd_type c)) (columns s)
       = List.map (fun c => vt_oid (cd_type c)) (columns stmt)
    /\ forall i column inferred,
        nth_error (columns stmt) i = Some column ->
        nth_error outputColumns i = Some inferred ->
        nth_error (columns s) i
        = Some
            (mkColumnDescription (cd_name column)
               (match vf_nullability inferred with
                | Any _ => cd_type column
                | Array _ elemNullable =>
                    ValueType_array (vt_oid (cd_type column)) elemNullable
                end)
               (nullable (vf_nullability inferred))).
Proof.
  intros stmt s outputColumns Happly.
  destruct (applyColumnNullability_Right _ _ Happly) as [Hlen ->]. cbn.
  repeat apply conj; try reflexivity.
  - now apply map_zipWith_left.
  - apply map_zipWith_left; [|exact Hlen].
    intros column inferred. unfold enrichedColumn. cbn.
    now destruct (vf_nullability inferred).
  - intros i column inferred Hcolumn Hinferred.
    now rewrite nth_error_zipWith, Hcolumn, Hinferred.
Qed.

(** An [ARRAY(...)] column: the oid stays, the element nullability is
    set. *)
Lemma applyColumnNullability_frame_witness :
  exists s,
    applyColumnNullability
      (mkStatementDescription "select"
         [mkColumnDescription "ids" (ValueType_any 1007) true] [] many)
      [mkVirtualField "ids" (Array false true)]
    = Right s
    /\ nth_error (columns s) 0
       = Some (mkColumnDescription "ids" (ValueType_array 1007 true) false).
Proof.
  eexists. split; [reflexivity|].
  destruct (applyColumnNullability_frame
              (mkStatementDescription "select"
                 [mkColumnDescription "ids" (ValueType_any 1007) true] []
                 many)
              [mkVirtualField "ids" (Array false true)] eq_refl)
    as (_ & _ & _ & _ & _ & Hnth).
  apply (Hnth 0%nat (mkColumnDescription "ids" (ValueType_any 1007) true)
           (mkVirtualField "ids" (Array false true)));
    reflexivity.
Defined.

Lemma applyParamNullability_types (stmt s : StatementDescription)
  (records : list ParamNullability) :
  applyParamNullability stmt records = Right s ->
  sql s = sql stmt /\ columns s = columns stmt
  /\ rowCount s = rowCount stmt
  /\ List.map pd_type (params s) = List.map pd_type (params stmt).
Proof.
  unfold applyParamNullability. intros H. injection H as <-. cbn.
  repeat apply conj; try reflexivity.
  apply map_zipWith_left; [reflexivity|].
  now rewrite List.length_map, List.length_seq.
Qed.

(** X18: whatever the parser, the schema and the statement, the description
    returned by the entry point has the SQL text of the probed one, the same
    columns by number, order, name and oid, and the same parameters by
    number, order and type: inference only ever changes nullability flags,
    array element nullability and the row count.  Either nothing is
    written to the console, or two messages are, the first being the parser
    warning, and the description is the probed one. *)
Theorem inferStatementNullability_frame :
  forall (client : SchemaClient)
         (operatorNullSafety functionNullSafety : string -> NullSafety)
         (Expression_equals : Expression -> Expression -> bool)
         (parse : string -> Either string AST)
         (verbose : bool) (statement : StatementDescription),
  exists s,
    snd (inferStatementNullability client operatorNullSafety
           functionNullSafety Expression_equals parse verbose statement)
    = Right s
    /\ sql s = sql statement
    /\ List.map cd_name (columns s) = List.map cd_name (columns statement)
    /\ List.map (fun c => vt_oid (cd_type c)) (columns s)
       = List.map (fun c => vt_oid (cd_type c)) (columns statement)
    /\ List.map pd_type (params s) = List.map pd_type (params statement)
    /\ (fst (inferStatementNullability client operatorNullSafety
               functionNullSafety Expression_equals parse verbose statement)
        = []
        \/ (s = statement
            /\ exists detail,
                fst (inferStatementNullability client operatorNullSafety
                       functionNullSafety Expression_equals parse verbose
                       statement)
                = [parserWarning; detail])).
Proof.
  intros client operatorNullSafety functionNullSafety Expression_equals
    parse verbose statement.
  unfold inferStatementNullability, inferColumnNullability.
  assert (Hfallback :
            forall e : string,
            exists s,
              @Right string StatementDescription statement = Right s
              /\ sql s = sql statement
              /\ List.map cd_name (columns s)
                 = List.map cd_name (columns statement)
              /\ List.map (fun c => vt_oid (cd_type c)) (columns s)
                 = List.map (fun c => vt_oid (cd_type c)) (columns statement)
              /\ List.map pd_type (params s)
                 = List.map pd_type (params statement)
              /\ ([parserWarning;
                   if verbose then verboseWarning e else terseWarning]
                  = @nil string
                  \/ (s = statement
                      /\ exists detail,
                          [parserWarning;
                           if verbose then verboseWarning e else terseWarning]
                          = [parserWarning; detail]))).
  { intros e. exists statement. repeat apply conj; try reflexivity.
    right. split; [reflexivity | eauto]. }
  destruct (parse (sql statement)) as [e|astNode]; cbn [EitherM.chain];
    [apply Hfallback|].
  destruct (getOutputColumns client operatorNullSafety functionNullSafety
              Expression_equals [] astNode) as [e|outputColumns];
    cbn [EitherM.chain EitherM.map]; [apply Hfallback|].
  destruct (applyColumnNullability statement outputColumns) as [e|stmt]
    eqn:Ecolumns; cbn [EitherM.chain EitherM.map]; [apply Hfallback|].
  destruct (applyColumnNullability_Right _ _ Ecolumns) as [Hlen Hstmt].
  assert (Hcolumns :
            sql stmt = sql statement
            /\ List.map cd_name (columns stmt)
               = List.map cd_name (columns statement)
            /\ List.map (fun c => vt_oid (cd_type c)) (columns stmt)
               = List.map (fun c => vt_oid (cd_type c)) (columns statement)
            /\ params stmt = params statement).
  { rewrite Hstmt. cbn. repeat apply conj; try reflexivity.
    - now apply map_zipWith_left.
    - apply map_zipWith_left; [|exact Hlen].
      intros column inferred. unfold enrichedColumn. cbn.
      now destruct (vf_nullability inferred). }
  destruct Hcolumns as (Hsql & Hnames & Hoids & Hparams).
  unfold inferParamNullability.
  destruct (getParamNullability client astNode) as [e|[records|]];
    cbn [EitherM.chain EitherM.map]; [apply Hfallback | |].
  - destruct (applyParamNullability stmt records) as [e|stmt'] eqn:Eparams;
      cbn [EitherM.map]; [apply Hfallback|].
    destruct (applyParamNullability_types Eparams)
      as (Hsql' & Hcols' & _ & Htypes').
    eexists. split; [reflexivity|]. cbn.
    rewrite Hsql', Hcols', Htypes', Hparams.
    repeat apply conj; auto.
  - eexists. split; [reflexivity|]. cbn. rewrite Hparams.
    repeat apply conj; auto.
Qed.

(* ------------------------------------------------------------------ *)
(** ** Further properties: the module list of the command line *)

Lemma findIndex_none {A} (pred : A -> bool) (l : list A) :
  (forall x, In x l -> pred x = false) -> findIndex pred l = (-1)%Z.
Proof.
  induction l as [|x l IH]; intros Hnone; cbn; [reflexivity|].
  rewrite (Hnone x (or_introl eq_refl)).
  rewrite IH by (intros y Hy; apply Hnone; now right). reflexivity.
Qed.

Lemma findIndex_first {A} (pred : A -> bool) (pre : list A) (x : A)
  (post : list A) :
  (forall y, In y pre -> pred y = false) ->
  pred x = true ->
  findIndex pred (pre ++ x :: post) = Z.of_nat (List.length pre).
Proof.
  intros Hpre Hx. induction pre as [|y pre IH]; cbn.
  - now rewrite Hx.
  - rewrite (Hpre y (or_introl eq_refl)).
    rewrite IH by (intros z Hz; apply Hpre; now right).
    destruct (Z.ltb_spec (Z.of_nat (List.length pre)) 0); lia.
Qed.

Lemma unsafeUpdateAt_middle {A} (pre : list A) (x a : A) (post : list A) :
  unsafeUpdateAt (List.length pre) a (pre ++ x :: post) = pre ++ a :: post.
Proof. induction pre as [|y pre IH]; cbn; [reflexivity | now rewrite IH]. Qed.

Lemma first_match_split {A} (pred : A -> bool) (l : list A) :
  (forall x, In x l -> pred x = false)
  \/ exists pre x post,
      l = pre ++ x :: post
      /\ (forall y, In y pre -> pred y = false)
      /\ pred x = true.
Proof.
  induction l as [|a l IH].
  - left. intros x [].
  - destruct (pred a) eqn:Ea.
    + right. exists [], a, l. repeat apply conj; auto. intros y [].
    + destruct IH as [Hnone | (pre & x & post & -> & Hpre & Hx)].
      * left. intros x [<- | Hin]; auto.
      * right. exists (a :: pre), x, post. repeat apply conj; auto.
        intros y [<- | Hin]; auto.
Qed.

Lemma modifyWhere_cases :
  forall (A : Type) (pred : A -> bool) (replacer : A -> A) (l : list A),
    ((forall x, In x l -> pred x = false) ->
     modifyWhere pred replacer l = None)
    /\ (forall pre x post,
           l = pre ++ x :: post ->
           (forall y, In y pre -> pred y = false) ->
           pred x = true ->
           modifyWhere pred replacer l = Some (pre ++ replacer x :: post)).
Proof.
  intros A pred replacer l. split.
  - intros Hnone. unfold modifyWhere, modifyAt.
    now rewrite (findIndex_none pred l Hnone).
  - intros pre x post -> Hpre Hx. unfold modifyWhere, modifyAt.
    rewrite (findIndex_first pred pre x post Hpre Hx).
    rewrite Nat2Z.id, List.length_app. cbn [List.length].
    destruct (Z.ltb_spec (Z.of_nat (List.length pre)) 0); [lia|].
    destruct (Z.leb_spec
                (Z.of_nat (List.length pre + S (List.length post)))
                (Z.of_nat (List.length pre))); [lia|].
    cbn [orb].
    rewrite List.nth_error_app2 by lia. rewrite Nat.sub_diag. cbn.
    rewrite List.app_nth2 by lia. rewrite Nat.sub_diag. cbn.
    now rewrite unsafeUpdateAt_middle.
Qed.

(** X19: [modifyWhere] replaces the first element that satisfies the
    predicate, and only that one, leaving the order of the list as it is; it
    returns nothing when no element satisfies the predicate (the index -1
    of [findIndex] is then rejected by [modifyAt]). *)
Theorem modifyWhere_first_match :
  forall (A : Type) (pred : A -> bool) (replacer : A -> A) (l : list A),
    ((forall x, In x l -> pred x = false) ->
     modifyWhere pred replacer l = None)
    /\ (forall pre x post,
           l = pre ++ x :: post ->
           (forall y, In y pre -> pred y = false) ->
           pred x = true ->
           modifyWhere pred replacer l = Some (pre ++ replacer x :: post)).
Proof.
  intros A pred replacer l. exact (modifyWhere_cases pred replacer l).
Qed.

(** The second of two matching elements is left alone. *)
Lemma modifyWhere_first_match_witness :
  modifyWhere (fun n => (n =? 2)%nat) (fun n => (n + 10)%nat)
    [1; 2; 3; 2]%nat
  = Some [1; 12; 3; 2]%nat.
Proof.
  destruct (modifyWhere_first_match (fun n => (n =? 2)%nat)
              (fun n => (n + 10)%nat) [1; 2; 3; 2]%nat) as [_ Hfirst].
  apply (Hfirst [1]%nat 2%nat [3; 2]%nat); [reflexivity | | reflexivity].
  intros y [<- | []]. reflexivity.
Defined.

Section TsModuleList.

Variable TsModule : Type.
Variable sqlFileName : TsModule -> string.

Lemma replaceOrAddTsModule_cases (tsModule : TsModule)
  (tsModules : list TsModule) :
  ((forall m, In m tsModules -> sqlFileName m <> sqlFileName tsModule)
   /\ replaceOrAddTsModule sqlFileName tsModule tsModules
      = tsModules ++ [tsModule])
  \/ exists pre old post,
      tsModules = pre ++ old :: post
      /\ (forall m, In m pre -> sqlFileName m <> sqlFileName tsModule)
      /\ sqlFileName old = sqlFileName tsModule
      /\ replaceOrAddTsModule sqlFileName tsModule tsModules
         = pre ++ tsModule :: post.
Proof.
  unfold replaceOrAddTsModule.
  destruct (first_match_split
              (fun mod_ => sqlFileName mod_ =? sqlFileName tsModule)
              tsModules) as [Hnone | (pre & old & post & -> & Hpre & Hold)].
  - left. split.
    + intros m Hin. apply String.eqb_neq. now apply Hnone.
    + destruct (modifyWhere_cases
                  (fun mod_ => sqlFileName mod_ =? sqlFileName tsModule)
                  (fun _ => tsModule) tsModules) as [Habsent _].
      now rewrite (Habsent Hnone).
  - right. exists pre, old, post. repeat apply conj.
    + reflexivity.
    + intros m Hin. apply String.eqb_neq. now apply Hpre.
    + now apply String.eqb_eq.
    + destruct (modifyWhere_cases
                  (fun mod_ => sqlFileName mod_ =? sqlFileName tsModule)
                  (fun _ => tsModule) (pre ++ old :: post)) as [_ Hfirst].
      now rewrite (Hfirst pre old post eq_refl Hpre Hold).
Qed.

Lemma replaceOrAddTsModule_kept :
  forall (tsModule : TsModule) (tsModules : list TsModule),
    In tsModule (replaceOrAddTsModule sqlFileName tsModule tsModules)
    /\ (forall other,
           sqlFileName other <> sqlFileName tsModule ->
           (In other (replaceOrAddTsModule sqlFileName tsModule tsModules)
            <-> In other tsModules))
    /\ (NoDup (List.map sqlFileName tsModules) ->
        NoDup
          (List.map sqlFileName
             (replaceOrAddTsModule sqlFileName tsModule tsModules)))
    /\ ((exists old,
            In old tsModules /\ sqlFileName old = sqlFileName tsModule) ->
        List.map sqlFileName
          (replaceOrAddTsModule sqlFileName tsModule tsModules)
        = List.map sqlFileName tsModules)
    /\ ((forall old,
            In old tsModules -> sqlFileName old <> sqlFileName tsModule) ->
        replaceOrAddTsModule sqlFileName tsModule tsModules
        = tsModules ++ [tsModule]).
Proof.
  intros tsModule tsModules.
  destruct (replaceOrAddTsModule_cases tsModule tsModules)
    as [[Hnone ->] | (pre & old & post & -> & Hpre & Hold & ->)].
  - repeat apply conj.
    + apply in_or_app. right. now left.
    + intros other Hother. rewrite in_app_iff. cbn. split; [|tauto].
      intros [Hin | [<- | []]]; [exact Hin | exfalso; now apply Hother].
    + intros Hnodup. rewrite List.map_app. cbn.
      apply NoDup_app; [exact Hnodup | repeat constructor; intros [] |].
      intros name Hname [<- | []].
      apply in_map_iff in Hname. destruct Hname as (m & Hm & Hin).
      now apply (Hnone m Hin).
    + intros (old & Hin & Hold). now apply Hnone in Hin.
    + reflexivity.
  - repeat apply conj.
    + apply in_or_app. right. now left.
    + intros other Hother. rewrite !in_app_iff. cbn. split.
      * intros [Hin | [<- | Hin]];
          [tauto | exfalso; now apply Hother | tauto].
      * intros [Hin | [<- | Hin]]; [tauto | | tauto].
        exfalso. now apply Hother.
    + rewrite !List.map_app. cbn. now rewrite Hold.
    + intros _. rewrite !List.map_app. cbn. now rewrite Hold.
    + intros Hnone. exfalso. apply (Hnone old); [|exact Hold].
      apply in_or_app. right. now left.
Qed.

(** X20: adding a generated module to the list of a directory puts it in
    the place of the first module generated from the same SQL file (the
    modules before and after it, later ones of the same file included, stay
    where they are), or at the end when there is none.  The module is in the
    result, the modules of other SQL files are kept, a list with one module
    per SQL file stays such a list, and replacing leaves the order of the
    file names as it was. *)
Theorem replaceOrAddTsModule_invariants :
  forall (tsModule : TsModule) (tsModules : list TsModule),
    In tsModule (replaceOrAddTsModule sqlFileName tsModule tsModules)
    /\ (forall other,
           sqlFileName other <> sqlFileName tsModule ->
           (In other (replaceOrAddTsModule sqlFileName tsModule tsModules)
            <-> In other tsModules))
    /\ (NoDup (List.map sqlFileName tsModules) ->
        NoDup
          (List.map sqlFileName
             (replaceOrAddTsModule sqlFileName tsModule tsModules)))
    /\ ((exists old,
            In old tsModules /\ sqlFileName old = sqlFileName tsModule) ->
        List.map sqlFileName
          (replaceOrAddTsModule sqlFileName tsModule tsModules)
        = List.map sqlFileName tsModules)
    /\ ((forall old,
            In old tsModules -> sqlFileName old <> sqlFileName tsModule) ->
        replaceOrAddTsModule sqlFileName tsModule tsModules
        = tsModules ++ [tsModule])
    /\ (forall pre old post,
           tsModules = pre ++ old :: post ->
           (forall m, In m pre -> sqlFileName m <> sqlFileName tsModule) ->
           sqlFileName old = sqlFileName tsModule ->
           replaceOrAddTsModule sqlFileName tsModule tsModules
           = pre ++ tsModule :: post).
Proof.
  intros tsModule tsModules.
  destruct (replaceOrAddTsModule_kept tsModule tsModules)
    as (Hin & Hothers & Hnodup & Hnames & Hend).
  repeat apply conj; try assumption.
  intros pre old post -> Hpre Hold. unfold replaceOrAddTsModule.
  destruct (modifyWhere_cases
              (fun mod_ => sqlFileName mod_ =? sqlFileName tsModule)
              (fun _ => tsModule) (pre ++ old :: post)) as [_ Hmatch].
  rewrite (Hmatch pre old post eq_refl); [reflexivity | |].
  - intros m Hm. apply String.eqb_neq. now apply Hpre.
  - now apply String.eqb_eq.
Qed.

(** X21: removing the modules of a SQL file undoes an addition and
    prepares one: after adding a module, removing its SQL file gives the
    list that removing it from the original list gives; and adding a module
    after removing its SQL file appends it.  No module of the removed file
    is left, and the others are kept. *)
Theorem removeTsModule_round_trip :
  forall (tsModule : TsModule) (tsModules : list TsModule),
    removeTsModule sqlFileName (sqlFileName tsModule)
      (replaceOrAddTsModule sqlFileName tsModule tsModules)
    = removeTsModule sqlFileName (sqlFileName tsModule) tsModules
    /\ replaceOrAddTsModule sqlFileName tsModule
         (removeTsModule sqlFileName (sqlFileName tsModule) tsModules)
       = removeTsModule sqlFileName (sqlFileName tsModule) tsModules
         ++ [tsModule]
    /\ forall name other,
        In other (removeTsModule sqlFileName name tsModules)
        <-> In other tsModules /\ sqlFileName other <> name.
Proof.
  intros tsModule tsModules. repeat apply conj.
  - destruct (replaceOrAddTsModule_cases tsModule tsModules)
      as [[Hnone ->] | (pre & old & post & -> & Hpre & Hold & ->)];
      unfold removeTsModule; rewrite !List.filter_app; cbn.
    + rewrite String.eqb_refl. cbn. now rewrite app_nil_r.
    + rewrite String.eqb_refl, Hold, String.eqb_refl. reflexivity.
  - destruct (replaceOrAddTsModule_cases tsModule
                (removeTsModule sqlFileName (sqlFileName tsModule) tsModules))
      as [[_ ->] | (pre & old & post & Hsplit & _ & Hold & _)];
      [reflexivity|].
    exfalso.
    assert (Hin : In old (removeTsModule sqlFileName (sqlFileName tsModule)
                            tsModules)).
    { rewrite Hsplit. apply in_or_app. right. now left. }
    apply List.filter_In in Hin. destruct Hin as [_ Hname].
    rewrite Hold, String.eqb_refl in Hname. discriminate.
  - intros name other. unfold removeTsModule. rewrite List.filter_In.
    rewrite negb_true_iff, String.eqb_neq. reflexivity.
Qed.

End TsModuleList.

(** Modules as pairs of a SQL file name and a generated text; of the two
    modules of [b.sql] the first is replaced. *)
Lemma replaceOrAddTsModule_invariants_witness :
  replaceOrAddTsModule fst ("b.sql", "new")
    [("a.sql", "x"); ("b.sql", "old1"); ("c.sql", "y"); ("b.sql", "old2")]
  = [("a.sql", "x"); ("b.sql", "new"); ("c.sql", "y"); ("b.sql", "old2")].
Proof.
  destruct (replaceOrAddTsModule_invariants fst ("b.sql", "new")
              [("a.sql", "x"); ("b.sql", "old1"); ("c.sql", "y");
               ("b.sql", "old2")])
    as (_ & _ & _ & _ & _ & Hfirst).
  apply (Hfirst [("a.sql", "x")] ("b.sql", "old1")
           [("c.sql", "y"); ("b.sql", "old2")]);
    [reflexivity | | reflexivity].
  intros m [<- | []]. discriminate.
Defined.

(* ------------------------------------------------------------------ *)
(** ** Further properties: the list of file extensions *)

Lemma splitComma_nonempty (s : string) : splitComma s <> [].
Proof.
  destruct s as [|c rest]; cbn; [discriminate|].
  destruct (Ascii.eqb c ","); [discriminate|].
  destruct (splitComma rest); discriminate.
Qed.

Lemma splitComma_concat (s : string) :
  String.concat "," (splitComma s) = s.
Proof.
  induction s as [|c rest IH]; [reflexivity|].
  cbn [splitComma]. destruct (Ascii.eqb_spec c ",") as [-> | Hc].
  - pose proof (splitComma_nonempty rest) as Hne.
    destruct (splitComma rest) as [|piece pieces]; [contradiction|].
    cbn [String.concat]. cbn [String.concat] in IH. now rewrite IH.
  - pose proof (splitComma_nonempty rest) as Hne.
    destruct (splitComma rest) as [|piece [|next pieces]]; [contradiction| |].
    + cbn in *. now rewrite IH.
    + change (String c (String.concat "," (piece :: next :: pieces))
              = String c rest).
      now rewrite IH.
Qed.

Lemma splitComma_no_comma (s : string) :
  Forall (fun piece => ~ In ","%char (list_ascii_of_string piece))
    (splitComma s).
Proof.
  induction s as [|c rest IH]; cbn [splitComma].
  - constructor; [intros [] | constructor].
  - destruct (Ascii.eqb_spec c ",") as [-> | Hc].
    + constructor; [intros [] | exact IH].
    + destruct (splitComma rest) as [|piece pieces].
      * constructor; [|constructor]. cbn. intros [H | []]. congruence.
      * inversion IH as [|? ? Hpiece Hpieces]; subst.
        constructor; [|exact Hpieces].
        cbn. intros [H | H]; [congruence | contradiction].
Qed.

(** X22: the [--ext] option is cut at every comma and each piece gets a
    leading dot: joining the pieces with commas gives the option back, no
    piece holds a comma and there is at least one piece, so the empty option
    gives the single extension ["."]. *)
Theorem extensions_pieces :
  forall (e : string),
    exists pieces,
      extensions e = List.map (fun ext => ("." ++ ext)%string) pieces
      /\ String.concat "," pieces = e
      /\ pieces <> []
      /\ Forall (fun piece => ~ In ","%char (list_ascii_of_string piece))
           pieces.
Proof.
  intros e. exists (splitComma e). repeat apply conj.
  - reflexivity.
  - apply splitComma_concat.
  - apply splitComma_nonempty.
  - apply splitComma_no_comma.
Qed.

(* ------------------------------------------------------------------ *)
(** ** Further properties: ambiguous column names *)

Section Ambiguity.

Variable client : SchemaClient.
Variable operatorNullSafety : string -> NullSafety.
Variable functionNullSafety : string -> NullSafety.
Variable Expression_equals : Expression -> Expression -> bool.


End Ambiguity.

